(** * Continuous adaptive discovery loop of [m4_neo4j_accelerated_discovery.py]

    A shallow embedding of the control loop, the resource-driven scaling
    policy, the scorer, the validate-and-store step and the shutdown
    protocol of [M4Neo4jDiscoveryEngine], followed by the properties of
    the specification that concern them.

    Conventions of the embedding.
    - Python [int] is [Z]; Python [float] is [Q].  The float operations
      whose value decides control flow are the products of an integer
      with the literals 0.9, 1.25, 0.8 and 1.1 followed by [int()], and
      comparisons of a quotient of two integers below 101 with a
      two-digit decimal literal; on these the exact rational and the IEEE
      double give the same truncation and the same comparison as long as
      the integer is below 2^50.  A division by zero raises
      [ZeroDivisionError], on ints and on floats.  Transcendental
      functions, [np.mean] and the random generators are uninterpreted
      operations of the environment.
    - A Python dict with a fixed key set is a record; a key that may be
      absent is an [option] field.
    - Effects are a state-and-exception monad over the engine object, the
      chronological list of emitted events (log records, prints, sleeps,
      completed external writes) and the state of the outside world.
    - Only exceptions derived from [Exception] are modelled: SIGINT is
      routed to the installed handler, so no [KeyboardInterrupt] arises.
    - A signal is handled by the installed handler before the next test
      of the loop condition; the loop itself carries fuel, and running
      out of fuel is distinguished from returning. *)

From Stdlib Require Import ZArith QArith Qround Lqa List String Ascii Bool Lia.
Import ListNotations.

Set Implicit Arguments.

Local Open Scope Z_scope.

(** ** Numbers *)

(** [int(x)] on a float: truncation towards zero. *)
Definition py_int (x : Q) : Z := Z.quot (Qnum x) (Z.pos (Qden x)).

(** [a < b] on floats, as a boolean. *)
Definition Qltb (a b : Q) : bool := negb (Qle_bool b a).

(** [lo <= x <= hi], Python's chained comparison. *)
Definition Qbetween (lo x hi : Q) : bool := Qle_bool lo x && Qle_bool x hi.

(** [1024**3] *)
Definition GiB : Z := 1024 ^ 3.

(** ** Configuration *)

(** The dataclass [M4Neo4jConfig]; [memory_limit_gb] is [None] until
    [__post_init__] detects it. *)
Record M4Neo4jConfig := {
  device : string;
  batch_size : Z;
  memory_limit_gb : option Q;
  use_unified_memory : bool;
  optimize_for_apple_silicon : bool;
  metal_performance_shaders : bool;
  continuous_mode : bool;
  auto_scale : bool;
  safety_memory_margin : Q;
  max_batch_size : Z;
  sequences_per_cycle : Z;
  parallel_workers : Z;
  aggressive_scaling : bool;
  neo4j_uri : string;
  neo4j_user : string;
  neo4j_password : string;
  cfg_use_neo4j : bool
}.

(** The field defaults of the dataclass. *)
Definition default_config : M4Neo4jConfig := {|
  device := "mps";
  batch_size := 512;
  memory_limit_gb := None;
  use_unified_memory := true;
  optimize_for_apple_silicon := true;
  metal_performance_shaders := true;
  continuous_mode := true;
  auto_scale := true;
  safety_memory_margin := 1 # 10;
  max_batch_size := 64;
  sequences_per_cycle := 32;
  parallel_workers := 4;
  aggressive_scaling := false;
  neo4j_uri := "bolt://localhost:7687";
  neo4j_user := "neo4j";
  neo4j_password := "fotquantum";
  cfg_use_neo4j := true
|}.

Definition set_sequences_per_cycle (n : Z) (c : M4Neo4jConfig) : M4Neo4jConfig := {|
  device := device c;
  batch_size := batch_size c;
  memory_limit_gb := memory_limit_gb c;
  use_unified_memory := use_unified_memory c;
  optimize_for_apple_silicon := optimize_for_apple_silicon c;
  metal_performance_shaders := metal_performance_shaders c;
  continuous_mode := continuous_mode c;
  auto_scale := auto_scale c;
  safety_memory_margin := safety_memory_margin c;
  max_batch_size := max_batch_size c;
  sequences_per_cycle := n;
  parallel_workers := parallel_workers c;
  aggressive_scaling := aggressive_scaling c;
  neo4j_uri := neo4j_uri c;
  neo4j_user := neo4j_user c;
  neo4j_password := neo4j_password c;
  cfg_use_neo4j := cfg_use_neo4j c
|}.

Definition set_batch_size (n : Z) (c : M4Neo4jConfig) : M4Neo4jConfig := {|
  device := device c;
  batch_size := n;
  memory_limit_gb := memory_limit_gb c;
  use_unified_memory := use_unified_memory c;
  optimize_for_apple_silicon := optimize_for_apple_silicon c;
  metal_performance_shaders := metal_performance_shaders c;
  continuous_mode := continuous_mode c;
  auto_scale := auto_scale c;
  safety_memory_margin := safety_memory_margin c;
  max_batch_size := max_batch_size c;
  sequences_per_cycle := sequences_per_cycle c;
  parallel_workers := parallel_workers c;
  aggressive_scaling := aggressive_scaling c;
  neo4j_uri := neo4j_uri c;
  neo4j_user := neo4j_user c;
  neo4j_password := neo4j_password c;
  cfg_use_neo4j := cfg_use_neo4j c
|}.

(** The fields of [psutil.virtual_memory()] the engine reads: byte counts
    and the used percentage (0 to 100). *)
Record MemoryInfo := {
  total : Z;
  available : Z;
  percent : Q
}.

(** ** Exceptions and events *)

Inductive Exn :=
| ZeroDivisionError
| AttributeError (attr : string)
| CollaboratorError (what : string).

Inductive Level := DEBUG | INFO | WARNING | ERROR.

(** One constructor per log call site of the engine. *)
Inductive Message :=
| MsgReducingSequences (old new : Z)
| MsgScalingUp (old new : Z)
| MsgReducingBatchSize (old new : Z)
| MsgIncreasingBatchSize (old new : Z)
| MsgReceivedSignal (signum : Z)
| MsgVQbitGraphInitialized (device : string)
| MsgNeo4jInitialized
| MsgNeo4jNotAvailable (e : Exn)
| MsgUsingFallbackStorage
| MsgEngineInitialized (neo4j : bool)
| MsgStarting (neo4j : bool) (batch : Z) (limit : option Q)
| MsgHighQuantumFidelity (id : string) (fidelity coherence : Q)
| MsgFailedToStore (e : Exn)
| MsgValidationStorageError (i : nat) (e : Exn)
| MsgCycleError (e : Exn)
| MsgProgressUpdate (cycles sequences discoveries : Z) (rate : Q)
| MsgNeo4jProgressStats (total_discoveries excellent : Z)
| MsgNeo4jStatsError (e : Exn)
| MsgShutdownReport
| MsgReportTotals (runtime : Q) (cycles sequences discoveries : Z) (rate : Q) (neo4j : bool)
| MsgReportNeo4jStats (total_discoveries unique_sequences : Z) (duplicate_rate : Q)
| MsgFinalStatsError (e : Exn).

(** ** The autoscaling decision

    Lines 522 to 551 of [_monitor_and_adjust_resources]: the decision taken
    once [psutil.virtual_memory()] has answered, as a function of the
    snapshot and the configuration.  It returns the configuration after
    the in-place updates and the log records emitted, oldest first. *)
Definition total_memory_gb (memory_info : MemoryInfo) : Q :=
  inject_Z (total memory_info) / inject_Z GiB.

Definition available_memory_gb (memory_info : MemoryInfo) : Q :=
  inject_Z (available memory_info) / inject_Z GiB.

Definition adjust_resources (memory_info : MemoryInfo) (cfg : M4Neo4jConfig)
  : M4Neo4jConfig * list (Level * Message) :=
  if Qle_bool 100 (total_memory_gb memory_info) then
    if Qltb 90 (percent memory_info) then
      let new_sequences :=
        Z.max 256 (py_int (inject_Z (sequences_per_cycle cfg) * (9 # 10))) in
      if negb (new_sequences =? sequences_per_cycle cfg) then
        (set_sequences_per_cycle new_sequences cfg,
         [(WARNING, MsgReducingSequences (sequences_per_cycle cfg) new_sequences)])
      else (cfg, [])
    else if Qltb (percent memory_info) 70 && Qltb 40 (available_memory_gb memory_info) then
      let new_sequences :=
        Z.min 1024 (py_int (inject_Z (sequences_per_cycle cfg) * (125 # 100))) in
      if negb (new_sequences =? sequences_per_cycle cfg) then
        (set_sequences_per_cycle new_sequences cfg,
         [(INFO, MsgScalingUp (sequences_per_cycle cfg) new_sequences)])
      else (cfg, [])
    else (cfg, [])
  else
    if Qltb 85 (percent memory_info) then
      let new_batch_size :=
        Z.max 8 (py_int (inject_Z (batch_size cfg) * (8 # 10))) in
      if negb (new_batch_size =? batch_size cfg) then
        (set_batch_size new_batch_size cfg,
         [(WARNING, MsgReducingBatchSize (batch_size cfg) new_batch_size)])
      else (cfg, [])
    else if Qltb (percent memory_info) 60 then
      let new_batch_size :=
        Z.min 512 (py_int (inject_Z (batch_size cfg) * (11 # 10))) in
      if negb (new_batch_size =? batch_size cfg) then
        (set_batch_size new_batch_size cfg,
         [(INFO, MsgIncreasingBatchSize (batch_size cfg) new_batch_size)])
      else (cfg, [])
    else (cfg, []).

(** ** The hook [__post_init__] of the configuration

    The hook as a function of what the platform reports:
    [torch.backends.mps.is_available()] (read twice, taken to answer the
    same both times), the module flag [NEO4J_AVAILABLE] and the snapshot
    of [psutil.virtual_memory()].  It returns the outcome and the INFO
    records logged until then, oldest first.  The local variable
    [total_memory_gb] is bound only on the path that detects the memory
    limit; reading it unbound raises [UnboundLocalError]. *)
Inductive ConfigExn :=
| RuntimeError (message : string)
| UnboundLocalError (name : string).

Inductive ConfigRecord :=
| CfgInitialized
| CfgMpsAvailable (available : bool)
| CfgNeo4jEnabled (enabled : bool)
| CfgMemoryLimit (limit : option Q)
| CfgBeastModeDetected
| CfgTotalRam (gb : Q)
| CfgBatchSize (n : Z)
| CfgSequencesPerCycle (n : Z)
| CfgMaxSequences (n : Z)
| CfgStandard (gb : Q).

Definition set_memory_limit_gb (limit : option Q) (c : M4Neo4jConfig) : M4Neo4jConfig := {|
  device := device c;
  batch_size := batch_size c;
  memory_limit_gb := limit;
  use_unified_memory := use_unified_memory c;
  optimize_for_apple_silicon := optimize_for_apple_silicon c;
  metal_performance_shaders := metal_performance_shaders c;
  continuous_mode := continuous_mode c;
  auto_scale := auto_scale c;
  safety_memory_margin := safety_memory_margin c;
  max_batch_size := max_batch_size c;
  sequences_per_cycle := sequences_per_cycle c;
  parallel_workers := parallel_workers c;
  aggressive_scaling := aggressive_scaling c;
  neo4j_uri := neo4j_uri c;
  neo4j_user := neo4j_user c;
  neo4j_password := neo4j_password c;
  cfg_use_neo4j := cfg_use_neo4j c
|}.

(** Lines 69 to 76: the fields after the detection, and the local
    [total_memory_gb] if it was bound. *)
Definition detect_resources (memory_info : MemoryInfo) (c : M4Neo4jConfig)
  : M4Neo4jConfig * option Q :=
  match memory_limit_gb c with
  | None =>
      let total_memory_gb := total_memory_gb memory_info in
      if aggressive_scaling c && Qle_bool 100 total_memory_gb then
        (set_batch_size (Z.min (max_batch_size c) (py_int (total_memory_gb * 8)))
           (set_memory_limit_gb (Some (total_memory_gb * (9 # 10))%Q) c),
         Some total_memory_gb)
      else
        (set_memory_limit_gb
           (Some (total_memory_gb * (1 - safety_memory_margin c))%Q) c,
         Some total_memory_gb)
  | Some _ => (c, None)
  end.

Definition __post_init__ (mps_is_available neo4j_available : bool)
    (memory_info : MemoryInfo) (c : M4Neo4jConfig)
  : (ConfigExn + M4Neo4jConfig) * list ConfigRecord :=
  if negb mps_is_available then
    (inl (RuntimeError "MPS not available on this system"), [])
  else
    let (c, local) := detect_resources memory_info c in
    let records :=
      [CfgInitialized;
       CfgMpsAvailable mps_is_available;
       CfgNeo4jEnabled (cfg_use_neo4j c && neo4j_available);
       CfgMemoryLimit (memory_limit_gb c)] in
    match local with
    | None => (inl (UnboundLocalError "total_memory_gb"), records)
    | Some total_memory_gb =>
        if Qle_bool 100 total_memory_gb then
          (inr c, records ++ [CfgBeastModeDetected;
                              CfgTotalRam total_memory_gb;
                              CfgBatchSize (batch_size c);
                              CfgSequencesPerCycle (sequences_per_cycle c);
                              CfgMaxSequences (max_batch_size c)])
        else (inr c, records ++ [CfgStandard total_memory_gb])
    end.

(** ** Data of the pipeline *)

Record VirtueProjection := {
  strength : Q;
  vp_phase : Q
}.

Record VirtueProjections := {
  vp_justice : VirtueProjection;
  vp_honesty : VirtueProjection;
  vp_temperance : VirtueProjection;
  vp_prudence : VirtueProjection
}.

(** One entry of the list built by [_generate_vqbit_quantum_states]. *)
Record VQbitState := {
  residue_index : nat;
  amino_acid : ascii;
  phi : Q;
  psi : Q;
  amplitude_real : Q;
  amplitude_imag : Q;
  entanglement : Q;
  coherence : Q;
  collapsed : bool;
  phase : Q;
  virtue_projections : VirtueProjections;
  entanglement_with_prev : Q
}.

Record VirtueScores := {
  justice : Q;
  honesty : Q;
  temperance : Q;
  prudence : Q
}.

(** The dict [quantum_analysis]; the scorer adds the key
    ['quantum_phase_correlation'], the default of the validation step
    does not have it. *)
Record QuantumAnalysis := {
  qa_coherence : Q;
  entanglement_entropy : Q;
  superposition_fidelity : Q;
  quantum_phase_correlation : option Q
}.

(** One element of ['individual_results']: the ScoreResult of one item. *)
Record ScoreResult := {
  vqbit_score : Q;
  energy : Q;
  virtue_scores : VirtueScores;
  vqbit_states : list VQbitState;
  quantum_analysis : QuantumAnalysis
}.

(** The dict returned by the scorer.  [individual_results = None] stands
    for a dict without that key, which [.get(..., [])] reads as []. *)
Record MetalResults := {
  individual_results : option (list ScoreResult);
  mr_batch_size : Z;
  mr_device : string;
  metal_optimized : bool;
  vqbit_quantum_enabled : bool
}.

Record MetalAnalysis := {
  ma_vqbit_score : Q;
  energy_kcal_mol : Q;
  ma_virtue_scores : VirtueScores
}.

Record HardwareInfo := {
  processed_on : string;
  metal_accelerated : bool;
  unified_memory : bool;
  hw_vqbit_quantum_enabled : bool
}.

Record Neo4jStats := {
  total_discoveries : Z;
  unique_sequences : Z;
  duplicate_rate : Q;
  quality_excellent : Z
}.

(** The dict [self.performance_metrics]. *)
Record PerformanceMetrics := {
  sequences_processed : Z;
  total_time : Q;
  metal_time : Q;
  validation_time : Q;
  storage_time : Q;
  valid_discoveries_found : Z;
  cycles_completed : Z;
  sequences_per_second_avg : Q
}.

(** The attributes of [M4Neo4jDiscoveryEngine] the loop reads or writes.
    [discovery_output_dir = None] is an object on which that attribute
    was never assigned. *)
Record Engine := {
  config : M4Neo4jConfig;
  use_neo4j : bool;
  running : bool;
  total_cycles : Z;
  start_time : Q;
  performance_metrics : PerformanceMetrics;
  discovery_output_dir : option string
}.

Definition set_config (c : M4Neo4jConfig) (e : Engine) : Engine := {|
  config := c;
  use_neo4j := use_neo4j e;
  running := running e;
  total_cycles := total_cycles e;
  start_time := start_time e;
  performance_metrics := performance_metrics e;
  discovery_output_dir := discovery_output_dir e
|}.

Definition set_running (b : bool) (e : Engine) : Engine := {|
  config := config e;
  use_neo4j := use_neo4j e;
  running := b;
  total_cycles := total_cycles e;
  start_time := start_time e;
  performance_metrics := performance_metrics e;
  discovery_output_dir := discovery_output_dir e
|}.

Definition set_performance_metrics (p : PerformanceMetrics) (e : Engine) : Engine := {|
  config := config e;
  use_neo4j := use_neo4j e;
  running := running e;
  total_cycles := total_cycles e;
  start_time := start_time e;
  performance_metrics := p;
  discovery_output_dir := discovery_output_dir e
|}.

Inductive PrintMsg :=
| PrStartingCycle (n : Z)
| PrMonitoring
| PrMonitoringComplete
| PrGenerating (n : Z)
| PrGenerated (n : Z)
| PrStartingMetal
| PrMetalComplete (t : Q)
| PrStartingValidation
| PrValidated (t : Q) (found : Z)
| PrCycleCompleted (n : Z) (t : Q)
| PrGeneratingProgress
| PrCleaning
| PrCleanupComplete
| PrNextCycle
| PrCycleError (e : Exn)
| PrStoredDiscovery (id12 : string) (score : Q)
| PrStoredToFile (score : Q)
| PrStorageError (e : Exn).

Section Model.

(** The dict built by [_generate_genetics_context] (lines 602 to 888):
    its content is drawn from [np.random] and no property below looks
    inside it. *)
Context {G : Type}.

(** The discovery record built by the validation step.  [neo4j_id] is the
    key added after a successful primary store. *)
Record Discovery := {
  sequence : string;
  validation_score : Q;
  assessment : string;
  metal_analysis : MetalAnalysis;
  genetics_context : G;
  d_vqbit_states : list VQbitState;
  d_quantum_analysis : QuantumAnalysis;
  hardware_info : HardwareInfo;
  neo4j_id : option string
}.

Definition set_neo4j_id (id : string) (d : Discovery) : Discovery := {|
  sequence := sequence d;
  validation_score := validation_score d;
  assessment := assessment d;
  metal_analysis := metal_analysis d;
  genetics_context := genetics_context d;
  d_vqbit_states := d_vqbit_states d;
  d_quantum_analysis := d_quantum_analysis d;
  hardware_info := hardware_info d;
  neo4j_id := Some id
|}.

(** What the process does that an observer can see, oldest first.
    [EvNeo4jStored] and [EvFileWritten] record a store that the backend
    completed, [EvNeo4jClose] the call of [neo4j_engine.close()].
    [EvFileOpened] records that [open(path, 'w')] returned: the file
    exists from then on, empty until [json.dump] has written it, and it
    stays on disk, empty or truncated, if [json.dump] raises. *)
Inductive Event :=
| EvLog (l : Level) (m : Message)
| EvPrint (p : PrintMsg)
| EvSleep (seconds : Q)
| EvGcCollect
| EvSignalHandlersInstalled
| EvMkdir (path : string)
| EvNeo4jStored (d : Discovery) (id : string)
| EvFileOpened (path : string)
| EvFileWritten (path : string) (d : Discovery)
| EvNeo4jClose.

(** The collaborators of the engine, over a state [W] of the outside
    world: standard library and NumPy numerics, the random generators,
    clocks, [psutil], the sequence generator, the Neo4j engine, the file
    system and the signals the operating system delivers.
    [generate_genetics_context] stands for the method
    [_generate_genetics_context] of the engine, which reads only its
    arguments and [np.random]: it returns the payload or raises.
    The constructors that [__init__] calls return a handle that the
    model does not look into, or raise; [GeneticsSimulator] takes whether
    it is given the Neo4j engine ([true]) or [None] ([false]);
    [signal_signal signum] is [signal.signal(signum, self._signal_handler)];
    [open path] is [open(path, 'w')]. *)
Class Environment (W : Type) := {
  ScientificSequenceGenerator : W -> (Exn + unit) * W;
  DiscoveryQualityValidator : W -> (Exn + unit) * W;
  torch_device : string -> W -> (Exn + unit) * W;
  GeneticsOntology : W -> (Exn + unit) * W;
  GeneticsSimulator : bool -> W -> (Exn + unit) * W;
  signal_signal : Z -> W -> (Exn + unit) * W;
  open : string -> W -> (Exn + unit) * W;
  NEO4J_AVAILABLE : bool;
  math_pi : Q;
  math_cos : Q -> Q;
  math_sin : Q -> Q;
  math_sqrt : Q -> Q;
  np_log : Q -> Q;
  np_mean : list Q -> Q;
  random_uniform : Q -> Q -> W -> Q * W;
  random_random : W -> Q * W;
  time_time : W -> Q * W;
  datetime_now_strftime : W -> string * W;
  psutil_virtual_memory : W -> (Exn + MemoryInfo) * W;
  generate_realistic_sequence : W -> (Exn + string) * W;
  generate_genetics_context :
    string -> QuantumAnalysis -> VirtueScores -> W -> (Exn + G) * W;
  Neo4jDiscoveryEngine : string -> string -> string -> W -> (Exn + unit) * W;
  store_discovery : Discovery -> W -> (Exn + string) * W;
  get_discovery_statistics : W -> (Exn + Neo4jStats) * W;
  neo4j_close : W -> (Exn + unit) * W;
  path_mkdir : string -> W -> (Exn + unit) * W;
  json_dump : string -> Discovery -> W -> (Exn + unit) * W;
  delivered_signals : W -> list Z * W
}.

Context {W : Type} {env : Environment W}.

(** ** The state-and-exception monad *)

Record State := {
  self : Engine;
  events : list Event;
  world : W
}.

Definition M (A : Type) : Type := State -> (Exn + A) * State.

Definition ret {A} (a : A) : M A := fun st => (inr a, st).

Definition bind {A B} (m : M A) (f : A -> M B) : M B :=
  fun st =>
    match m st with
    | (inl e, st') => (inl e, st')
    | (inr a, st') => f a st'
    end.

Definition raise {A} (e : Exn) : M A := fun st => (inl e, st).

(** [try: m  except Exception as e: h e] *)
Definition try_except {A} (m : M A) (h : Exn -> M A) : M A :=
  fun st =>
    match m st with
    | (inl e, st') => h e st'
    | (inr a, st') => (inr a, st')
    end.

Definition emit (ev : Event) : M unit :=
  fun st => (inr tt, {| self := self st; events := events st ++ [ev]; world := world st |}).

Definition get_self : M Engine := fun st => (inr (self st), st).

Definition modify_self (f : Engine -> Engine) : M unit :=
  fun st => (inr tt, {| self := f (self st); events := events st; world := world st |}).

(** A collaborator that cannot fail. *)
Definition call {A} (op : W -> A * W) : M A :=
  fun st =>
    let (a, w) := op (world st) in
    (inr a, {| self := self st; events := events st; world := w |}).

(** A collaborator that may raise. *)
Definition call_exn {A} (op : W -> (Exn + A) * W) : M A :=
  fun st =>
    let (r, w) := op (world st) in
    (r, {| self := self st; events := events st; world := w |}).

Definition logger (l : Level) (m : Message) : M unit := emit (EvLog l m).
Definition print (p : PrintMsg) : M unit := emit (EvPrint p).

Notation "x <- c1 ;; c2" := (bind c1 (fun x => c2))
  (at level 61, c1 at next level, right associativity).
Notation "c1 ;; c2" := (bind c1 (fun _ => c2))
  (at level 61, right associativity).

(** [if c: m], with no else branch. *)
Definition when (c : bool) (m : M unit) : M unit := if c then m else ret tt.

(** Python's [a / b] on two ints. *)
Definition int_true_div (a b : Z) : M Q :=
  if b =? 0 then raise ZeroDivisionError else ret (inject_Z a / inject_Z b)%Q.

(** Python's [a / b] on two floats. *)
Definition float_div (a b : Q) : M Q :=
  if Qeq_bool b 0 then raise ZeroDivisionError else ret (a / b)%Q.

(** ** The scorer: [M4Neo4jVQbitGraph] *)

(** [{...}.get(key, default)] on a dict literal. *)
Fixpoint dict_get {V} (table : list (ascii * V)) (key : ascii) (default : V) : V :=
  match table with
  | [] => default
  | (k, v) :: rest => if Ascii.eqb k key then v else dict_get rest key default
  end.

Definition phi_base_table : list (ascii * Q) :=
  [("G", -60#1); ("P", -60#1); ("A", -60#1); ("V", -120#1);
   ("L", -120#1); ("I", -120#1); ("M", -60#1); ("F", -120#1);
   ("W", -120#1); ("Y", -120#1); ("S", -60#1); ("T", -60#1);
   ("C", -60#1); ("N", -60#1); ("Q", -60#1); ("H", -60#1);
   ("K", -120#1); ("R", -120#1); ("D", -60#1); ("E", -60#1)]%char%Q.

Definition psi_base_table : list (ascii * Q) :=
  [("G", 180#1); ("P", 120#1); ("A", -45#1); ("V", 120#1);
   ("L", 120#1); ("I", 120#1); ("M", -45#1); ("F", 120#1);
   ("W", 120#1); ("Y", 120#1); ("S", -45#1); ("T", -45#1);
   ("C", -45#1); ("N", -45#1); ("Q", -45#1); ("H", -45#1);
   ("K", 120#1); ("R", 120#1); ("D", -45#1); ("E", -45#1)]%char%Q.

Definition uniform (lo hi : Q) : M Q := call (random_uniform lo hi).

(** One [{'strength': uniform(0.1, hi), 'phase': uniform(0, 2 pi)}]. *)
Definition draw_projection (hi : Q) : M VirtueProjection :=
  s <- uniform (1 # 10) hi ;;
  p <- uniform 0 (2 * math_pi) ;;
  ret {| strength := s; vp_phase := p |}.

(** The body of the loop of [_generate_vqbit_quantum_states] for residue
    [i]; the draws are in the order of the source. *)
Definition vqbit_state_of (i : nat) (aa : ascii) : M VQbitState :=
  phase <- uniform 0 (2 * math_pi) ;;
  u_re <- uniform (1 # 2) 1 ;;
  let amplitude_real := (math_cos phase * u_re)%Q in
  u_im <- uniform (1 # 2) 1 ;;
  let amplitude_imag := (math_sin phase * u_im)%Q in
  let magnitude :=
    math_sqrt (amplitude_real * amplitude_real + amplitude_imag * amplitude_imag)%Q in
  amplitude_real <- float_div amplitude_real magnitude ;;
  amplitude_imag <- float_div amplitude_imag magnitude ;;
  entanglement <- uniform (3 # 10) (9 # 10) ;;
  coherence <- uniform (7 # 10) (95 # 100) ;;
  r <- call random_random ;;
  let collapsed := Qltb r (15 # 100) in
  let phi_base := dict_get phi_base_table aa (-60 # 1)%Q in
  let psi_base := dict_get psi_base_table aa (-45 # 1)%Q in
  d_phi <- uniform (-30 # 1) 30 ;;
  d_psi <- uniform (-30 # 1) 30 ;;
  p_justice <- draw_projection (5 # 10) ;;
  p_honesty <- draw_projection (5 # 10) ;;
  p_temperance <- draw_projection (4 # 10) ;;
  p_prudence <- draw_projection (4 # 10) ;;
  entanglement_with_prev <-
    (if (0 <? i)%nat then uniform (4 # 10) (8 # 10) else ret 0%Q) ;;
  ret {| residue_index := i;
         amino_acid := aa;
         phi := (phi_base + d_phi)%Q;
         psi := (psi_base + d_psi)%Q;
         amplitude_real := amplitude_real;
         amplitude_imag := amplitude_imag;
         entanglement := entanglement;
         coherence := coherence;
         collapsed := collapsed;
         phase := phase;
         virtue_projections :=
           {| vp_justice := p_justice; vp_honesty := p_honesty;
              vp_temperance := p_temperance; vp_prudence := p_prudence |};
         entanglement_with_prev := entanglement_with_prev |}.

(** [for i, amino_acid in enumerate(sequence): ... vqbit_states.append(...)] *)
Fixpoint vqbit_states_loop (i : nat) (residues : list ascii)
    (vqbit_states : list VQbitState) : M (list VQbitState) :=
  match residues with
  | [] => ret vqbit_states
  | aa :: rest =>
      vqbit_state <- vqbit_state_of i aa ;;
      vqbit_states_loop (S i) rest (vqbit_states ++ [vqbit_state])
  end.

Definition _generate_vqbit_quantum_states (sequence : string) : M (list VQbitState) :=
  vqbit_states_loop 0 (list_ascii_of_string sequence) [].

(** [np.mean([...]) * random.uniform(0.5, 1.5) - offset] *)
Definition virtue_score (strengths : list Q) (offset : Q) : M Q :=
  u <- uniform (5 # 10) (15 # 10) ;;
  ret (np_mean strengths * u - offset)%Q.

(** The body of the loop of [_simplified_metal_analysis] for one
    sequence. *)
Definition analyse_sequence (sequence : string) : M ScoreResult :=
  vqbit_states <- _generate_vqbit_quantum_states sequence ;;
  let avg_entanglement := np_mean (map entanglement vqbit_states) in
  let avg_coherence := np_mean (map coherence vqbit_states) in
  let collapsed_count := Z.of_nat (List.length (filter collapsed vqbit_states)) in
  let vqbit_score := ((avg_entanglement + avg_coherence) / 2)%Q in
  let base_energy := (-300 # 1)%Q in
  let quantum_energy_modifier := ((avg_entanglement - (1 # 2)) * 50)%Q in
  u <- uniform (-50 # 1) 50 ;;
  let energy := (base_energy + quantum_energy_modifier + u)%Q in
  s_justice <-
    virtue_score (map (fun vq => strength (vp_justice (virtue_projections vq))) vqbit_states)
                 (25 # 100) ;;
  s_honesty <-
    virtue_score (map (fun vq => strength (vp_honesty (virtue_projections vq))) vqbit_states)
                 (25 # 100) ;;
  s_temperance <-
    virtue_score (map (fun vq => strength (vp_temperance (virtue_projections vq))) vqbit_states)
                 (2 # 10) ;;
  s_prudence <-
    virtue_score (map (fun vq => strength (vp_prudence (virtue_projections vq))) vqbit_states)
                 (2 # 10) ;;
  let entropy :=
    (- avg_entanglement * np_log (avg_entanglement + (1 # 10000000000)))%Q in
  fidelity <-
    int_true_div (Z.of_nat (List.length vqbit_states) - collapsed_count)
                 (Z.of_nat (List.length vqbit_states)) ;;
  let correlation := np_mean (map phase vqbit_states) in
  ret {| vqbit_score := vqbit_score;
         energy := energy;
         virtue_scores :=
           {| justice := s_justice; honesty := s_honesty;
              temperance := s_temperance; prudence := s_prudence |};
         vqbit_states := vqbit_states;
         quantum_analysis :=
           {| qa_coherence := avg_coherence;
              entanglement_entropy := entropy;
              superposition_fidelity := fidelity;
              quantum_phase_correlation := Some correlation |} |}.

(** [for sequence in sequences: ... results.append({...})] *)
Fixpoint analysis_loop (sequences : list string) (results : list ScoreResult)
  : M (list ScoreResult) :=
  match sequences with
  | [] => ret results
  | sequence :: rest =>
      result <- analyse_sequence sequence ;;
      analysis_loop rest (results ++ [result])
  end.

Definition _simplified_metal_analysis (sequences : list string) : M MetalResults :=
  let batch_size := Z.of_nat (List.length sequences) in
  results <- analysis_loop sequences [] ;;
  s <- get_self ;;
  ret {| individual_results := Some results;
         mr_batch_size := batch_size;
         mr_device := device (config s);
         metal_optimized := true;
         vqbit_quantum_enabled := true |}.

Definition massive_batch_analysis (sequences : list string) : M MetalResults :=
  _simplified_metal_analysis sequences.

(** ** The engine: [M4Neo4jDiscoveryEngine] *)

Definition zero_metrics : PerformanceMetrics := {|
  sequences_processed := 0;
  total_time := 0;
  metal_time := 0;
  validation_time := 0;
  storage_time := 0;
  valid_discoveries_found := 0;
  cycles_completed := 0;
  sequences_per_second_avg := 0
|}.

(** The object [__init__] receives: the attributes it assigns on every
    path hold placeholders, [discovery_output_dir] is unassigned. *)
Definition new_object (config : M4Neo4jConfig) : Engine := {|
  config := config;
  use_neo4j := false;
  running := false;
  total_cycles := 0;
  start_time := 0;
  performance_metrics := zero_metrics;
  discovery_output_dir := None
|}.

Definition set_use_neo4j (b : bool) (e : Engine) : Engine := {|
  config := config e;
  use_neo4j := b;
  running := running e;
  total_cycles := total_cycles e;
  start_time := start_time e;
  performance_metrics := performance_metrics e;
  discovery_output_dir := discovery_output_dir e
|}.

Definition set_start (t : Q) (e : Engine) : Engine := {|
  config := config e;
  use_neo4j := use_neo4j e;
  running := true;
  total_cycles := 0;
  start_time := t;
  performance_metrics := zero_metrics;
  discovery_output_dir := discovery_output_dir e
|}.

Definition set_discovery_output_dir (d : string) (e : Engine) : Engine := {|
  config := config e;
  use_neo4j := use_neo4j e;
  running := running e;
  total_cycles := total_cycles e;
  start_time := start_time e;
  performance_metrics := performance_metrics e;
  discovery_output_dir := Some d
|}.

(** [signal.SIGINT] and [signal.SIGTERM] *)
Definition SIGINT : Z := 2.
Definition SIGTERM : Z := 15.

(** [M4Neo4jVQbitGraph.__init__] (lines 92 to 97). *)
Definition M4Neo4jVQbitGraph__init__ (config : M4Neo4jConfig) : M unit :=
  call_exn (torch_device (device config)) ;;
  logger INFO (MsgVQbitGraphInitialized (device config)).

(** [M4Neo4jDiscoveryEngine.__init__] on a configuration that is passed,
    as [main] does: [config or M4Neo4jConfig()] is then [config].  The
    components are built first; on the Neo4j path the flag is raised
    before the genetics simulator is built, and a simulator that raises
    there is caught like a failed connection; the simulator built on
    [None], in the handler or on the file path, is not inside a [try].
    The fallback directory is assigned only when [use_neo4j] is false. *)
Definition __init__ : M unit :=
  s <- get_self ;;
  call_exn ScientificSequenceGenerator ;;
  call_exn DiscoveryQualityValidator ;;
  M4Neo4jVQbitGraph__init__ (config s) ;;
  call_exn GeneticsOntology ;;
  (if cfg_use_neo4j (config s) && NEO4J_AVAILABLE then
     try_except
       (call_exn (Neo4jDiscoveryEngine (neo4j_uri (config s)) (neo4j_user (config s))
                                       (neo4j_password (config s))) ;;
        modify_self (set_use_neo4j true) ;;
        call_exn (GeneticsSimulator true) ;;
        logger INFO MsgNeo4jInitialized)
       (fun e =>
          logger WARNING (MsgNeo4jNotAvailable e) ;;
          modify_self (set_use_neo4j false) ;;
          call_exn (GeneticsSimulator false))
   else
     modify_self (set_use_neo4j false) ;;
     call_exn (GeneticsSimulator false) ;;
     logger INFO MsgUsingFallbackStorage) ;;
  t <- call time_time ;;
  modify_self (set_start t) ;;
  call_exn (signal_signal SIGINT) ;;
  call_exn (signal_signal SIGTERM) ;;
  emit EvSignalHandlersInstalled ;;
  s <- get_self ;;
  (if negb (use_neo4j s) then
     modify_self (set_discovery_output_dir "m4_continuous_discoveries") ;;
     call_exn (path_mkdir "m4_continuous_discoveries") ;;
     emit (EvMkdir "m4_continuous_discoveries")
   else ret tt) ;;
  s <- get_self ;;
  logger INFO (MsgEngineInitialized (use_neo4j s)).

(** [_signal_handler(signum, frame)] *)
Definition _signal_handler (signum : Z) : M unit :=
  logger INFO (MsgReceivedSignal signum) ;;
  modify_self (set_running false).

(** [_save_discovery_to_file]: the timestamp is taken first, then the
    attribute [discovery_output_dir] is read; [open] creates or truncates
    the file before [json.dump] writes it, so a [json.dump] that raises
    leaves the file behind. *)
Definition _save_discovery_to_file (discovery : Discovery) : M unit :=
  timestamp <- call datetime_now_strftime ;;
  s <- get_self ;;
  match discovery_output_dir s with
  | None => raise (AttributeError "discovery_output_dir")
  | Some dir =>
      let discovery_file :=
        (dir ++ "/m4_discovery_" ++ timestamp ++ ".json")%string in
      call_exn (open discovery_file) ;;
      emit (EvFileOpened discovery_file) ;;
      call_exn (json_dump discovery_file discovery) ;;
      emit (EvFileWritten discovery_file discovery)
  end.

(** [sum(1 for aa in sequence if aa in members)] *)
Definition count_in (members sequence : string) : Z :=
  Z.of_nat (List.length
    (filter (fun aa => existsb (Ascii.eqb aa) (list_ascii_of_string members))
            (list_ascii_of_string sequence))).

(** The fallback values of lines 444 to 448. *)
Definition default_score_result : ScoreResult := {|
  vqbit_score := 1 # 2;
  energy := -300 # 1;
  virtue_scores := {| justice := 0; honesty := 0; temperance := 0; prudence := 0 |};
  vqbit_states := [];
  quantum_analysis :=
    {| qa_coherence := 0; entanglement_entropy := 0; superposition_fidelity := 0;
       quantum_phase_correlation := None |}
|}.

(** [metal_results.get('individual_results', [])] *)
Definition get_individual_results (metal_results : MetalResults) : list ScoreResult :=
  match individual_results metal_results with
  | Some l => l
  | None => []
  end.

(** Lines 434 to 448: [individual_results[i]] if [i] is below the length
    of [metal_results.get('individual_results', [])], the fallback values
    otherwise. *)
Definition result_for (metal_results : MetalResults) (i : nat) : ScoreResult :=
  let individual_results := get_individual_results metal_results in
  match nth_error individual_results i with
  | Some result => result
  | None => default_score_result
  end.

(** The quality score of lines 425 to 431. *)
Definition quality_score (hydrophobic_fraction charged_fraction polar_fraction : Q) : Q :=
  let score := (3 # 10)%Q in
  let score :=
    if Qbetween (5 # 100) hydrophobic_fraction (9 # 10) then (score + (25 # 100))%Q else score in
  let score :=
    if Qbetween (2 # 100) charged_fraction (6 # 10) then (score + (25 # 100))%Q else score in
  let score :=
    if Qbetween (2 # 100) polar_fraction (6 # 10) then (score + (2 # 10))%Q else score in
  score.

(** The storage block of lines 474 to 494; it returns the record as the
    code goes on to append it (with ['neo4j_id'] after a primary store). *)
Definition store (discovery : Discovery) (score : Q) : M Discovery :=
  try_except
    (s <- get_self ;;
     if use_neo4j s then
       discovery_id <- call_exn (store_discovery discovery) ;;
       emit (EvNeo4jStored discovery discovery_id) ;;
       print (PrStoredDiscovery (substring 0 12 discovery_id) score) ;;
       when (Qltb (8 # 10) (superposition_fidelity (d_quantum_analysis discovery)))
            (logger INFO (MsgHighQuantumFidelity
                            (substring 0 8 discovery_id)
                            (superposition_fidelity (d_quantum_analysis discovery))
                            (qa_coherence (d_quantum_analysis discovery)))) ;;
       ret (set_neo4j_id discovery_id discovery)
     else
       _save_discovery_to_file discovery ;;
       print (PrStoredToFile score) ;;
       ret discovery)
    (fun storage_error =>
       print (PrStorageError storage_error) ;;
       logger ERROR (MsgFailedToStore storage_error) ;;
       _save_discovery_to_file discovery ;;
       ret discovery).

(** The body of the [try] of the loop of [_ultra_fast_validate_and_store]
    for the item at index [i]; it returns [valid_discoveries] after the
    iteration. *)
Definition validate_and_store_item (i : nat) (sequence : string)
    (metal_results : MetalResults) (valid_discoveries : list Discovery)
  : M (list Discovery) :=
  let len := Z.of_nat (String.length sequence) in
  if (15 <=? len) && (len <=? 100) then
    let hydrophobic_count := count_in "ALFWMIV" sequence in
    let charged_count := count_in "DEHKR" sequence in
    let polar_count := count_in "NQSTCY" sequence in
    hydrophobic_fraction <- int_true_div hydrophobic_count len ;;
    charged_fraction <- int_true_div charged_count len ;;
    polar_fraction <- int_true_div polar_count len ;;
    let score := quality_score hydrophobic_fraction charged_fraction polar_fraction in
    let result := result_for metal_results i in
    genetics_context <-
      call_exn (generate_genetics_context sequence (quantum_analysis result)
                                          (virtue_scores result)) ;;
    let discovery := {|
      sequence := sequence;
      validation_score := score;
      assessment := "VALID: Quantum-enhanced validation with genetics context";
      metal_analysis :=
        {| ma_vqbit_score := vqbit_score result;
           energy_kcal_mol := energy result;
           ma_virtue_scores := virtue_scores result |};
      genetics_context := genetics_context;
      d_vqbit_states := vqbit_states result;
      d_quantum_analysis := quantum_analysis result;
      hardware_info :=
        {| processed_on := "M4_Mac_Pro_40_GPU"; metal_accelerated := true;
           unified_memory := true; hw_vqbit_quantum_enabled := true |};
      neo4j_id := None
    |} in
    discovery <- store discovery score ;;
    ret (valid_discoveries ++ [discovery])
  else ret valid_discoveries.

(** [for i, sequence in enumerate(sequences): try: ... except Exception
    as e: logger.debug(...); continue] *)
Fixpoint validate_and_store_loop (i : nat) (sequences : list string)
    (metal_results : MetalResults) (valid_discoveries : list Discovery)
  : M (list Discovery) :=
  match sequences with
  | [] => ret valid_discoveries
  | sequence :: rest =>
      valid_discoveries <-
        try_except
          (validate_and_store_item i sequence metal_results valid_discoveries)
          (fun e =>
             logger DEBUG (MsgValidationStorageError i e) ;;
             ret valid_discoveries) ;;
      validate_and_store_loop (S i) rest metal_results valid_discoveries
  end.

Definition add_storage_time (dt : Q) (p : PerformanceMetrics) : PerformanceMetrics := {|
  sequences_processed := sequences_processed p;
  total_time := total_time p;
  metal_time := metal_time p;
  validation_time := validation_time p;
  storage_time := (storage_time p + dt)%Q;
  valid_discoveries_found := valid_discoveries_found p;
  cycles_completed := cycles_completed p;
  sequences_per_second_avg := sequences_per_second_avg p
|}.

Definition update_metrics (f : PerformanceMetrics -> PerformanceMetrics) : M unit :=
  modify_self (fun e => set_performance_metrics (f (performance_metrics e)) e).

Definition _ultra_fast_validate_and_store (sequences : list string)
    (metal_results : MetalResults) : M (list Discovery) :=
  storage_start <- call time_time ;;
  valid_discoveries <- validate_and_store_loop 0 sequences metal_results [] ;;
  t <- call time_time ;;
  let storage_time := (t - storage_start)%Q in
  update_metrics (add_storage_time storage_time) ;;
  ret valid_discoveries.

(** [for level, message in records: logger.log(level, message)] *)
Fixpoint log_all (records : list (Level * Message)) : M unit :=
  match records with
  | [] => ret tt
  | (l, m) :: rest => logger l m ;; log_all rest
  end.

(** [_monitor_and_adjust_resources]: the early return, the query of
    [psutil] and the decision [adjust_resources] applied to
    [self.config]. *)
Definition _monitor_and_adjust_resources : M unit :=
  s <- get_self ;;
  if negb (auto_scale (config s)) then ret tt
  else
    memory_info <- call_exn psutil_virtual_memory ;;
    let (cfg, records) := adjust_resources memory_info (config s) in
    log_all records ;;
    modify_self (set_config cfg).

Definition _log_progress_update : M unit :=
  t <- call time_time ;;
  s <- get_self ;;
  let p := performance_metrics s in
  logger INFO (MsgProgressUpdate (cycles_completed p) (sequences_processed p)
                                 (valid_discoveries_found p) (sequences_per_second_avg p)) ;;
  when (use_neo4j s)
    (try_except
       (neo4j_stats <- call_exn get_discovery_statistics ;;
        logger INFO (MsgNeo4jProgressStats (total_discoveries neo4j_stats)
                                           (quality_excellent neo4j_stats)))
       (fun e => logger DEBUG (MsgNeo4jStatsError e))).

Definition _generate_shutdown_report : M unit :=
  t <- call time_time ;;
  s <- get_self ;;
  let total_runtime := (t - start_time s)%Q in
  let p := performance_metrics s in
  logger INFO MsgShutdownReport ;;
  logger INFO (MsgReportTotals total_runtime (cycles_completed p) (sequences_processed p)
                               (valid_discoveries_found p) (sequences_per_second_avg p)
                               (use_neo4j s)) ;;
  when (use_neo4j s)
    (try_except
       (final_stats <- call_exn get_discovery_statistics ;;
        logger INFO (MsgReportNeo4jStats (total_discoveries final_stats)
                                         (unique_sequences final_stats)
                                         (duplicate_rate final_stats)))
       (fun e => logger DEBUG (MsgFinalStatsError e))).

(** [for i in range(n): batch_sequences.append(generate_realistic_sequence())] *)
Fixpoint generate_batch (n : nat) (batch_sequences : list string) : M (list string) :=
  match n with
  | O => ret batch_sequences
  | S n' =>
      sequence <- call_exn generate_realistic_sequence ;;
      generate_batch n' (batch_sequences ++ [sequence])
  end.

Definition record_cycle (processed valid : Z) (metal validation : Q)
    (p : PerformanceMetrics) : PerformanceMetrics := {|
  sequences_processed := sequences_processed p + processed;
  total_time := total_time p;
  metal_time := (metal_time p + metal)%Q;
  validation_time := (validation_time p + validation)%Q;
  storage_time := storage_time p;
  valid_discoveries_found := valid_discoveries_found p + valid;
  cycles_completed := cycles_completed p + 1;
  sequences_per_second_avg := sequences_per_second_avg p
|}.

Definition set_rate (r : Q) (p : PerformanceMetrics) : PerformanceMetrics := {|
  sequences_processed := sequences_processed p;
  total_time := total_time p;
  metal_time := metal_time p;
  validation_time := validation_time p;
  storage_time := storage_time p;
  valid_discoveries_found := valid_discoveries_found p;
  cycles_completed := cycles_completed p;
  sequences_per_second_avg := r
|}.

(** The body of the [try] of the loop of [run_continuous_discovery]:
    one cycle. *)
Definition cycle : M unit :=
  cycle_start <- call time_time ;;
  s <- get_self ;;
  print (PrStartingCycle (cycles_completed (performance_metrics s) + 1)) ;;
  print PrMonitoring ;;
  _monitor_and_adjust_resources ;;
  print PrMonitoringComplete ;;
  s <- get_self ;;
  let current_batch_size := sequences_per_cycle (config s) in
  print (PrGenerating current_batch_size) ;;
  batch_sequences <- generate_batch (Z.to_nat current_batch_size) [] ;;
  print (PrGenerated (Z.of_nat (List.length batch_sequences))) ;;
  print PrStartingMetal ;;
  metal_start <- call time_time ;;
  metal_results <- massive_batch_analysis batch_sequences ;;
  t <- call time_time ;;
  let metal_time := (t - metal_start)%Q in
  print (PrMetalComplete metal_time) ;;
  print PrStartingValidation ;;
  validation_start <- call time_time ;;
  valid_discoveries <- _ultra_fast_validate_and_store batch_sequences metal_results ;;
  t <- call time_time ;;
  let validation_time := (t - validation_start)%Q in
  print (PrValidated validation_time (Z.of_nat (List.length valid_discoveries))) ;;
  update_metrics (record_cycle (Z.of_nat (List.length batch_sequences))
                               (Z.of_nat (List.length valid_discoveries))
                               metal_time validation_time) ;;
  t <- call time_time ;;
  s <- get_self ;;
  let elapsed_time := (t - start_time s)%Q in
  rate <- float_div (inject_Z (sequences_processed (performance_metrics s))) elapsed_time ;;
  update_metrics (set_rate rate) ;;
  t <- call time_time ;;
  let cycle_time := (t - cycle_start)%Q in
  s <- get_self ;;
  print (PrCycleCompleted (cycles_completed (performance_metrics s)) cycle_time) ;;
  when (cycles_completed (performance_metrics s) mod 5 =? 0)
       (print PrGeneratingProgress ;; _log_progress_update) ;;
  print PrCleaning ;;
  emit EvGcCollect ;;
  print PrCleanupComplete ;;
  print PrNextCycle.

(** [try: <cycle> except Exception as e: print; logger.error;
    time.sleep(0.1)] *)
Definition guarded_cycle : M unit :=
  try_except cycle
    (fun e =>
       print (PrCycleError e) ;;
       logger ERROR (MsgCycleError e) ;;
       emit (EvSleep (1 # 10))).

(** The handler installed for SIGINT and SIGTERM runs once for every
    signal the operating system has delivered. *)
Fixpoint handle_signals (signums : list Z) : M unit :=
  match signums with
  | [] => ret tt
  | signum :: rest => _signal_handler signum ;; handle_signals rest
  end.

Definition deliver_signals : M unit :=
  signums <- call delivered_signals ;;
  handle_signals signums.

(** [while self.running: <guarded cycle>].  The signals that arrived
    since the last test of the flag are handled before the flag is read;
    [None] is a loop still running when the fuel is spent. *)
Fixpoint while_running (fuel : nat) (st : State) : option ((Exn + unit) * State) :=
  match fuel with
  | O => None
  | S fuel' =>
      match deliver_signals st with
      | (inl e, st1) => Some (inl e, st1)
      | (inr _, st1) =>
          if running (self st1) then
            match guarded_cycle st1 with
            | (inl e, st2) => Some (inl e, st2)
            | (inr _, st2) => while_running fuel' st2
            end
          else Some (inr tt, st1)
      end
  end.

(** The final shutdown of lines 398 to 401. *)
Definition final_shutdown : M unit :=
  _generate_shutdown_report ;;
  s <- get_self ;;
  when (use_neo4j s) (emit EvNeo4jClose ;; call_exn neo4j_close).

(** The log records at the head of [run_continuous_discovery].  Line 330
    formats the memory limit with [:.1f], which raises [TypeError] on
    [None]: the record is meant on a configuration that has a limit, as
    every configuration that [__post_init__] returns does. *)
Definition announce_start : M unit :=
  s <- get_self ;;
  logger INFO (MsgStarting (use_neo4j s) (batch_size (config s))
                           (memory_limit_gb (config s))).

Definition run_continuous_discovery (fuel : nat) (st : State)
  : option ((Exn + unit) * State) :=
  let (_, st0) := announce_start st in
  match while_running fuel st0 with
  | None => None
  | Some (inl e, st1) => Some (inl e, st1)
  | Some (inr _, st1) => Some (final_shutdown st1)
  end.

End Model.

(** ** A scripted environment

    A world whose collaborators answer from a script, to run the engine
    on concrete inputs.  The genetics context is the unit value; the
    clock advances by one second at each reading. *)

Record Script := {
  clock : Z;
  connects : bool;
  store_succeeds : bool;
  disk_writable : bool;
  memory : MemoryInfo;
  generated : option string;
  signals : list (list Z)
}.

Definition tick (w : Script) : Script := {|
  clock := clock w + 1;
  connects := connects w;
  store_succeeds := store_succeeds w;
  disk_writable := disk_writable w;
  memory := memory w;
  generated := generated w;
  signals := signals w
|}.

Definition next_signals (w : Script) : list Z * Script :=
  (hd [] (signals w),
   {| clock := clock w;
      connects := connects w;
      store_succeeds := store_succeeds w;
      disk_writable := disk_writable w;
      memory := memory w;
      generated := generated w;
      signals := tl (signals w) |}).

Definition answer {A} (ok : bool) (what : string) (a : A) (w : Script)
  : (Exn + A) * Script :=
  (if ok then inr a else inl (CollaboratorError what), w).

Definition scripted (neo4j_available : bool) : Environment (G := unit) Script := {|
  ScientificSequenceGenerator := fun w => (inr tt, w);
  DiscoveryQualityValidator := fun w => (inr tt, w);
  torch_device := fun _ w => (inr tt, w);
  GeneticsOntology := fun w => (inr tt, w);
  GeneticsSimulator := fun _ w => (inr tt, w);
  signal_signal := fun _ w => (inr tt, w);
  open := fun _ w => answer (disk_writable w) "open" tt w;
  NEO4J_AVAILABLE := neo4j_available;
  math_pi := 355 # 113;
  math_cos := fun _ => 1%Q;
  math_sin := fun _ => 0%Q;
  math_sqrt := fun x => x;
  np_log := fun _ => 0%Q;
  np_mean := fun l => (fold_right Qplus 0 l / inject_Z (Z.of_nat (List.length l)))%Q;
  random_uniform := fun lo hi w => (lo, w);
  random_random := fun w => ((1 # 2)%Q, w);
  time_time := fun w => (inject_Z (clock w), tick w);
  datetime_now_strftime := fun w => ("20240101_000000_000000"%string, tick w);
  psutil_virtual_memory := fun w => (inr (memory w), w);
  generate_realistic_sequence := fun w =>
    (match generated w with
     | Some s => inr s
     | None => inl (CollaboratorError "generate_realistic_sequence")
     end, w);
  generate_genetics_context := fun _ _ _ w => (inr tt, w);
  Neo4jDiscoveryEngine := fun _ _ _ w => answer (connects w) "Neo4jDiscoveryEngine" tt w;
  store_discovery := fun _ w => answer (store_succeeds w) "store_discovery" "4f2a9c01d7e3b8a6"%string w;
  get_discovery_statistics := fun w =>
    answer (connects w) "get_discovery_statistics"
           {| total_discoveries := 0; unique_sequences := 0; duplicate_rate := 0;
              quality_excellent := 0 |} w;
  neo4j_close := fun w => (inr tt, w);
  path_mkdir := fun _ w => answer (disk_writable w) "mkdir" tt w;
  json_dump := fun _ _ w => answer (disk_writable w) "json.dump" tt w;
  delivered_signals := next_signals
|}.

(** A host with 128 GiB of memory, of which [avail_gib] are available and
    [pct] percent are used. *)
Definition mac_pro (avail_gib : Z) (pct : Q) : MemoryInfo :=
  {| total := 128 * GiB; available := avail_gib * GiB; percent := pct |}.

(** A host with 16 GiB of memory. *)
Definition laptop (avail_gib : Z) (pct : Q) : MemoryInfo :=
  {| total := 16 * GiB; available := avail_gib * GiB; percent := pct |}.

Definition script0 : Script := {|
  clock := 0;
  connects := true;
  store_succeeds := true;
  disk_writable := true;
  memory := mac_pro 64 50;
  generated := Some "ACDEFGHIKLMNPQRSTVWY"%string;
  signals := []
|}.

(** The same world with a Neo4j engine that connects and then raises
    at every [store_discovery]. *)
Definition script_store_fails : Script := {|
  clock := 0;
  connects := true;
  store_succeeds := false;
  disk_writable := true;
  memory := mac_pro 64 50;
  generated := Some "ACDEFGHIKLMNPQRSTVWY"%string;
  signals := []
|}.


(** A scorer answer without the key ['individual_results']. *)
Definition no_results : MetalResults := {|
  individual_results := None;
  mr_batch_size := 0;
  mr_device := "mps";
  metal_optimized := true;
  vqbit_quantum_enabled := true
|}.

(** The state in which [__init__] starts on [config] in world [w]. *)
Definition fresh {G W} (config : M4Neo4jConfig) (w : W) : State (G := G) :=
  {| self := new_object config; events := []; world := w |}.

(** [M4Neo4jConfig()] on the host of the scripted world [w], where Metal
    is available: the defaults with the memory limit that
    [__post_init__] detects. *)
Definition host_config (neo4j_available : bool) (w : Script) : M4Neo4jConfig :=
  match fst (__post_init__ true neo4j_available (memory w) default_config) with
  | inr config => config
  | inl _ => default_config
  end.

(** The engine after [__init__] on that configuration in the scripted
    world [w]. *)
Definition constructed (neo4j_available : bool) (w : Script) : State :=
  snd (__init__ (env := scripted neo4j_available)
                (fresh (host_config neo4j_available w) w)).


(** ** Scripted environments with faults

    The scripted world with a genetics context builder that may raise and
    a disk on which every file can be opened and whose writes succeed or
    fail as a function of the world; the timestamp changes with the
    clock. *)
Definition scripted_with (neo4j_available genetics_ok : bool)
    (dump_ok : Script -> bool) : Environment (G := unit) Script := {|
  ScientificSequenceGenerator :=
    ScientificSequenceGenerator (Environment := scripted neo4j_available);
  DiscoveryQualityValidator :=
    DiscoveryQualityValidator (Environment := scripted neo4j_available);
  torch_device := torch_device (Environment := scripted neo4j_available);
  GeneticsOntology := GeneticsOntology (Environment := scripted neo4j_available);
  GeneticsSimulator := GeneticsSimulator (Environment := scripted neo4j_available);
  signal_signal := signal_signal (Environment := scripted neo4j_available);
  open := fun _ w => (inr tt, w);
  NEO4J_AVAILABLE := neo4j_available;
  math_pi := math_pi (Environment := scripted neo4j_available);
  math_cos := math_cos (Environment := scripted neo4j_available);
  math_sin := math_sin (Environment := scripted neo4j_available);
  math_sqrt := math_sqrt (Environment := scripted neo4j_available);
  np_log := np_log (Environment := scripted neo4j_available);
  np_mean := np_mean (Environment := scripted neo4j_available);
  random_uniform := random_uniform (Environment := scripted neo4j_available);
  random_random := random_random (Environment := scripted neo4j_available);
  time_time := time_time (Environment := scripted neo4j_available);
  datetime_now_strftime := fun w =>
    (if Z.odd (clock w) then "20240101_000000_000001"%string
     else "20240101_000000_000002"%string, tick w);
  psutil_virtual_memory := psutil_virtual_memory (Environment := scripted neo4j_available);
  generate_realistic_sequence :=
    generate_realistic_sequence (Environment := scripted neo4j_available);
  generate_genetics_context := fun _ _ _ w =>
    answer genetics_ok "_generate_genetics_context" tt w;
  Neo4jDiscoveryEngine := Neo4jDiscoveryEngine (Environment := scripted neo4j_available);
  store_discovery := store_discovery (Environment := scripted neo4j_available);
  get_discovery_statistics :=
    get_discovery_statistics (Environment := scripted neo4j_available);
  neo4j_close := neo4j_close (Environment := scripted neo4j_available);
  path_mkdir := path_mkdir (Environment := scripted neo4j_available);
  json_dump := fun _ _ w => answer (dump_ok w) "json.dump" tt w;
  delivered_signals := delivered_signals (Environment := scripted neo4j_available)
|}.

(** A disk whose writes fail while the clock shows an even second. *)
Definition flaky_disk : Environment (G := unit) Script :=
  scripted_with false true (fun w => Z.odd (clock w)).

(** A genetics context builder that raises. *)
Definition no_genetics : Environment (G := unit) Script :=
  scripted_with false false (fun w => disk_writable w).

(** A record to store, as the validation step builds it from the default
    score result. *)
Definition sample_discovery : Discovery (G := unit) := {|
  sequence := "ACDEFGHIKLMNPQRSTVWY";
  validation_score := 1;
  assessment := "VALID: Quantum-enhanced validation with genetics context";
  metal_analysis :=
    {| ma_vqbit_score := vqbit_score default_score_result;
       energy_kcal_mol := energy default_score_result;
       ma_virtue_scores := virtue_scores default_score_result |};
  genetics_context := tt;
  d_vqbit_states := [];
  d_quantum_analysis := quantum_analysis default_score_result;
  hardware_info :=
    {| processed_on := "M4_Mac_Pro_40_GPU"; metal_accelerated := true;
       unified_memory := true; hw_vqbit_quantum_enabled := true |};
  neo4j_id := None
|}.


(** ** The genetics virtue scores

    [_calculate_genetics_virtue_scores] reads its dicts with [.get] and a
    default: a key that may be missing is an [option] field.  A variant
    is read through ['type'] and, when coding, ['folding_impact']; of the
    regulatory elements only the number is read. *)
Inductive Variant :=
| CodingVariant (folding_impact : Q)
| RegulatoryVariant (expression_impact : Q).

Record ProteostasisFactors := {
  chaperones : option (list Q);
  degradation : option (list Q);
  folding_stress : option (list Q);
  capacity_utilization : option Q
}.

Record GeneticsContext := {
  genetic_variants : option (list Variant);
  regulatory_elements : option (list string);
  proteostasis_factors : option ProteostasisFactors
}.

(** The dict [virtue_scores] as the function reads it. *)
Record VirtueDict := {
  vd_justice : option Q;
  vd_temperance : option Q;
  vd_prudence : option Q;
  vd_honesty : option Q
}.

Record GeneticsVirtueScores := {
  fidelity : Q;
  robustness : Q;
  efficiency : Q;
  resilience : Q;
  parsimony : Q
}.

(** [d.get(key, default)] *)
Definition get_or {A} (default : A) (value : option A) : A :=
  match value with
  | Some v => v
  | None => default
  end.

(** Python's [min(a, b)] and [max(a, b)] on floats: the first argument
    unless the second is strictly smaller (larger). *)
Definition py_min (a b : Q) : Q := if Qltb b a then b else a.
Definition py_max (a b : Q) : Q := if Qltb a b then b else a.

(** [for variant in genetic_variants: if variant['type'] == 'coding':
    variant_impact *= (1.0 - variant['folding_impact'] * 0.2)] *)
Definition impact_step (variant_impact : Q) (variant : Variant) : Q :=
  match variant with
  | CodingVariant folding_impact => (variant_impact * (1 - folding_impact * (2 # 10)))%Q
  | RegulatoryVariant _ => variant_impact
  end.

Definition variant_impact (genetic_variants : list Variant) : Q :=
  fold_left impact_step genetic_variants 1%Q.

(** [1.0 / (1.0 + num_regulators / 5.0)] *)
Definition raw_parsimony (num_regulators : nat) : Q :=
  (1 / (1 + inject_Z (Z.of_nat num_regulators) / 5))%Q.

Section Genetics.

Context {G W : Type} {env : Environment (G := G) W}.

(** [np.mean(list(d.values())) if d else default] on [d = outer.get(key, {})] *)
Definition mean_or (default : Q) (values : option (list Q)) : Q :=
  match values with
  | Some (v :: rest) => np_mean (v :: rest)
  | _ => default
  end.

Definition _calculate_genetics_virtue_scores (sequence : string)
    (quantum_analysis : QuantumAnalysis) (virtue_scores : VirtueDict)
    (genetics_context : GeneticsContext) : GeneticsVirtueScores :=
  let justice := get_or (1 # 2)%Q (vd_justice virtue_scores) in
  let temperance := get_or (1 # 2)%Q (vd_temperance virtue_scores) in
  let prudence := get_or (1 # 2)%Q (vd_prudence virtue_scores) in
  let honesty := get_or (1 # 2)%Q (vd_honesty virtue_scores) in
  let genetic_variants := get_or [] (genetic_variants genetics_context) in
  let proteostasis_factors :=
    get_or {| chaperones := None; degradation := None; folding_stress := None;
              capacity_utilization := None |}
           (proteostasis_factors genetics_context) in
  let fidelity := (justice * variant_impact genetic_variants)%Q in
  let avg_stress := mean_or (3 # 10) (folding_stress proteostasis_factors) in
  let robustness := (temperance * (1 - avg_stress * (3 # 10)))%Q in
  let capacity_util := get_or (1 # 2)%Q (capacity_utilization proteostasis_factors) in
  let avg_chaperone := mean_or (8 # 10) (chaperones proteostasis_factors) in
  let efficiency :=
    (prudence * (2 - capacity_util) * (7 # 10) + avg_chaperone * (3 # 10))%Q in
  let efficiency := py_min efficiency 1 in
  let avg_degradation := mean_or (8 # 10) (degradation proteostasis_factors) in
  let resilience := (honesty * (6 # 10) + avg_degradation * (4 # 10))%Q in
  let num_regulators := List.length (get_or [] (regulatory_elements genetics_context)) in
  let parsimony := raw_parsimony num_regulators in
  {| fidelity := py_max 0 (py_min 1 fidelity);
     robustness := py_max 0 (py_min 1 robustness);
     efficiency := py_max 0 (py_min 1 efficiency);
     resilience := py_max 0 (py_min 1 resilience);
     parsimony := py_max 0 (py_min 1 parsimony) |}.

End Genetics.

(** Inputs of [_calculate_genetics_virtue_scores]: the virtue scores of
    the fallback result, a context with one coding and one regulatory
    variant and one transcription factor, and a context without keys. *)
Definition sample_virtues : VirtueDict := {|
  vd_justice := Some (1 # 2)%Q;
  vd_temperance := Some (1 # 2)%Q;
  vd_prudence := Some (1 # 2)%Q;
  vd_honesty := None
|}.

Definition sample_variants : list Variant :=
  [CodingVariant (1 # 2); RegulatoryVariant (3 # 2)].

Definition sample_context : GeneticsContext := {|
  genetic_variants := Some sample_variants;
  regulatory_elements := Some ["TP53"%string];
  proteostasis_factors :=
    Some {| chaperones := Some [(8 # 10)%Q; (7 # 10)%Q];
            degradation := None;
            folding_stress := Some [];
            capacity_utilization := Some (6 # 10)%Q |}
|}.

Definition empty_context : GeneticsContext := {|
  genetic_variants := None;
  regulatory_elements := None;
  proteostasis_factors := None
|}.

(** * Vocabulary of the properties *)

Unset Implicit Arguments.

Section Vocabulary.

Context {G W : Type} {env : Environment (G := G) W}.

(** A computation that never raises. *)
Definition never_raises {A} (m : M (G := G) (W := W) A) : Prop :=
  forall st, exists a, fst (m st) = inr a.

(** A computation whose only exception is [ZeroDivisionError]. *)
Definition raises_only_zero_division {A} (m : M (G := G) (W := W) A) : Prop :=
  forall st e st', m st = (inl e, st') -> e = ZeroDivisionError.

(** The header line of the final shutdown report. *)
Definition is_report (ev : Event (G := G)) : bool :=
  match ev with
  | EvLog INFO MsgShutdownReport => true
  | _ => false
  end.

Definition is_close (ev : Event (G := G)) : bool :=
  match ev with
  | EvNeo4jClose => true
  | _ => false
  end.

(** An event that is neither the report header nor the call of
    [close()]. *)
Definition quiet (ev : Event (G := G)) : Prop :=
  is_report ev = false /\ is_close ev = false.

Definition count_reports (evs : list (Event (G := G))) : nat :=
  List.length (filter is_report evs).

(** A completed write to the fallback file store. *)
Definition is_file_written (ev : Event (G := G)) : bool :=
  match ev with
  | EvFileWritten _ _ => true
  | _ => false
  end.

(** A completed primary store. *)
Definition is_neo4j_stored (ev : Event (G := G)) : bool :=
  match ev with
  | EvNeo4jStored _ _ => true
  | _ => false
  end.

(** The error record of a store that failed. *)
Definition is_failed_to_store (ev : Event (G := G)) : bool :=
  match ev with
  | EvLog ERROR (MsgFailedToStore _) => true
  | _ => false
  end.

(** The log record of the signal handler. *)
Definition received (signum : Z) : Event (G := G) :=
  EvLog INFO (MsgReceivedSignal signum).

(** A record whose sequence has 15 to 100 residues and whose validation
    score lies between 0.3 and 1.0. *)
Definition acceptable (d : Discovery (G := G)) : Prop :=
  (15 <= String.length (sequence d) <= 100)%nat /\
  (3 # 10 <= validation_score d)%Q /\ (validation_score d <= 1)%Q.

(** A step that keeps the backend choice and emits only quiet events. *)
Definition calm (st st' : State (G := G) (W := W)) : Prop :=
  use_neo4j (self st') = use_neo4j (self st) /\
  exists evs, events st' = events st ++ evs /\ Forall quiet evs.



(** The state after one round of the loop of [run_continuous_discovery]:
    pending signals handled, then one guarded cycle. *)
Definition round (st : State (G := G) (W := W)) : State :=
  snd (guarded_cycle (snd (deliver_signals st))).


End Vocabulary.

(** [l1] is [l2] with some elements removed, the remaining ones in the
    same order. *)
Inductive subseq {A} : list A -> list A -> Prop :=
| subseq_nil : subseq [] []
| subseq_skip (x : A) (l1 l2 : list A) : subseq l1 l2 -> subseq l1 (x :: l2)
| subseq_keep (x : A) (l1 l2 : list A) : subseq l1 l2 -> subseq (x :: l1) (x :: l2).


(** * Vocabulary of the further properties *)

(** [n] consecutive decisions of the autoscaler on the same snapshot. *)
Definition decide_n (memory_info : MemoryInfo) (n : nat) (cfg : M4Neo4jConfig)
  : M4Neo4jConfig :=
  Nat.iter n (fun c => fst (adjust_resources memory_info c)) cfg.

Section VocabularyExtra.

Context {G W : Type} {env : Environment (G := G) W}.

Local Open Scope Z_scope.

(** The completed primary stores and the completed file writes among
    some events. *)
Definition count_stored (evs : list (Event (G := G))) : nat :=
  List.length (filter is_neo4j_stored evs).

Definition count_written (evs : list (Event (G := G))) : nat :=
  List.length (filter is_file_written evs).

(** The record [d] carries the score result [r]. *)
Definition carries (d : Discovery (G := G)) (r : ScoreResult) : Prop :=
  metal_analysis d =
    {| ma_vqbit_score := vqbit_score r;
       energy_kcal_mol := energy r;
       ma_virtue_scores := virtue_scores r |} /\
  d_vqbit_states d = vqbit_states r /\
  d_quantum_analysis d = quantum_analysis r.

(** The record has the key ['neo4j_id']. *)
Definition has_neo4j_id (d : Discovery (G := G)) : bool :=
  match neo4j_id d with
  | Some _ => true
  | None => false
  end.

(** A computation that leaves the projection [f] of the engine as it
    was. *)
Definition keeps {T A} (f : Engine -> T) (m : M (G := G) (W := W) A) : Prop :=
  forall st, f (self (snd (m st))) = f (self st).

(** A computation that emits nothing. *)
Definition silent {A} (m : M (G := G) (W := W) A) : Prop :=
  forall st, events (snd (m st)) = events st.

(** The three counters of [performance_metrics] that the reports show:
    sequences processed, valid discoveries found, cycles completed. *)
Definition counters (e : Engine) : Z * Z * Z :=
  (sequences_processed (performance_metrics e),
   valid_discoveries_found (performance_metrics e),
   cycles_completed (performance_metrics e)).

(** The engine with its configuration masked: what
    [_monitor_and_adjust_resources] cannot change. *)
Definition but_config (e : Engine) : Engine := set_config default_config e.

(** The engine with its timers masked: what the validate-and-store step
    cannot change. *)
Definition but_timers (e : Engine)
  : M4Neo4jConfig * bool * bool * Z * Q * (Z * Z * Z) * option string :=
  (config e, use_neo4j e, running e, total_cycles e, start_time e, counters e,
   discovery_output_dir e).

(** One cycle was counted between the two engines: one more cycle, the
    batch added to the sequences processed, and at most the batch added
    to the valid discoveries. *)
Definition counted (e e' : Engine) : Prop :=
  let n := Z.max 0 (sequences_per_cycle (config e')) in
  cycles_completed (performance_metrics e')
  = cycles_completed (performance_metrics e) + 1 /\
  sequences_processed (performance_metrics e')
  = sequences_processed (performance_metrics e) + n /\
  valid_discoveries_found (performance_metrics e)
  <= valid_discoveries_found (performance_metrics e')
  <= valid_discoveries_found (performance_metrics e) + n.

(** A computation all of whose events satisfy [P]. *)
Definition emits {A} (P : Event (G := G) -> Prop) (m : M (G := G) (W := W) A) : Prop :=
  forall st, exists evs, events (snd (m st)) = events st ++ evs /\ Forall P evs.

(** The DEBUG record of an item that the validate-and-store step gave
    up. *)
Definition is_skipped (ev : Event (G := G)) : bool :=
  match ev with
  | EvLog DEBUG (MsgValidationStorageError _ _) => true
  | _ => false
  end.

Definition count_skipped (evs : list (Event (G := G))) : nat :=
  List.length (filter is_skipped evs).

(** The length filter of line 414. *)
Definition in_range (sequence : string) : bool :=
  let len := Z.of_nat (String.length sequence) in
  (15 <=? len) && (len <=? 100).

(** A log record at level INFO or DEBUG. *)
Definition routine (ev : Event (G := G)) : Prop :=
  match ev with
  | EvLog INFO _ | EvLog DEBUG _ => True
  | _ => False
  end.

(** The states are those of the residues of [sequence], in order, each
    with its own index. *)
Definition spells (states : list VQbitState) (sequence : string) : Prop :=
  map amino_acid states = list_ascii_of_string sequence /\
  map residue_index states = seq 0 (String.length sequence).

(** The result [r] is one of [sequence]: its states spell the sequence,
    which is not empty, and its superposition fidelity is a fraction. *)
Definition fits (sequence : string) (r : ScoreResult) : Prop :=
  spells (vqbit_states r) sequence /\
  sequence <> EmptyString /\
  (0 <= superposition_fidelity (quantum_analysis r))%Q /\
  (superposition_fidelity (quantum_analysis r) <= 1)%Q.

(** The fraction of the residues of [sequence] that are in [members],
    and the quality score of lines 416 to 431 as a function of the
    sequence. *)
Definition fraction_in (members sequence : string) : Q :=
  inject_Z (count_in members sequence) / inject_Z (Z.of_nat (String.length sequence)).

Definition sequence_score (sequence : string) : Q :=
  quality_score (fraction_in "ALFWMIV" sequence) (fraction_in "DEHKR" sequence)
                (fraction_in "NQSTCY" sequence).

(** The exception [e] was raised by a call of the collaborator [op]. *)
Definition raised_by {A} (op : W -> (Exn + A) * W) (e : Exn) : Prop :=
  exists w1 w2, op w1 = (inl e, w2).

(** The four components that [__init__] builds first were built, which
    took the world from [w] to [w']. *)
Definition components_built (device : string) (w w' : W) : Prop :=
  exists w1 w2 w3,
    ScientificSequenceGenerator w = (inr tt, w1) /\
    DiscoveryQualityValidator w1 = (inr tt, w2) /\
    torch_device device w2 = (inr tt, w3) /\
    GeneticsOntology w3 = (inr tt, w').

(** Successive calls of the sequence generator from the world [w]
    return the elements of the list, in order, and leave the world
    [w']. *)
Inductive draws : W -> list string -> W -> Prop :=
| draws_nil (w : W) : draws w [] w
| draws_cons (w w1 w' : W) (sequence : string) (rest : list string) :
    generate_realistic_sequence w = (inr sequence, w1) ->
    draws w1 rest w' ->
    draws w (sequence :: rest) w'.


(** The name of the fallback file for a timestamp. *)
Definition discovery_file (dir timestamp : string) : string :=
  (dir ++ "/m4_discovery_" ++ timestamp ++ ".json")%string.

End VocabularyExtra.

(** A coding variant whose impact is between 0 and 1. *)
Definition moderate (variant : Variant) : Prop :=
  match variant with
  | CodingVariant folding_impact => (0 <= folding_impact)%Q /\ (folding_impact <= 1)%Q
  | RegulatoryVariant _ => True
  end.

Definition is_coding (variant : Variant) : bool :=
  match variant with
  | CodingVariant _ => true
  | RegulatoryVariant _ => false
  end.

(** The context [genetics_context] with its variants replaced. *)
Definition with_variants (variants : option (list Variant)) (genetics_context : GeneticsContext)
  : GeneticsContext := {|
  genetic_variants := variants;
  regulatory_elements := regulatory_elements genetics_context;
  proteostasis_factors := proteostasis_factors genetics_context
|}.
(** * Properties *)


(** ** Comparisons and truncation *)

Lemma Qleb_spec (a b : Q) : reflect (a <= b)%Q (Qle_bool a b).
Proof.
  destruct (Qle_bool a b) eqn:E; constructor.
  - now apply Qle_bool_iff.
  - intro H. apply Qle_bool_iff in H. congruence.
Qed.

Lemma Qltb_spec (a b : Q) : reflect (a < b)%Q (Qltb a b).
Proof.
  unfold Qltb. destruct (Qleb_spec b a); constructor.
  - now apply Qle_not_lt.
  - now apply Qnot_le_lt.
Qed.

Lemma py_int_scaled (s n : Z) (d : positive) :
  py_int (inject_Z s * (n # d)) = Z.quot (s * n) (Z.pos d).
Proof. reflexivity. Qed.

Lemma py_int_floor (s n : Z) (d : positive) :
  0 <= s -> 0 <= n -> py_int (inject_Z s * (n # d)) = Qfloor (inject_Z s * (n # d)).
Proof.
  intros Hs Hn. unfold py_int, Qfloor. cbn [Qnum Qden Qmult inject_Z].
  apply Z.quot_div_nonneg; nia.
Qed.

(** ** The autoscaler *)

Ltac decide_thresholds :=
  repeat match goal with
  | |- context [Qle_bool ?a ?b] => destruct (Qleb_spec a b)
  | |- context [Qltb ?a ?b] => destruct (Qltb_spec a b)
  end;
  cbn [andb negb];
  try solve [exfalso; lra].

(** Above the floor of 256 a decision under pressure lowers the setting,
    and at the floor it keeps it. *)
Lemma scale_down_above_floor (memory_info : MemoryInfo) (cfg : M4Neo4jConfig) :
  (100 <= total_memory_gb memory_info)%Q ->
  (90 < percent memory_info)%Q ->
  256 <= sequences_per_cycle cfg ->
  let s' := sequences_per_cycle (fst (adjust_resources memory_info cfg)) in
  s' = Z.max 256 (Qfloor (inject_Z (sequences_per_cycle cfg) * (9 # 10))) /\
  256 <= s' <= sequences_per_cycle cfg /\
  (256 < sequences_per_cycle cfg -> s' < sequences_per_cycle cfg).
Proof.
  intros Ht Hp Hs. unfold adjust_resources. decide_thresholds.
  rewrite <- py_int_floor by lia. rewrite py_int_scaled.
  destruct (Z.eqb_spec (Z.max 256 (Z.quot (sequences_per_cycle cfg * 9) 10))
                       (sequences_per_cycle cfg)); cbn [negb fst];
    [|cbn [sequences_per_cycle set_sequences_per_cycle]];
    Z.to_euclidean_division_equations; lia.
Qed.

(** X3: Inside the band from 256 to 1024 every decision stays inside it. *)
Lemma band_preserved (memory_info : MemoryInfo) (cfg : M4Neo4jConfig) :
  256 <= sequences_per_cycle cfg <= 1024 ->
  256 <= sequences_per_cycle (fst (adjust_resources memory_info cfg)) <= 1024.
Proof.
  intros Hs. unfold adjust_resources.
  repeat match goal with
  | |- context [if ?b then _ else _] => destruct b
  end; cbn [fst sequences_per_cycle set_sequences_per_cycle set_batch_size]; try lia;
  rewrite py_int_scaled; Z.to_euclidean_division_equations; lia.
Qed.

(** C2 (the defect): the bounds invariant on [sequences_per_cycle] does
    not hold from the initial configuration.  The decision clamps the
    setting to the band from 256 to 1024, the dataclass starts it at 32
    (with [max_batch_size] 64): the setting is outside the band before
    the first decision, still outside it after a scale-up (40), and a
    decision under pressure "reduces" it from 32 to 256, above
    [max_batch_size]. *)
Theorem C2_initial_setting_outside_band :
  let before := sequences_per_cycle default_config in
  let after_scale_up :=
    sequences_per_cycle (fst (adjust_resources (mac_pro 64 50) default_config)) in
  let after_pressure :=
    sequences_per_cycle (fst (adjust_resources (mac_pro 8 95) default_config)) in
  before = 32 /\ after_scale_up = 40 /\ after_pressure = 256 /\
  ~ (256 <= before <= 1024) /\
  ~ (256 <= after_scale_up <= 1024) /\
  max_batch_size default_config < after_pressure.
Proof.
  cbv zeta.
  assert (H1 : sequences_per_cycle default_config = 32) by reflexivity.
  assert (H2 : sequences_per_cycle
                 (fst (adjust_resources (mac_pro 64 50) default_config)) = 40)
    by reflexivity.
  assert (H3 : sequences_per_cycle
                 (fst (adjust_resources (mac_pro 8 95) default_config)) = 256)
    by reflexivity.
  rewrite H1, H2, H3. cbn [max_batch_size default_config]. repeat split; lia.
Qed.

(** C3 (the defect): at 95 percent used memory, above the threshold of
    90, the decision on the default configuration computes
    max(256, floor(32 * 0.9)) = 256: the setting rises from 32 to 256
    although it was not at the floor, and the warning logged reads
    "reducing sequences: 32 -> 256". *)
Theorem C3_pressure_raises_default_setting :
  adjust_resources (mac_pro 8 95) default_config =
    (set_sequences_per_cycle 256 default_config,
     [(WARNING, MsgReducingSequences 32 256)]) /\
  Z.max 256 (Qfloor (inject_Z (sequences_per_cycle default_config) * (9 # 10))) = 256 /\
  sequences_per_cycle default_config < 256.
Proof. repeat split. Qed.

(** C4 as stated fails: from 50 the scale-up gives 62, not
    min(1024, ceil(62.5)) = 63. *)
Lemma C4_rounds_down_at_50 :
  sequences_per_cycle
    (fst (adjust_resources (mac_pro 64 50) (set_sequences_per_cycle 50 default_config)))
  <> Z.min 1024 (Qceiling (inject_Z 50 * (125 # 100))).
Proof. vm_compute. discriminate. Qed.

(** C4 (amended): on a host of at least 100 GB, below 70 percent used
    memory and with more than 40 GB available, the decision sets the
    setting to min(1024, floor(setting * 1.25)), rounding down; the
    setting strictly increases when it is at least 4 and below 1024, and
    stays at 1024 once there. *)
Theorem C4_scale_up_truncates (memory_info : MemoryInfo) (cfg : M4Neo4jConfig) :
  (100 <= total_memory_gb memory_info)%Q ->
  (percent memory_info < 70)%Q ->
  (40 < available_memory_gb memory_info)%Q ->
  0 <= sequences_per_cycle cfg ->
  let s := sequences_per_cycle cfg in
  let s' := sequences_per_cycle (fst (adjust_resources memory_info cfg)) in
  s' = Z.min 1024 (Qfloor (inject_Z s * (125 # 100))) /\
  (4 <= s < 1024 -> s < s') /\
  (s = 1024 -> s' = 1024).
Proof.
  intros Ht Hp Ha Hs. unfold adjust_resources. decide_thresholds.
  rewrite <- py_int_floor by lia. rewrite py_int_scaled.
  destruct (Z.eqb_spec (Z.min 1024 (Z.quot (sequences_per_cycle cfg * 125) 100))
                       (sequences_per_cycle cfg)); cbn [negb fst];
    [|cbn [sequences_per_cycle set_sequences_per_cycle]];
    Z.to_euclidean_division_equations; lia.
Qed.

Lemma C4_scale_up_truncates_witness :
  (100 <= total_memory_gb (mac_pro 64 50))%Q /\
  (percent (mac_pro 64 50) < 70)%Q /\
  (40 < available_memory_gb (mac_pro 64 50))%Q /\
  0 <= sequences_per_cycle (set_sequences_per_cycle 50 default_config) /\
  let s := sequences_per_cycle (set_sequences_per_cycle 50 default_config) in
  let s' := sequences_per_cycle
              (fst (adjust_resources (mac_pro 64 50)
                                     (set_sequences_per_cycle 50 default_config))) in
  s' = Z.min 1024 (Qfloor (inject_Z s * (125 # 100))) /\
  (4 <= s < 1024 -> s < s') /\
  (s = 1024 -> s' = 1024).
Proof.
  assert (H1 : (100 <= total_memory_gb (mac_pro 64 50))%Q) by (vm_compute; discriminate).
  assert (H2 : (percent (mac_pro 64 50) < 70)%Q) by reflexivity.
  assert (H3 : (40 < available_memory_gb (mac_pro 64 50))%Q) by reflexivity.
  assert (H4 : 0 <= sequences_per_cycle (set_sequences_per_cycle 50 default_config))
    by (vm_compute; discriminate).
  exact (conj H1 (conj H2 (conj H3 (conj H4
    (C4_scale_up_truncates (mac_pro 64 50) (set_sequences_per_cycle 50 default_config)
                           H1 H2 H3 H4))))).
Defined.

(** C8: a decision leaves the configuration untouched and logs nothing
    when the used percentage lies between the two thresholds of the
    branch taken (70 and 90 on a host of at least 100 GB, 60 and 85
    otherwise), and also when the value a scaling branch computes equals
    the current one. *)
Theorem C8_no_change_no_log (memory_info : MemoryInfo) (cfg : M4Neo4jConfig) :
  let s := sequences_per_cycle cfg in
  let b := batch_size cfg in
  let big := (100 <= total_memory_gb memory_info)%Q in
  let p := percent memory_info in
  (big -> (70 <= p)%Q -> (p <= 90)%Q -> adjust_resources memory_info cfg = (cfg, [])) /\
  (~ big -> (60 <= p)%Q -> (p <= 85)%Q -> adjust_resources memory_info cfg = (cfg, [])) /\
  (big -> (90 < p)%Q ->
   Z.max 256 (py_int (inject_Z s * (9 # 10))) = s ->
   adjust_resources memory_info cfg = (cfg, [])) /\
  (big -> (p < 70)%Q -> (40 < available_memory_gb memory_info)%Q ->
   Z.min 1024 (py_int (inject_Z s * (125 # 100))) = s ->
   adjust_resources memory_info cfg = (cfg, [])) /\
  (~ big -> (85 < p)%Q ->
   Z.max 8 (py_int (inject_Z b * (8 # 10))) = b ->
   adjust_resources memory_info cfg = (cfg, [])) /\
  (~ big -> (p < 60)%Q ->
   Z.min 512 (py_int (inject_Z b * (11 # 10))) = b ->
   adjust_resources memory_info cfg = (cfg, [])).
Proof.
  cbv zeta. unfold adjust_resources.
  repeat split; intros; decide_thresholds; try reflexivity;
    match goal with
    | H : ?x = ?y |- context [?x =? ?y] => rewrite H, Z.eqb_refl; reflexivity
    end.
Qed.

Lemma C8_no_change_no_log_witness :
  (100 <= total_memory_gb (mac_pro 64 80))%Q /\
  (70 <= percent (mac_pro 64 80))%Q /\
  (percent (mac_pro 64 80) <= 90)%Q /\
  adjust_resources (mac_pro 64 80) default_config = (default_config, []).
Proof.
  assert (H1 : (100 <= total_memory_gb (mac_pro 64 80))%Q) by (vm_compute; discriminate).
  assert (H2 : (70 <= percent (mac_pro 64 80))%Q) by (vm_compute; discriminate).
  assert (H3 : (percent (mac_pro 64 80) <= 90)%Q) by (vm_compute; discriminate).
  exact (conj H1 (conj H2 (conj H3
    (proj1 (C8_no_change_no_log (mac_pro 64 80) default_config) H1 H2 H3)))).
Defined.

(** ** Reasoning about the monad *)

Section Reasoning.

Context {G W : Type} {env : Environment (G := G) W}.

Local Abbreviation St := (State (G := G) (W := W)).
Local Abbreviation Mon := (M (G := G) (W := W)).

Lemma bind_inr {A B} (m : Mon A) (f : A -> Mon B) (st st' : St) (b : B) :
  bind m f st = (inr b, st') ->
  exists a st1, m st = (inr a, st1) /\ f a st1 = (inr b, st').
Proof.
  unfold bind. destruct (m st) as [[e | a] st1]; intros H.
  - discriminate.
  - now exists a, st1.
Qed.

Lemma bind_inl {A B} (m : Mon A) (f : A -> Mon B) (st st' : St) (e : Exn) :
  bind m f st = (inl e, st') ->
  m st = (inl e, st') \/
  exists a st1, m st = (inr a, st1) /\ f a st1 = (inl e, st').
Proof.
  unfold bind. destruct (m st) as [[e1 | a] st1]; intros H.
  - left. inversion H; subst. reflexivity.
  - right. now exists a, st1.
Qed.

(** *** Computations that never raise *)

Lemma never_raises_ret {A} (a : A) : never_raises (ret (G := G) (W := W) a).
Proof. intros st. now exists a. Qed.

Lemma never_raises_bind {A B} (m : Mon A) (f : A -> Mon B) :
  never_raises m -> (forall a, never_raises (f a)) -> never_raises (bind m f).
Proof.
  intros Hm Hf st. unfold bind. destruct (Hm st) as [a Ha].
  destruct (m st) as [[e | a'] st1]; cbn in Ha; [discriminate|].
  apply Hf.
Qed.

Lemma never_raises_try {A} (m : Mon A) (h : Exn -> Mon A) :
  (forall e, never_raises (h e)) -> never_raises (try_except m h).
Proof.
  intros Hh st. unfold try_except. destruct (m st) as [[e | a] st1].
  - apply Hh.
  - now exists a.
Qed.

Lemma never_raises_emit (ev : Event (G := G)) : never_raises (emit (W := W) ev).
Proof. intros st. now exists tt. Qed.

Lemma never_raises_get_self : never_raises (get_self (G := G) (W := W)).
Proof. intros st. now exists (self st). Qed.

Lemma never_raises_modify_self (f : Engine -> Engine) : never_raises (modify_self (G := G) (W := W) f).
Proof. intros st. now exists tt. Qed.

Lemma never_raises_call {A} (op : W -> A * W) : never_raises (call (G := G) op).
Proof. intros st. unfold call. destruct (op (world st)) as [a w]. now exists a. Qed.

Lemma never_raises_when (c : bool) (m : Mon unit) : never_raises m -> never_raises (when c m).
Proof. intros Hm. destruct c; [exact Hm | apply never_raises_ret]. Qed.

Lemma never_raises_run {A} (m : Mon A) (st : St) :
  never_raises m -> exists a, m st = (inr a, snd (m st)).
Proof.
  intros Hm. destruct (Hm st) as [a Ha]. exists a.
  destruct (m st) as [r st1]. cbn in *. now subst.
Qed.

(** *** Calm and steady steps *)
















End Reasoning.

Ltac never_raises_tac :=
  unfold uniform, logger, print, update_metrics;
  repeat first
    [ apply never_raises_ret
    | apply never_raises_emit
    | apply never_raises_get_self
    | apply never_raises_modify_self
    | apply never_raises_call
    | apply never_raises_when
    | apply never_raises_bind; [|intros]
    | apply never_raises_try; intros
    | match goal with
      | |- never_raises (if ?b then _ else _) => destruct b
      end ].

(** ** The scorer *)

Section Scorer.

Context {G W : Type} {env : Environment (G := G) W}.

Local Abbreviation St := (State (G := G) (W := W)).
Local Abbreviation Mon := (M (G := G) (W := W)).

Lemma never_raises_draw_projection (hi : Q) : never_raises (draw_projection hi).
Proof. unfold draw_projection. never_raises_tac. Qed.

Lemma never_raises_virtue_score (l : list Q) (offset : Q) :
  never_raises (virtue_score l offset).
Proof. unfold virtue_score. never_raises_tac. Qed.

Lemma never_raises_only_zero_division {A} (m : Mon A) :
  never_raises m -> raises_only_zero_division m.
Proof.
  intros Hm st e st' H. destruct (Hm st) as [a Ha]. rewrite H in Ha. discriminate.
Qed.

Lemma only_zero_division_bind {A B} (m : Mon A) (f : A -> Mon B) :
  raises_only_zero_division m -> (forall a, raises_only_zero_division (f a)) ->
  raises_only_zero_division (bind m f).
Proof.
  intros Hm Hf st e st' H. apply bind_inl in H as [H | [a [st1 [_ H]]]].
  - eapply Hm; eassumption.
  - eapply Hf; eassumption.
Qed.

Lemma only_zero_division_int_true_div (a b : Z) :
  raises_only_zero_division (int_true_div (G := G) (W := W) a b).
Proof.
  intros st e st'. unfold int_true_div. destruct (b =? 0); cbv [raise ret]; congruence.
Qed.

Lemma only_zero_division_float_div (a b : Q) :
  raises_only_zero_division (float_div (G := G) (W := W) a b).
Proof.
  intros st e st'. unfold float_div. destruct (Qeq_bool b 0); cbv [raise ret]; congruence.
Qed.

Lemma only_zero_division_vqbit_state_of (i : nat) (aa : ascii) :
  raises_only_zero_division (vqbit_state_of i aa).
Proof.
  unfold vqbit_state_of.
  repeat first
    [ apply only_zero_division_float_div
    | apply only_zero_division_bind; [|intros]
    | apply never_raises_only_zero_division;
      first [ apply never_raises_draw_projection | solve [never_raises_tac] ] ].
Qed.

Lemma only_zero_division_vqbit_states_loop (residues : list ascii) :
  forall i acc, raises_only_zero_division (vqbit_states_loop i residues acc).
Proof.
  induction residues as [|aa rest IH]; intros i acc; cbn [vqbit_states_loop].
  - apply never_raises_only_zero_division, never_raises_ret.
  - apply only_zero_division_bind;
      [apply only_zero_division_vqbit_state_of | intros; apply IH].
Qed.

Lemma only_zero_division_analyse (sequence : string) :
  raises_only_zero_division (analyse_sequence sequence).
Proof.
  unfold analyse_sequence, _generate_vqbit_quantum_states.
  apply only_zero_division_bind; [apply only_zero_division_vqbit_states_loop | intros].
  repeat first
    [ apply only_zero_division_int_true_div
    | apply only_zero_division_bind; [|intros]
    | apply never_raises_only_zero_division;
      first [ apply never_raises_virtue_score | solve [never_raises_tac] ] ].
Qed.

(** An empty sequence yields no state. *)
Lemma generate_states_empty (st : St) :
  _generate_vqbit_quantum_states "" st = (inr [], st).
Proof. reflexivity. Qed.

(** On the empty sequence the analysis reaches the quotient by
    [len(vqbit_states)] = 0. *)
Lemma analyse_empty_raises (st : St) :
  exists st', analyse_sequence "" st = (inl ZeroDivisionError, st').
Proof.
  destruct (analyse_sequence "" st) as [[e | r] st'] eqn:E.
  - exists st'. f_equal. f_equal. eapply only_zero_division_analyse; eassumption.
  - exfalso. unfold analyse_sequence in E.
    apply bind_inr in E as [vq [st1 [E1 E]]].
    rewrite generate_states_empty in E1. inversion E1; subst vq st1; clear E1.
    cbn [map filter List.length Z.of_nat Z.sub] in E.
    repeat (apply bind_inr in E as [? [? [? E]]]).
    match goal with
    | H : int_true_div _ _ _ = (inr _, _) |- _ => discriminate H
    end.
Qed.

Lemma analysis_loop_raises (sequences : list string) :
  In ""%string sequences ->
  forall results (st : St),
  exists st', analysis_loop sequences results st = (inl ZeroDivisionError, st').
Proof.
  induction sequences as [|s rest IH]; intros Hin results st; [contradiction|].
  cbn [analysis_loop]. unfold bind.
  destruct (analyse_sequence s st) as [[e | r] st1] eqn:E.
  - exists st1. f_equal. f_equal. eapply only_zero_division_analyse; eassumption.
  - destruct Hin as [-> | Hin].
    + destruct (analyse_empty_raises st) as [st' E']. congruence.
    + apply IH. exact Hin.
Qed.

(** C9: the scorer is not total.  An empty sequence yields zero vQbit
    states, its analysis raises [ZeroDivisionError] at the quotient
    (len - collapsed) / len, and so does [massive_batch_analysis] on every
    batch that contains an empty sequence. *)
Theorem C9_empty_sequence_raises (sequences : list string) (st : St) :
  In ""%string sequences ->
  _generate_vqbit_quantum_states "" st = (inr [], st) /\
  (exists st', analyse_sequence "" st = (inl ZeroDivisionError, st')) /\
  (exists st', massive_batch_analysis sequences st = (inl ZeroDivisionError, st')).
Proof.
  intros Hin. split; [reflexivity|]. split; [apply analyse_empty_raises|].
  unfold massive_batch_analysis, _simplified_metal_analysis, bind.
  destruct (analysis_loop_raises sequences Hin [] st) as [st' E].
  rewrite E. now exists st'.
Qed.

End Scorer.

Lemma C9_empty_sequence_raises_witness :
  let sequences := ["ACDEFGHIKLMNPQRSTVWY"; ""]%string in
  let st := constructed true script0 in
  In ""%string sequences /\
  _generate_vqbit_quantum_states (env := scripted true) "" st = (inr [], st) /\
  (exists st', analyse_sequence (env := scripted true) "" st
               = (inl ZeroDivisionError, st')) /\
  (exists st', massive_batch_analysis (env := scripted true) sequences st
               = (inl ZeroDivisionError, st')).
Proof.
  cbv zeta.
  assert (Hin : In ""%string ["ACDEFGHIKLMNPQRSTVWY"; ""]%string)
    by (right; left; reflexivity).
  exact (conj Hin (C9_empty_sequence_raises (env := scripted true) _ _ Hin)).
Defined.

(** ** The validate-and-store step *)

Section ValidateAndStore.

Context {G W : Type} {env : Environment (G := G) W}.

Local Abbreviation St := (State (G := G) (W := W)).
Local Abbreviation Mon := (M (G := G) (W := W)).

Lemma quality_score_bounds (h c p : Q) :
  (3 # 10 <= quality_score h c p)%Q /\ (quality_score h c p <= 1)%Q.
Proof.
  unfold quality_score.
  destruct (Qbetween (5 # 100) h (9 # 10)), (Qbetween (2 # 100) c (6 # 10)),
           (Qbetween (2 # 100) p (6 # 10));
    split; vm_compute; discriminate.
Qed.

Lemma ret_inr {A} (a b : A) (st st' : St) : ret a st = (inr b, st') -> b = a.
Proof. unfold ret. congruence. Qed.

(** The record that comes back from the storage block is the one that
    went in, up to the key ['neo4j_id']. *)
Lemma store_keeps (discovery d' : Discovery (G := G)) (score : Q) (st st' : St) :
  store discovery score st = (inr d', st') ->
  sequence d' = sequence discovery /\ validation_score d' = validation_score discovery.
Proof.
  unfold store, try_except.
  match goal with |- context [match ?m st with _ => _ end] =>
    destruct (m st) as [[e | d1] st1] eqn:E end.
  - intros H. repeat (apply bind_inr in H as [? [? [_ H]]]).
    apply ret_inr in H. subst d'. now split.
  - intros H. inversion H; subst d1 st1; clear H.
    apply bind_inr in E as [s [st2 [_ E]]].
    destruct (use_neo4j s).
    + repeat (apply bind_inr in E as [? [? [_ E]]]).
      apply ret_inr in E. subst d'. now split.
    + repeat (apply bind_inr in E as [? [? [_ E]]]).
      apply ret_inr in E. subst d'. now split.
Qed.

(** What one iteration can do to [valid_discoveries]: nothing, or append
    a record of the item, whose length and score are in range. *)
Lemma item_spec (i : nat) (s : string) (mr : MetalResults)
    (acc acc' : list (Discovery (G := G))) (st st' : St) :
  validate_and_store_item i s mr acc st = (inr acc', st') ->
  acc' = acc \/ exists d, acc' = acc ++ [d] /\ sequence d = s /\ acceptable d.
Proof.
  unfold validate_and_store_item.
  destruct (Z.leb_spec 15 (Z.of_nat (String.length s))) as [Hlo | Hlo];
    destruct (Z.leb_spec (Z.of_nat (String.length s)) 100) as [Hhi | Hhi]; cbn [andb];
    try (intros H; apply ret_inr in H; now left).
  intros H.
  apply bind_inr in H as [hf [? [_ H]]].
  apply bind_inr in H as [cf [? [_ H]]].
  apply bind_inr in H as [pf [? [_ H]]].
  apply bind_inr in H as [g [? [_ H]]].
  apply bind_inr in H as [d [? [Hs H]]].
  apply ret_inr in H. right. exists d. split; [exact H|].
  apply store_keeps in Hs as [Hseq Hscore]. cbn [sequence validation_score] in Hseq, Hscore.
  split; [exact Hseq|]. unfold acceptable. rewrite Hseq, Hscore.
  split; [lia | apply quality_score_bounds].
Qed.

Lemma loop_spec (sequences : list string) (mr : MetalResults) :
  forall (i : nat) (acc ds : list (Discovery (G := G))) (st st' : St),
  validate_and_store_loop i sequences mr acc st = (inr ds, st') ->
  exists new, ds = acc ++ new /\ Forall acceptable new /\
              subseq (map sequence new) sequences.
Proof.
  induction sequences as [|s rest IH]; intros i acc ds st st' H; cbn [validate_and_store_loop] in H.
  - apply ret_inr in H. subst ds. exists []. rewrite app_nil_r.
    repeat split; constructor.
  - apply bind_inr in H as [acc1 [st1 [Hitem H]]].
    apply IH in H as [new1 [-> [Hall Hsub]]].
    assert (Hacc1 : acc1 = acc \/
                    exists d, acc1 = acc ++ [d] /\ sequence d = s /\ acceptable d).
    { unfold try_except in Hitem.
      destruct (validate_and_store_item i s mr acc st) as [[e | a] st2] eqn:E.
      - apply bind_inr in Hitem as [? [? [_ Hitem]]]. apply ret_inr in Hitem. now left.
      - inversion Hitem; subst a st2. eapply item_spec; eassumption. }
    destruct Hacc1 as [-> | [d [-> [Hseq Hd]]]].
    + exists new1. repeat split; [exact Hall | now constructor].
    + exists (d :: new1). rewrite <- app_assoc. repeat split.
      * now constructor.
      * cbn [map]. rewrite Hseq. now constructor.
Qed.

Lemma never_raises_loop (sequences : list string) (mr : MetalResults) :
  forall i (acc : list (Discovery (G := G))),
  never_raises (validate_and_store_loop i sequences mr acc).
Proof.
  induction sequences as [|s rest IH]; intros i acc; cbn [validate_and_store_loop].
  - apply never_raises_ret.
  - apply never_raises_bind; [|intros; apply IH]. never_raises_tac.
Qed.

Lemma never_raises_validate_and_store (sequences : list string) (mr : MetalResults) :
  never_raises (_ultra_fast_validate_and_store sequences mr).
Proof.
  unfold _ultra_fast_validate_and_store.
  apply never_raises_bind; [never_raises_tac | intros].
  apply never_raises_bind; [apply never_raises_loop | intros].
  never_raises_tac.
Qed.

(** C10: the step returns, every record it returns has a sequence of 15
    to 100 residues and a validation score between 0.3 and 1.0, and the
    sequences of the returned records are the input batch with some
    items removed, in the same order. *)
Theorem C10_records_in_range_and_in_order
    (sequences : list string) (metal_results : MetalResults) (st : St) :
  exists ds st',
    _ultra_fast_validate_and_store sequences metal_results st = (inr ds, st') /\
    Forall (fun d => (15 <= String.length (sequence d) <= 100)%nat /\
                     (3 # 10 <= validation_score d)%Q /\
                     (validation_score d <= 1)%Q) ds /\
    subseq (map sequence ds) sequences.
Proof.
  destruct (never_raises_run (_ultra_fast_validate_and_store sequences metal_results) st
              (never_raises_validate_and_store sequences metal_results)) as [ds E].
  exists ds, (snd (_ultra_fast_validate_and_store sequences metal_results st)).
  split; [exact E|].
  unfold _ultra_fast_validate_and_store in E at 1.
  apply bind_inr in E as [t0 [st1 [_ E]]].
  apply bind_inr in E as [ds1 [st2 [Hloop E]]].
  repeat (apply bind_inr in E as [? [? [_ E]]]).
  apply ret_inr in E. subst ds1.
  apply loop_spec in Hloop as [new [-> [Hall Hsub]]].
  cbn [app]. split; assumption.
Qed.

End ValidateAndStore.

(** ** Short result lists and the persistence step *)

(** One collaborator call of [__init__], by cases on its outcome. *)
Ltac init_step :=
  match goal with
  | |- context [ScientificSequenceGenerator ?w] =>
      destruct (ScientificSequenceGenerator w) as [[? | []] ?] eqn:?
  | |- context [DiscoveryQualityValidator ?w] =>
      destruct (DiscoveryQualityValidator w) as [[? | []] ?] eqn:?
  | |- context [torch_device ?d ?w] =>
      destruct (torch_device d w) as [[? | []] ?] eqn:?
  | |- context [GeneticsOntology ?w] =>
      destruct (GeneticsOntology w) as [[? | []] ?] eqn:?
  | |- context [Neo4jDiscoveryEngine ?a ?b ?c ?w] =>
      destruct (Neo4jDiscoveryEngine a b c w) as [[? | []] ?] eqn:?
  | |- context [GeneticsSimulator ?b ?w] =>
      destruct (GeneticsSimulator b w) as [[? | []] ?] eqn:?
  | |- context [time_time ?w] =>
      destruct (time_time w) as [? ?] eqn:?
  | |- context [signal_signal ?n ?w] =>
      destruct (signal_signal n w) as [[? | []] ?] eqn:?
  | |- context [path_mkdir ?p ?w] =>
      destruct (path_mkdir p w) as [[? | []] ?] eqn:?
  end; cbn.

(** One step of the storage block, by cases on its outcome. *)
Ltac store_step :=
  match goal with
  | |- context [use_neo4j (self ?s)] => destruct (use_neo4j (self s)) eqn:?
  | |- context [discovery_output_dir (self ?s)] =>
      destruct (discovery_output_dir (self s)) as [? |] eqn:?
  | |- context [store_discovery ?d ?w] =>
      destruct (store_discovery d w) as [[? | ?] ?] eqn:?
  | |- context [datetime_now_strftime ?w] =>
      destruct (datetime_now_strftime w) as [? ?] eqn:?
  | |- context [open ?p ?w] =>
      destruct (open p w) as [[? | []] ?] eqn:?
  | |- context [json_dump ?p ?d ?w] =>
      destruct (json_dump p d w) as [[? | []] ?] eqn:?
  | |- context [Qltb ?a ?b] => destruct (Qltb a b)
  end; cbn.

Ltac run_store :=
  unfold store, _save_discovery_to_file, bind, try_except, get_self, call_exn, call,
    print, logger, emit, ret, raise, when;
  cbn; repeat store_step.

Ltac run_init :=
  unfold __init__, M4Neo4jVQbitGraph__init__, fresh, bind, try_except, get_self,
    call_exn, call, modify_self, logger, emit, ret;
  cbn; repeat init_step.

Section Persistence.

Context {G W : Type} {env : Environment (G := G) W}.

Local Abbreviation St := (State (G := G) (W := W)).
Local Abbreviation Mon := (M (G := G) (W := W)).





(** After [__init__] an engine that uses Neo4j has no
    [discovery_output_dir]. *)
Lemma init_no_fallback_dir (cfg : M4Neo4jConfig) (w : W) :
  let st := snd (__init__ (fresh cfg w)) in
  use_neo4j (self st) = true -> discovery_output_dir (self st) = None.
Proof.
  cbv zeta. run_init; try reflexivity; try discriminate;
    destruct (cfg_use_neo4j cfg && NEO4J_AVAILABLE); cbn; repeat init_step;
    try reflexivity; discriminate.
Qed.

(** On such an engine a failing primary store ends in [AttributeError]:
    the fallback write is never reached. *)
Lemma store_primary_failure (d : Discovery (G := G)) (score : Q) (st : St)
    (e : Exn) (w1 : W) :
  use_neo4j (self st) = true ->
  discovery_output_dir (self st) = None ->
  store_discovery d (world st) = (inl e, w1) ->
  exists st',
    store d score st = (inl (AttributeError "discovery_output_dir"), st') /\
    events st' = events st ++ [EvPrint (PrStorageError e); EvLog ERROR (MsgFailedToStore e)].
Proof.
  intros Hu Hd Hs.
  unfold store, _save_discovery_to_file, bind, try_except, get_self, call_exn, call,
    print, logger, emit, ret, raise.
  rewrite Hu, Hs. cbn.
  destruct (datetime_now_strftime w1) as [ts w2]. cbn. rewrite Hd.
  eexists. split; [reflexivity|]. cbn. now rewrite <- app_assoc.
Qed.

(** X9: No record leaves the storage block unnoticed: when the block returns,
    a primary store or a file write was completed; when it raises, the
    error record "Failed to store discovery" was logged. *)
Lemma store_never_silent (d : Discovery (G := G)) (score : Q) (st : St) :
  exists evs,
    events (snd (store d score st)) = events st ++ evs /\
    match fst (store d score st) with
    | inr _ => existsb is_neo4j_stored evs || existsb is_file_written evs = true
    | inl _ => existsb is_failed_to_store evs = true
    end.
Proof.
  run_store;
    eexists; (split; [repeat rewrite <- (app_assoc (events st)); reflexivity
                     | reflexivity]).
Qed.

End Persistence.

(** C1 (the defect): on an engine that [__init__] connected to Neo4j,
    a qualifying record whose primary store raises is not written to the
    fallback: the attribute [discovery_output_dir] was never assigned, the
    fallback write raises [AttributeError], and the record is dropped from
    the returned list with a DEBUG log record. *)
Theorem C1_primary_failure_loses_record :
  let st := constructed true script_store_fails in
  let r := _ultra_fast_validate_and_store (env := scripted true)
             ["ACDEFGHIKLMNPQRSTVWY"%string] no_results st in
  use_neo4j (self st) = true /\
  discovery_output_dir (self st) = None /\
  fst r = inr [] /\
  List.length (filter is_file_written (events (snd r))) = 0%nat /\
  List.length (filter is_neo4j_stored (events (snd r))) = 0%nat /\
  events (snd r) =
    events st ++
    [EvPrint (PrStorageError (CollaboratorError "store_discovery"));
     EvLog ERROR (MsgFailedToStore (CollaboratorError "store_discovery"));
     EvLog DEBUG (MsgValidationStorageError 0 (AttributeError "discovery_output_dir"))].
Proof. vm_compute. repeat split. Qed.

(** The two paths that work: an engine constructed without Neo4j writes
    the record to a file, an engine whose primary store succeeds stores it
    there and nowhere else. *)
Example fallback_only_engine_writes_file :
  let st := constructed false script0 in
  let r := _ultra_fast_validate_and_store (env := scripted false)
             ["ACDEFGHIKLMNPQRSTVWY"%string] no_results st in
  discovery_output_dir (self st) = Some "m4_continuous_discoveries"%string /\
  option_map (map sequence) (match fst r with inr ds => Some ds | inl _ => None end)
    = Some ["ACDEFGHIKLMNPQRSTVWY"%string] /\
  List.length (filter is_file_written (events (snd r))) = 1%nat /\
  List.length (filter is_neo4j_stored (events (snd r))) = 0%nat.
Proof. vm_compute. repeat split. Qed.

Example primary_success_stores_once :
  let st := constructed true script0 in
  let r := _ultra_fast_validate_and_store (env := scripted true)
             ["ACDEFGHIKLMNPQRSTVWY"%string] no_results st in
  option_map (map neo4j_id) (match fst r with inr ds => Some ds | inl _ => None end)
    = Some [Some "4f2a9c01d7e3b8a6"%string] /\
  List.length (filter is_file_written (events (snd r))) = 0%nat /\
  List.length (filter is_neo4j_stored (events (snd r))) = 1%nat.
Proof. vm_compute. repeat split. Qed.



(** ** One cycle keeps the run flag, the backend choice, and emits no
    report and no call of [close()] *)

Section CycleFrames.

Context {G W : Type} {env : Environment (G := G) W}.

Local Abbreviation St := (State (G := G) (W := W)).
Local Abbreviation Mon := (M (G := G) (W := W)).





















End CycleFrames.

(** ** The decision inside [_monitor_and_adjust_resources] *)

Section Monitor.

Context {G W : Type} {env : Environment (G := G) W}.

Local Abbreviation St := (State (G := G) (W := W)).

Lemma log_all_spec (records : list (Level * Message)) :
  forall st : St,
  log_all records st =
  (inr tt, {| self := self st;
              events := events st ++ map (fun r => EvLog (fst r) (snd r)) records;
              world := world st |}).
Proof.
  induction records as [|[l m] rest IH]; intros st; cbn [log_all map].
  - destruct st. cbn. now rewrite app_nil_r.
  - unfold bind, logger, emit. rewrite IH. cbn. now rewrite <- app_assoc.
Qed.

(** With auto-scaling switched off nothing happens. *)
Lemma monitor_off (st : St) :
  auto_scale (config (self st)) = false ->
  _monitor_and_adjust_resources st = (inr tt, st).
Proof.
  intros Ha. unfold _monitor_and_adjust_resources, bind, get_self. now rewrite Ha.
Qed.

(** Otherwise the engine applies [adjust_resources] to the snapshot that
    [psutil] returns: its records are logged and its configuration
    becomes [self.config]. *)
Lemma monitor_applies_decision (st : St) (memory_info : MemoryInfo) (w' : W) :
  auto_scale (config (self st)) = true ->
  psutil_virtual_memory (world st) = (inr memory_info, w') ->
  _monitor_and_adjust_resources st =
  (inr tt,
   {| self := set_config (fst (adjust_resources memory_info (config (self st)))) (self st);
      events := events st ++
                map (fun r => EvLog (fst r) (snd r))
                    (snd (adjust_resources memory_info (config (self st))));
      world := w' |}).
Proof.
  intros Ha Hm. unfold _monitor_and_adjust_resources, bind, get_self.
  rewrite Ha. cbn [negb]. unfold call_exn. rewrite Hm.
  destruct (adjust_resources memory_info (config (self st))) as [cfg records].
  rewrite log_all_spec. reflexivity.
Qed.

(** A decision that changes nothing leaves the engine and the log as
    they were. *)
Lemma monitor_no_change (st : St) (memory_info : MemoryInfo) (w' : W) :
  auto_scale (config (self st)) = true ->
  psutil_virtual_memory (world st) = (inr memory_info, w') ->
  adjust_resources memory_info (config (self st)) = (config (self st), []) ->
  _monitor_and_adjust_resources st =
  (inr tt, {| self := self st; events := events st; world := w' |}).
Proof.
  intros Ha Hm Hd. rewrite (monitor_applies_decision st memory_info w' Ha Hm), Hd.
  cbn [fst snd map]. rewrite app_nil_r. destruct (self st). reflexivity.
Qed.

End Monitor.

(** ** Signals, the loop and the final shutdown *)

Section Shutdown.

Context {G W : Type} {env : Environment (G := G) W}.

Local Abbreviation St := (State (G := G) (W := W)).
Local Abbreviation Mon := (M (G := G) (W := W)).

Lemma signal_handler_spec (signum : Z) (st : St) :
  _signal_handler signum st =
  (inr tt, {| self := set_running false (self st);
              events := events st ++ [received signum];
              world := world st |}).
Proof. reflexivity. Qed.

Lemma handle_signals_spec (signums : list Z) :
  forall st : St,
  handle_signals signums st =
  (inr tt, {| self := match signums with
                      | [] => self st
                      | _ :: _ => set_running false (self st)
                      end;
              events := events st ++ map received signums;
              world := world st |}).
Proof.
  induction signums as [|s rest IH]; intros st; cbn [handle_signals].
  - destruct st as [e evs w]. cbn. now rewrite app_nil_r.
  - unfold bind. rewrite signal_handler_spec, IH. cbn [self events world map].
    rewrite <- app_assoc. destruct rest; reflexivity.
Qed.

Lemma deliver_signals_spec (st : St) :
  exists signums w1,
    delivered_signals (world st) = (signums, w1) /\
    deliver_signals st =
    (inr tt, {| self := match signums with
                        | [] => self st
                        | _ :: _ => set_running false (self st)
                        end;
                events := events st ++ map received signums;
                world := w1 |}).
Proof.
  unfold deliver_signals, bind, call.
  destruct (delivered_signals (world st)) as [signums w1].
  exists signums, w1. split; [reflexivity|]. now rewrite handle_signals_spec.
Qed.

Lemma received_quiet (signums : list Z) :
  Forall quiet (map (received (G := G)) signums).
Proof. induction signums; constructor; [now split | assumption]. Qed.

Lemma deliver_signals_calm (st : St) : calm st (snd (deliver_signals st)).
Proof.
  destruct (deliver_signals_spec st) as [signums [w1 [_ E]]]. rewrite E. cbn [snd].
  split.
  - cbn. destruct signums; reflexivity.
  - exists (map received signums). split; [reflexivity | apply received_quiet].
Qed.

Lemma deliver_signals_returns (st : St) :
  deliver_signals st = (inr tt, snd (deliver_signals st)).
Proof. destruct (deliver_signals_spec st) as [signums [w1 [_ E]]]. now rewrite E. Qed.

(** A stopped engine stays as it is when further signals arrive. *)
Lemma deliver_signals_stopped (st : St) :
  running (self st) = false -> self (snd (deliver_signals st)) = self st.
Proof.
  intros Hr. destruct (deliver_signals_spec st) as [signums [w1 [_ E]]].
  rewrite E. cbn [snd self]. destruct signums; [reflexivity|].
  destruct (self st); cbn in *. now subst.
Qed.




(** The final shutdown: the report header first, the call of [close()]
    last and only on an engine that uses Neo4j. *)
Lemma final_shutdown_spec (st : St) :
  exists r st' mid,
    final_shutdown st = (r, st') /\
    self st' = self st /\
    events st' =
      events st ++ EvLog INFO MsgShutdownReport :: mid
                ++ (if use_neo4j (self st) then [EvNeo4jClose] else []) /\
    Forall quiet mid.
Proof.
  unfold final_shutdown, _generate_shutdown_report, when, bind, try_except, call, call_exn,
    get_self, logger, emit, ret. cbn.
  destruct (time_time (world st)) as [t w1]. cbn.
  destruct (use_neo4j (self st)) eqn:Hu; cbn.
  - destruct (get_discovery_statistics w1) as [[e | stats] w2]; cbn; rewrite ?Hu; cbn;
      destruct (neo4j_close w2) as [r w3]; cbn.
    + refine (ex_intro _ _ (ex_intro _ _ (ex_intro _
        [EvLog INFO (MsgReportTotals _ _ _ _ _ _); EvLog DEBUG (MsgFinalStatsError e)] _))).
      split; [reflexivity|]. split; [reflexivity|]. cbn.
      rewrite <- !app_assoc. cbn. split; [reflexivity|].
      repeat constructor.
    + refine (ex_intro _ _ (ex_intro _ _ (ex_intro _
        [EvLog INFO (MsgReportTotals _ _ _ _ _ _);
         EvLog INFO (MsgReportNeo4jStats _ _ _)] _))).
      split; [reflexivity|]. split; [reflexivity|]. cbn.
      rewrite <- !app_assoc. cbn. split; [reflexivity|].
      repeat constructor.
  - rewrite Hu. cbn.
    refine (ex_intro _ _ (ex_intro _ _ (ex_intro _
      [EvLog INFO (MsgReportTotals _ _ _ _ _ _)] _))).
    split; [reflexivity|]. split; [reflexivity|]. cbn.
    rewrite <- !app_assoc. cbn. split; [reflexivity|].
    repeat constructor.
Qed.

Lemma count_reports_app (l1 l2 : list (Event (G := G))) :
  count_reports (l1 ++ l2) = (count_reports l1 + count_reports l2)%nat.
Proof. unfold count_reports. now rewrite filter_app, length_app. Qed.

Lemma count_reports_quiet (l : list (Event (G := G))) :
  Forall quiet l -> count_reports l = 0%nat.
Proof.
  unfold count_reports. induction 1 as [|ev l [Hr _] _ IH]; [reflexivity|].
  cbn [filter]. now rewrite Hr.
Qed.

Lemma announce_start_spec (st : St) :
  announce_start st =
  (inr tt, {| self := self st;
              events := events st ++
                [EvLog INFO (MsgStarting (use_neo4j (self st))
                                         (batch_size (config (self st)))
                                         (memory_limit_gb (config (self st))))];
              world := world st |}).
Proof. reflexivity. Qed.





(** C5 (amended): the handler logs one INFO record and lowers the run
    flag, and changes nothing else.  It is idempotent on the engine: a
    second signal leaves the engine as the first one did (and logs a
    second record).  A run that starts after the two signals executes no
    cycle, ends with the engine as the first signal left it, and emits
    exactly one shutdown report. *)
Theorem C5_handler_logs_then_stops_once (st : St) (a b : Z) (n : nat) :
  let st1 := snd (_signal_handler a st) in
  let st2 := snd (_signal_handler b st1) in
  _signal_handler a st =
    (inr tt, {| self := set_running false (self st);
                events := events st ++ [EvLog INFO (MsgReceivedSignal a)];
                world := world st |}) /\
  self st2 = self st1 /\
  running (self st2) = false /\
  events st2 = events st ++ [EvLog INFO (MsgReceivedSignal a);
                             EvLog INFO (MsgReceivedSignal b)] /\
  exists r st',
    run_continuous_discovery (S n) st2 = Some (r, st') /\
    self st' = self st1 /\
    count_reports (events st') = (count_reports (events st) + 1)%nat.
Proof.
  cbv zeta. rewrite !signal_handler_spec. unfold received. cbn [snd self events world].
  split; [reflexivity|]. split; [reflexivity|]. split; [reflexivity|].
  split; [now rewrite <- app_assoc|].
  unfold run_continuous_discovery. rewrite announce_start_spec. cbn [self events world].
  set (st0 := {| self := set_running false (set_running false (self st));
                 events := _; world := world st |}).
  assert (Hdown : running (self st0) = false) by reflexivity.
  cbn [while_running]. rewrite deliver_signals_returns.
  pose proof (deliver_signals_stopped st0 Hdown) as Hself.
  pose proof (deliver_signals_calm st0) as [_ [evs [Hevs Hq]]].
  rewrite Hself, Hdown.
  destruct (final_shutdown_spec (snd (deliver_signals st0)))
    as [r [st' [mid [Ef [Hs [Hev Hmid]]]]]].
  exists r, st'. split; [now rewrite Ef|]. split; [now rewrite Hs, Hself|].
  rewrite Hev, Hevs. subst st0. cbn [events].
  rewrite !count_reports_app. rewrite (count_reports_quiet evs Hq).
  change (EvLog INFO MsgShutdownReport :: mid ++ ?l)
    with ([EvLog (G := G) INFO MsgShutdownReport] ++ mid ++ l).
  rewrite !count_reports_app. rewrite (count_reports_quiet mid Hmid).
  match goal with |- context [if ?c then _ else _] => destruct c end; cbn; lia.
Qed.

End Shutdown.

(** C5 as stated fails: the handler does more than set the flag, it
    emits a log record. *)
Lemma C5_handler_emits_a_log_record :
  let st := constructed true script0 in
  snd (_signal_handler 2 st) <>
  {| self := set_running false (self st); events := events st; world := world st |}.
Proof.
  cbv zeta. intros H.
  apply (f_equal (fun s => List.length (events s))) in H.
  vm_compute in H. discriminate.
Qed.


(** * Further properties *)

(** ** The autoscaling decision: what it touches, what it logs, where it
    settles *)

Lemma set_sequences_per_cycle_same (cfg : M4Neo4jConfig) :
  set_sequences_per_cycle (sequences_per_cycle cfg) cfg = cfg.
Proof. now destruct cfg. Qed.

Lemma set_batch_size_same (cfg : M4Neo4jConfig) :
  set_batch_size (batch_size cfg) cfg = cfg.
Proof. now destruct cfg. Qed.

Ltac split_decision :=
  unfold adjust_resources;
  repeat match goal with
  | |- context [Qle_bool ?a ?b] => destruct (Qleb_spec a b)
  | |- context [Qltb ?a ?b] => destruct (Qltb_spec a b)
  | |- context [?a =? ?b] => destruct (Z.eqb_spec a b)
  end;
  cbn [andb negb fst snd].

(** X1: On a host of at least 100 GB a decision changes no field other than
    [sequences_per_cycle]; on a smaller host it changes no field other
    than [batch_size], so the setting that sizes the batch is never
    adapted there. *)
Theorem decision_touches_one_setting (memory_info : MemoryInfo) (cfg : M4Neo4jConfig) :
  let cfg' := fst (adjust_resources memory_info cfg) in
  ((100 <= total_memory_gb memory_info)%Q ->
   cfg' = set_sequences_per_cycle (sequences_per_cycle cfg') cfg) /\
  (~ (100 <= total_memory_gb memory_info)%Q ->
   cfg' = set_batch_size (batch_size cfg') cfg /\
   sequences_per_cycle cfg' = sequences_per_cycle cfg).
Proof.
  cbv zeta. split; intros Hbig; split_decision; try contradiction;
    cbn [sequences_per_cycle batch_size set_sequences_per_cycle set_batch_size];
    rewrite ?set_sequences_per_cycle_same, ?set_batch_size_same;
    repeat split; reflexivity.
Qed.

Lemma decision_touches_one_setting_witness :
  ~ (100 <= total_memory_gb (laptop 4 90))%Q /\
  fst (adjust_resources (laptop 4 90) default_config)
  = set_batch_size (batch_size (fst (adjust_resources (laptop 4 90) default_config)))
                   default_config /\
  sequences_per_cycle (fst (adjust_resources (laptop 4 90) default_config))
  = sequences_per_cycle default_config.
Proof.
  assert (H : ~ (100 <= total_memory_gb (laptop 4 90))%Q)
    by (intros H; vm_compute in H; now apply H).
  exact (conj H (proj2 (decision_touches_one_setting (laptop 4 90) default_config) H)).
Defined.

(** X2: A decision logs exactly when it changes the configuration: either it
    leaves the configuration alone and logs nothing, or it changes one
    setting to a different value and logs one record that carries the old
    and the new value. *)
Theorem decision_logs_iff_it_changes (memory_info : MemoryInfo) (cfg : M4Neo4jConfig) :
  adjust_resources memory_info cfg = (cfg, []) \/
  exists new level,
    (new <> sequences_per_cycle cfg /\
     (adjust_resources memory_info cfg =
        (set_sequences_per_cycle new cfg,
         [(level, MsgReducingSequences (sequences_per_cycle cfg) new)]) \/
      adjust_resources memory_info cfg =
        (set_sequences_per_cycle new cfg,
         [(level, MsgScalingUp (sequences_per_cycle cfg) new)]))) \/
    (new <> batch_size cfg /\
     (adjust_resources memory_info cfg =
        (set_batch_size new cfg,
         [(level, MsgReducingBatchSize (batch_size cfg) new)]) \/
      adjust_resources memory_info cfg =
        (set_batch_size new cfg,
         [(level, MsgIncreasingBatchSize (batch_size cfg) new)]))).
Proof.
  split_decision; try (left; reflexivity); right.
  - eexists _, WARNING. left. split; [eassumption | left; reflexivity].
  - eexists _, INFO. left. split; [eassumption | right; reflexivity].
  - eexists _, WARNING. right. split; [eassumption | left; reflexivity].
  - eexists _, INFO. right. split; [eassumption | right; reflexivity].
Qed.

(** X4: Every decision keeps [batch_size] between 8 and 512 once it is
    there, on any host. *)
Theorem batch_band_preserved (memory_info : MemoryInfo) (cfg : M4Neo4jConfig) :
  8 <= batch_size cfg <= 512 ->
  8 <= batch_size (fst (adjust_resources memory_info cfg)) <= 512.
Proof.
  intros Hb. split_decision;
    cbn [batch_size set_sequences_per_cycle set_batch_size]; try lia;
    rewrite py_int_scaled; Z.to_euclidean_division_equations; lia.
Qed.

Lemma batch_band_preserved_witness :
  8 <= batch_size default_config <= 512 /\
  8 <= batch_size (fst (adjust_resources (laptop 4 90) default_config)) <= 512.
Proof.
  assert (H : 8 <= batch_size default_config <= 512) by (cbn; lia).
  exact (conj H (batch_band_preserved (laptop 4 90) default_config H)).
Defined.

Lemma band_preserved_witness :
  256 <= sequences_per_cycle (set_sequences_per_cycle 300 default_config) <= 1024 /\
  256 <= sequences_per_cycle
           (fst (adjust_resources (mac_pro 8 95)
                                  (set_sequences_per_cycle 300 default_config))) <= 1024.
Proof.
  assert (H : 256 <= sequences_per_cycle (set_sequences_per_cycle 300 default_config) <= 1024)
    by (cbn; lia).
  exact (conj H (band_preserved (mac_pro 8 95) _ H)).
Defined.

(** One scale-up step seen from the setting alone. *)
Lemma scale_up_step (memory_info : MemoryInfo) (cfg : M4Neo4jConfig) :
  (100 <= total_memory_gb memory_info)%Q ->
  (percent memory_info < 70)%Q ->
  (40 < available_memory_gb memory_info)%Q ->
  sequences_per_cycle (fst (adjust_resources memory_info cfg))
  = Z.min 1024 (Z.quot (sequences_per_cycle cfg * 125) 100).
Proof.
  intros Ht Hp Ha. split_decision; try (exfalso; lra);
    cbn [sequences_per_cycle set_sequences_per_cycle];
    rewrite ?py_int_scaled in *; congruence.
Qed.

Lemma scale_down_step (memory_info : MemoryInfo) (cfg : M4Neo4jConfig) :
  (100 <= total_memory_gb memory_info)%Q ->
  (90 < percent memory_info)%Q ->
  sequences_per_cycle (fst (adjust_resources memory_info cfg))
  = Z.max 256 (Z.quot (sequences_per_cycle cfg * 9) 10).
Proof.
  intros Ht Hp. split_decision; try (exfalso; lra);
    cbn [sequences_per_cycle set_sequences_per_cycle];
    rewrite ?py_int_scaled in *; congruence.
Qed.

Lemma decide_n_succ (memory_info : MemoryInfo) (n : nat) (cfg : M4Neo4jConfig) :
  decide_n memory_info (S n) cfg
  = fst (adjust_resources memory_info (decide_n memory_info n cfg)).
Proof. reflexivity. Qed.

(** X5: Under sustained slack the setting climbs to the cap of 1024 and
    stays there: from a setting [s] with 4 <= s <= 1024 it is 1024 after
    any number of decisions from 1024 - s on. *)
Theorem sustained_slack_reaches_cap
    (memory_info : MemoryInfo) (cfg : M4Neo4jConfig) (n : nat) :
  (100 <= total_memory_gb memory_info)%Q ->
  (percent memory_info < 70)%Q ->
  (40 < available_memory_gb memory_info)%Q ->
  4 <= sequences_per_cycle cfg <= 1024 ->
  1024 - sequences_per_cycle cfg <= Z.of_nat n ->
  sequences_per_cycle (decide_n memory_info n cfg) = 1024.
Proof.
  intros Ht Hp Ha Hs Hn.
  assert (Hinv : forall k,
            Z.min 1024 (sequences_per_cycle cfg + Z.of_nat k)
            <= sequences_per_cycle (decide_n memory_info k cfg) <= 1024).
  { induction k as [|k IH].
    - cbn. lia.
    - rewrite decide_n_succ, (scale_up_step _ _ Ht Hp Ha).
      Z.to_euclidean_division_equations. lia. }
  specialize (Hinv n). lia.
Qed.

Lemma sustained_slack_reaches_cap_witness :
  (100 <= total_memory_gb (mac_pro 64 50))%Q /\
  (percent (mac_pro 64 50) < 70)%Q /\
  (40 < available_memory_gb (mac_pro 64 50))%Q /\
  4 <= sequences_per_cycle default_config <= 1024 /\
  1024 - sequences_per_cycle default_config <= Z.of_nat 992 /\
  sequences_per_cycle (decide_n (mac_pro 64 50) 992 default_config) = 1024.
Proof.
  assert (H1 : (100 <= total_memory_gb (mac_pro 64 50))%Q) by (vm_compute; discriminate).
  assert (H2 : (percent (mac_pro 64 50) < 70)%Q) by reflexivity.
  assert (H3 : (40 < available_memory_gb (mac_pro 64 50))%Q) by reflexivity.
  assert (H4 : 4 <= sequences_per_cycle default_config <= 1024) by (cbn; lia).
  assert (H5 : 1024 - sequences_per_cycle default_config <= Z.of_nat 992) by (cbn; lia).
  exact (conj H1 (conj H2 (conj H3 (conj H4 (conj H5
    (sustained_slack_reaches_cap (mac_pro 64 50) default_config 992 H1 H2 H3 H4 H5)))))).
Defined.

(** X6: Under sustained pressure a setting of at least 256 falls to the
    floor of 256 and stays there: it is 256 after any number of decisions
    from s - 256 on. *)
Theorem sustained_pressure_reaches_floor
    (memory_info : MemoryInfo) (cfg : M4Neo4jConfig) (n : nat) :
  (100 <= total_memory_gb memory_info)%Q ->
  (90 < percent memory_info)%Q ->
  256 <= sequences_per_cycle cfg ->
  sequences_per_cycle cfg - 256 <= Z.of_nat n ->
  sequences_per_cycle (decide_n memory_info n cfg) = 256.
Proof.
  intros Ht Hp Hs Hn.
  assert (Hinv : forall k,
            256 <= sequences_per_cycle (decide_n memory_info k cfg)
                <= Z.max 256 (sequences_per_cycle cfg - Z.of_nat k)).
  { induction k as [|k IH].
    - cbn. lia.
    - rewrite decide_n_succ, (scale_down_step _ _ Ht Hp).
      Z.to_euclidean_division_equations. lia. }
  specialize (Hinv n). lia.
Qed.

Lemma sustained_pressure_reaches_floor_witness :
  (100 <= total_memory_gb (mac_pro 8 95))%Q /\
  (90 < percent (mac_pro 8 95))%Q /\
  256 <= sequences_per_cycle (set_sequences_per_cycle 300 default_config) /\
  sequences_per_cycle (set_sequences_per_cycle 300 default_config) - 256 <= Z.of_nat 44 /\
  sequences_per_cycle
    (decide_n (mac_pro 8 95) 44 (set_sequences_per_cycle 300 default_config)) = 256.
Proof.
  assert (H1 : (100 <= total_memory_gb (mac_pro 8 95))%Q) by (vm_compute; discriminate).
  assert (H2 : (90 < percent (mac_pro 8 95))%Q) by reflexivity.
  assert (H3 : 256 <= sequences_per_cycle (set_sequences_per_cycle 300 default_config))
    by (cbn; lia).
  assert (H4 : sequences_per_cycle (set_sequences_per_cycle 300 default_config) - 256
               <= Z.of_nat 44) by (cbn; lia).
  exact (conj H1 (conj H2 (conj H3 (conj H4
    (sustained_pressure_reaches_floor (mac_pro 8 95) _ 44 H1 H2 H3 H4))))).
Defined.

(** ** One cycle and the counters *)

Section KeepsRules.

Context {G W : Type} {env : Environment (G := G) W}.

Local Abbreviation St := (State (G := G) (W := W)).
Local Abbreviation Mon := (M (G := G) (W := W)).

Context {T : Type} (f : Engine -> T).

Lemma keeps_ret {A} (a : A) : keeps f (ret (G := G) (W := W) a).
Proof. intros st. reflexivity. Qed.

Lemma keeps_raise {A} (e : Exn) : keeps f (raise (G := G) (W := W) (A := A) e).
Proof. intros st. reflexivity. Qed.

Lemma keeps_bind {A B} (m : Mon A) (k : A -> Mon B) :
  keeps f m -> (forall a, keeps f (k a)) -> keeps f (bind m k).
Proof.
  intros Hm Hk st. unfold bind. specialize (Hm st).
  destruct (m st) as [[e | a] st1]; cbn in *; [exact Hm|].
  now rewrite Hk.
Qed.

Lemma keeps_try {A} (m : Mon A) (h : Exn -> Mon A) :
  keeps f m -> (forall e, keeps f (h e)) -> keeps f (try_except m h).
Proof.
  intros Hm Hh st. unfold try_except. specialize (Hm st).
  destruct (m st) as [[e | a] st1]; cbn in *; [|exact Hm].
  now rewrite Hh.
Qed.

Lemma keeps_emit (ev : Event (G := G)) : keeps f (emit (W := W) ev).
Proof. intros st. reflexivity. Qed.

Lemma keeps_get_self : keeps f (get_self (G := G) (W := W)).
Proof. intros st. reflexivity. Qed.

Lemma keeps_call {A} (op : W -> A * W) : keeps f (call (G := G) op).
Proof. intros st. unfold call. now destruct (op (world st)). Qed.

Lemma keeps_call_exn {A} (op : W -> (Exn + A) * W) : keeps f (call_exn (G := G) op).
Proof. intros st. unfold call_exn. now destruct (op (world st)). Qed.

Lemma keeps_when (c : bool) (m : Mon unit) : keeps f m -> keeps f (when c m).
Proof. intros Hm. destruct c; [exact Hm | apply keeps_ret]. Qed.

Lemma keeps_modify_self (g : Engine -> Engine) :
  (forall e, f (g e) = f e) -> keeps f (modify_self (G := G) (W := W) g).
Proof. intros Hg st. apply Hg. Qed.

End KeepsRules.

Ltac keeps_with known :=
  unfold uniform, logger, print, int_true_div, float_div;
  repeat first
    [ known
    | apply keeps_ret
    | apply keeps_raise
    | apply keeps_get_self
    | apply keeps_call
    | apply keeps_call_exn
    | apply keeps_emit
    | apply keeps_when
    | apply keeps_bind; [|intros]
    | apply keeps_try; [|intros]
    | match goal with
      | |- keeps _ (if ?b then _ else _) => destruct b
      | |- keeps _ (match ?x with _ => _ end) => destruct x
      end ].

Ltac keeps_tac := keeps_with fail.

Section CycleMore.

Context {G W : Type} {env : Environment (G := G) W}.

Local Abbreviation St := (State (G := G) (W := W)).
Local Abbreviation Mon := (M (G := G) (W := W)).

Lemma keeps_run {T A} (f : Engine -> T) (m : Mon A) (st st' : St) r :
  keeps f m -> m st = (r, st') -> f (self st') = f (self st).
Proof. intros Hk H. specialize (Hk st). now rewrite H in Hk. Qed.

Lemma keeps_generate_batch (n : nat) :
  forall acc, keeps (fun e => e) (generate_batch (G := G) (W := W) n acc).
Proof.
  induction n as [|n IH]; intros acc; cbn [generate_batch].
  - apply keeps_ret.
  - apply keeps_bind; [apply keeps_call_exn | intros; apply IH].
Qed.

Lemma keeps_vqbit_states_loop (residues : list ascii) :
  forall i acc, keeps (fun e => e) (vqbit_states_loop (G := G) (W := W) i residues acc).
Proof.
  induction residues as [|aa rest IH]; intros i acc; cbn [vqbit_states_loop].
  - apply keeps_ret.
  - apply keeps_bind; [|intros; apply IH].
    unfold vqbit_state_of, draw_projection. keeps_tac.
Qed.

Lemma keeps_analysis_loop (sequences : list string) :
  forall results, keeps (fun e => e) (analysis_loop (G := G) (W := W) sequences results).
Proof.
  induction sequences as [|s rest IH]; intros results; cbn [analysis_loop].
  - apply keeps_ret.
  - apply keeps_bind; [|intros; apply IH].
    unfold analyse_sequence, _generate_vqbit_quantum_states, virtue_score.
    keeps_with ltac:(apply keeps_vqbit_states_loop).
Qed.

Lemma keeps_massive_batch_analysis (sequences : list string) :
  keeps (fun e => e) (massive_batch_analysis (G := G) (W := W) sequences).
Proof.
  unfold massive_batch_analysis, _simplified_metal_analysis.
  keeps_with ltac:(apply keeps_analysis_loop).
Qed.

Lemma keeps_store (d : Discovery (G := G)) (score : Q) :
  keeps (fun e => e) (store (W := W) d score).
Proof. unfold store, _save_discovery_to_file. keeps_tac. Qed.

Lemma keeps_validate_loop (sequences : list string) (mr : MetalResults) :
  forall i (acc : list (Discovery (G := G))),
  keeps (fun e => e) (validate_and_store_loop (W := W) i sequences mr acc).
Proof.
  induction sequences as [|s rest IH]; intros i acc; cbn [validate_and_store_loop].
  - apply keeps_ret.
  - apply keeps_bind; [|intros; apply IH].
    unfold validate_and_store_item. keeps_with ltac:(apply keeps_store).
Qed.

Lemma keeps_validate_and_store (sequences : list string) (mr : MetalResults) :
  keeps but_timers (_ultra_fast_validate_and_store (G := G) (W := W) sequences mr).
Proof.
  unfold _ultra_fast_validate_and_store, update_metrics.
  keeps_with ltac:(first
    [ apply (keeps_modify_self but_timers); intros e; reflexivity
    | match goal with
      | |- keeps _ (validate_and_store_loop _ _ _ _) =>
          intros st; unfold but_timers, counters;
          now rewrite (keeps_validate_loop sequences mr 0 [] st)
      end ]).
Qed.

Lemma keeps_monitor :
  keeps but_config (_monitor_and_adjust_resources (G := G) (W := W)).
Proof.
  unfold _monitor_and_adjust_resources.
  apply keeps_bind; [apply keeps_get_self | intros s].
  destruct (negb _); [apply keeps_ret|].
  apply keeps_bind; [apply keeps_call_exn | intros memory_info].
  destruct (adjust_resources memory_info (config s)) as [cfg records].
  apply keeps_bind.
  - induction records as [|[l m] rest IH]; cbn [log_all]; keeps_tac. exact IH.
  - intros _. apply keeps_modify_self. intros e. reflexivity.
Qed.

Lemma keeps_log_progress_update :
  keeps (fun e => e) (_log_progress_update (G := G) (W := W)).
Proof. unfold _log_progress_update. keeps_tac. Qed.

Lemma never_raises_log_progress_update :
  never_raises (_log_progress_update (G := G) (W := W)).
Proof. unfold _log_progress_update. never_raises_tac. Qed.

Lemma generate_batch_inv (n : nat) :
  forall (acc : list string) (st : St) r st',
  generate_batch n acc st = (r, st') ->
  self st' = self st /\ events st' = events st /\
  match r with
  | inr batch => exists new, batch = acc ++ new /\ List.length new = n
  | inl e => exists k w1 w2, (k < n)%nat /\ generate_realistic_sequence w1 = (inl e, w2)
  end.
Proof.
  induction n as [|n IH]; intros acc st r st' H; cbn [generate_batch] in H.
  - inversion H; subst. repeat split. exists []. now rewrite app_nil_r.
  - unfold bind, call_exn in H.
    destruct (generate_realistic_sequence (world st)) as [[e | s] w1] eqn:Eg.
    + inversion H; subst. repeat split. exists 0%nat, (world st), w1. split; [lia | exact Eg].
    + apply IH in H as [Hs [He Hr]]. cbn [self events] in *.
      split; [exact Hs|]. split; [exact He|].
      destruct r as [e | batch].
      * destruct Hr as [k [wa [wb [Hk Hg]]]]. exists (S k), wa, wb. split; [lia | exact Hg].
      * destruct Hr as [new [-> Hlen]]. exists (s :: new).
        rewrite <- app_assoc. split; [reflexivity | cbn; lia].
Qed.

Lemma generate_batch_draws (n : nat) :
  forall (acc : list string) (st : St) r st',
  generate_batch n acc st = (r, st') ->
  match r with
  | inr batch =>
      exists new, batch = acc ++ new /\ List.length new = n /\
                  draws (world st) new (world st')
  | inl e =>
      exists pre w1, (List.length pre < n)%nat /\ draws (world st) pre w1 /\
                     generate_realistic_sequence w1 = (inl e, world st')
  end.
Proof.
  induction n as [|n IH]; intros acc st r st' H; cbn [generate_batch] in H.
  - inversion H; subst. exists []. rewrite app_nil_r. repeat split. constructor.
  - unfold bind, call_exn in H.
    destruct (generate_realistic_sequence (world st)) as [[e | s] w1] eqn:Eg.
    + inversion H; subst. cbn [world]. exists [], (world st).
      split; [cbn; lia|]. split; [constructor | exact Eg].
    + apply IH in H. cbn [world] in H. destruct r as [e | batch].
      * destruct H as [pre [w2 [Hk [Hd Hg]]]]. exists (s :: pre), w2.
        split; [cbn; lia|]. split; [econstructor; eassumption | exact Hg].
      * destruct H as [new [-> [Hlen Hd]]]. exists (s :: new).
        rewrite <- app_assoc. split; [reflexivity|].
        split; [cbn; lia | econstructor; eassumption].
Qed.

(** X15: A batch is the outputs of [n] successive calls of the sequence
    generator, appended in the order of generation; the engine and the
    log are untouched.  When a call raises, the batch is abandoned with
    that exception, after fewer than [n] sequences were drawn. *)
Theorem generate_batch_exact (n : nat) (acc : list string) (st : St) :
  let r := generate_batch n acc st in
  self (snd r) = self st /\
  events (snd r) = events st /\
  match fst r with
  | inr batch =>
      exists new, batch = acc ++ new /\ List.length new = n /\
                  draws (world st) new (world (snd r))
  | inl e =>
      exists pre w1, (List.length pre < n)%nat /\ draws (world st) pre w1 /\
                     generate_realistic_sequence w1 = (inl e, world (snd r))
  end.
Proof.
  cbv zeta. destruct (generate_batch n acc st) as [r st'] eqn:E.
  destruct (generate_batch_inv n acc st r st' E) as [Hs [He _]].
  split; [exact Hs|]. split; [exact He|].
  exact (generate_batch_draws n acc st r st' E).
Qed.

End CycleMore.

(** ** The counters of a cycle and of the loop *)

Section CycleAccounting.

Context {G W : Type} {env : Environment (G := G) W}.

Local Abbreviation St := (State (G := G) (W := W)).
Local Abbreviation Mon := (M (G := G) (W := W)).

Lemma subseq_length {A} (l1 l2 : list A) :
  subseq l1 l2 -> (List.length l1 <= List.length l2)%nat.
Proof. induction 1; cbn; lia. Qed.

Lemma validate_length (sequences : list string) (mr : MetalResults) (st st' : St) ds :
  _ultra_fast_validate_and_store sequences mr st = (inr ds, st') ->
  (List.length ds <= List.length sequences)%nat.
Proof.
  intros H. unfold _ultra_fast_validate_and_store in H.
  apply bind_inr in H as [t0 [s1 [_ H]]].
  apply bind_inr in H as [ds1 [s2 [Hloop H]]].
  repeat (apply bind_inr in H as [? [? [_ H]]]).
  apply ret_inr in H. subst ds1.
  apply loop_spec in Hloop as [new [-> [_ Hsub]]].
  apply subseq_length in Hsub. now rewrite length_map in Hsub.
Qed.

Lemma update_metrics_inv (f : PerformanceMetrics -> PerformanceMetrics) (st st' : St) r :
  update_metrics f st = (r, st') ->
  self st' = set_performance_metrics (f (performance_metrics (self st))) (self st).
Proof. unfold update_metrics, modify_self. intros H. now inversion H. Qed.

Lemma get_self_inv (st st' : St) e :
  get_self st = (inr e, st') -> e = self st /\ st' = st.
Proof. unfold get_self. intros H. now inversion H. Qed.

Lemma float_div_inl (a b : Q) (st st' : St) e :
  float_div a b st = (inl e, st') -> e = ZeroDivisionError /\ st' = st.
Proof.
  unfold float_div. destruct (Qeq_bool b 0); unfold raise, ret; intros H.
  - now inversion H.
  - discriminate.
Qed.

(** The update of lines 372 to 376 on an engine whose counters are those
    of the start of the cycle. *)
Lemma counted_of (e0 e1 e2 : Engine) (new : list string) (valid : list (Discovery (G := G)))
    (m v : Q) :
  performance_metrics e1 = performance_metrics e0 ->
  but_timers e2 = but_timers e1 ->
  List.length new = Z.to_nat (sequences_per_cycle (config e1)) ->
  (List.length valid <= List.length new)%nat ->
  counted e0 (set_performance_metrics
                (record_cycle (Z.of_nat (List.length new)) (Z.of_nat (List.length valid)) m v
                   (performance_metrics e2)) e2).
Proof.
  intros Hpm Ht Hnew Hlen.
  assert (Hcnt : counters e2 = counters e1) by exact (f_equal (fun t => snd (fst t)) Ht).
  assert (Hcfg : config e2 = config e1)
    by exact (f_equal (fun t => fst (fst (fst (fst (fst (fst t)))))) Ht).
  unfold counters in Hcnt. inversion Hcnt as [[Hp Hv Hc]].
  unfold counted.
  cbn [performance_metrics config set_performance_metrics set_rate record_cycle
       cycles_completed sequences_processed valid_discoveries_found].
  rewrite Hp, Hv, Hc, Hcfg, Hpm. lia.
Qed.

Lemma counters_eq_inv (e e' : Engine) :
  counters e' = counters e ->
  sequences_processed (performance_metrics e') = sequences_processed (performance_metrics e) /\
  valid_discoveries_found (performance_metrics e')
  = valid_discoveries_found (performance_metrics e) /\
  cycles_completed (performance_metrics e') = cycles_completed (performance_metrics e).
Proof. unfold counters. intros H. inversion H. now repeat split. Qed.

Lemma counted_rate (e0 e1 : Engine) (rate : Q) :
  counted e0 e1 ->
  counted e0 (set_performance_metrics (set_rate rate (performance_metrics e1)) e1).
Proof. intros H. exact H. Qed.

End CycleAccounting.

Ltac keeps_id :=
  solve [keeps_with ltac:(first
    [ apply keeps_generate_batch
    | apply keeps_massive_batch_analysis
    | apply keeps_log_progress_update ])].

(** Each step of a cycle that has run is replaced by what it did to the
    engine. *)
Ltac digest :=
  repeat match goal with
  | H : get_self _ = (inr _, _) |- _ => apply get_self_inv in H as [-> ->]
  | H : update_metrics _ _ = (_, _) |- _ => apply update_metrics_inv in H
  | H : _monitor_and_adjust_resources _ = (_, _) |- _ =>
      apply (keeps_run but_config _ _ _ _ keeps_monitor) in H;
      apply (f_equal performance_metrics) in H;
      change (performance_metrics (but_config ?a)) with (performance_metrics a) in H
  | H : _ultra_fast_validate_and_store ?b ?mr _ = (inr _, _) |- _ =>
      pose proof (validate_length _ _ _ _ _ H);
      apply (keeps_run but_timers _ _ _ _ (keeps_validate_and_store b mr)) in H;
      pose proof (f_equal (fun t => snd (fst t)) H : counters _ = counters _)
  | H : _ultra_fast_validate_and_store ?b ?mr ?s = (inl _, _) |- _ =>
      exfalso;
      let E := fresh "E" in
      destruct (never_raises_run (_ultra_fast_validate_and_store b mr) s
                  (never_raises_validate_and_store b mr)) as [? E];
      rewrite E in H; discriminate H
  | H : generate_batch _ [] _ = (inr _, _) |- _ =>
      let K := fresh "K" in
      pose proof (keeps_run (fun e => e) _ _ _ _ (keeps_generate_batch _ _) H) as K;
      cbv beta in K;
      apply generate_batch_inv in H as [_ [_ [? [-> ?]]]]
  | H : ?m ?s = (?r, ?s') |- _ =>
      apply (keeps_run (fun e => e) m s s' r ltac:(keeps_id)) in H
  end.

Ltac cannot_raise H :=
  exfalso;
  match type of H with
  | ?m ?s = (inl _, _) =>
      let E := fresh "E" in
      destruct (never_raises_run m s
                  ltac:(first [ apply never_raises_when; apply never_raises_bind;
                                [ never_raises_tac
                                | intros; apply never_raises_log_progress_update ]
                              | never_raises_tac ])) as [? E];
      rewrite E in H; discriminate H
  end.

Ltac chase :=
  repeat match goal with
  | H : self ?a = _ |- context [self ?a] => rewrite H
  end.

Ltac finish_counted :=
  chase;
  lazymatch goal with
  | |- counted _ (set_performance_metrics (set_rate _ _) _) => apply counted_rate
  | _ => idtac
  end;
  match goal with
  | Ht : but_timers _ = but_timers ?e1 |- counted ?e0 _ =>
      apply (counted_of e0 e1 _ _ _ _ _);
      [ congruence | exact Ht | cbn [app] in *; congruence | assumption ]
  end.

Ltac raised_before_update H :=
  apply bind_inl in H as [H | [? [? [? H]]]];
  [ digest; left; unfold counters in *; congruence | ].

Section LoopAccounting.

Context {G W : Type} {env : Environment (G := G) W}.

Local Abbreviation St := (State (G := G) (W := W)).
Local Abbreviation Mon := (M (G := G) (W := W)).

Lemma cycle_counts (st st' : St) r :
  cycle st = (r, st') ->
  match r with
  | inr _ => counted (self st) (self st')
  | inl e => counters (self st') = counters (self st) \/
             e = ZeroDivisionError /\ counted (self st) (self st')
  end.
Proof.
  intros H. unfold cycle in H. destruct r as [e | []].
  - do 20 raised_before_update H.
    do 3 (apply bind_inl in H as [H | [? [? [? H]]]]; [cannot_raise H|]).
    apply bind_inl in H as [H | [? [? [? H]]]].
    + apply float_div_inl in H as [-> ->]. right. split; [reflexivity|].
      digest. finish_counted.
    + do 7 (apply bind_inl in H as [H | [? [? [? H]]]]; [cannot_raise H|]).
      cannot_raise H.
  - repeat (apply bind_inr in H as [? [? [? H]]]). digest. finish_counted.
Qed.

Lemma guarded_cycle_counts (st : St) :
  counters (self (snd (guarded_cycle st))) = counters (self st) \/
  counted (self st) (self (snd (guarded_cycle st))).
Proof.
  unfold guarded_cycle, try_except.
  destruct (cycle st) as [[e | []] st1] eqn:E; apply cycle_counts in E.
  - unfold bind, print, logger, emit. cbn [fst snd self].
    destruct E as [E | [_ E]]; [now left | now right].
  - now right.
Qed.

Lemma deliver_signals_counters (st : St) :
  counters (self (snd (deliver_signals st))) = counters (self st) /\
  config (self (snd (deliver_signals st))) = config (self st).
Proof.
  destruct (deliver_signals_spec st) as [signums [w1 [_ E]]]. rewrite E.
  cbn [snd self]. destruct signums; now split.
Qed.

Lemma round_counts (st : St) :
  counters (self (round st)) = counters (self st) \/
  counted (self st) (self (round st)).
Proof.
  unfold round.
  destruct (deliver_signals_counters st) as [Hc _].
  destruct (guarded_cycle_counts (snd (deliver_signals st))) as [H | H].
  - left. congruence.
  - right. apply counters_eq_inv in Hc as [Hp [Hv Hcy]].
    unfold counted in *. cbv zeta in *. lia.
Qed.

(** X16: One cycle and the counters.  A cycle that completes is counted: one
    more cycle, the whole batch added to the sequences processed, at most
    the batch added to the valid discoveries.  A cycle that raises
    leaves the three counters as they were, with one exception: when the
    division by the elapsed time raises [ZeroDivisionError] the cycle
    has already been counted. *)
Theorem cycle_accounting (st : St) :
  match fst (cycle st) with
  | inr _ => counted (self st) (self (snd (cycle st)))
  | inl e =>
      counters (self (snd (cycle st))) = counters (self st) \/
      e = ZeroDivisionError /\ counted (self st) (self (snd (cycle st)))
  end.
Proof.
  destruct (cycle st) as [r st'] eqn:E. exact (cycle_counts st st' r E).
Qed.

(** X17: The counters over the loop: after any number of rounds no counter
    has decreased, at most one cycle per round was counted, and the valid
    discoveries have grown by no more than the sequences processed. *)
Theorem counters_never_decrease (k : nat) (st : St) :
  let p := performance_metrics (self st) in
  let p' := performance_metrics (self (Nat.iter k round st)) in
  cycles_completed p <= cycles_completed p' <= cycles_completed p + Z.of_nat k /\
  sequences_processed p <= sequences_processed p' /\
  valid_discoveries_found p <= valid_discoveries_found p' /\
  valid_discoveries_found p' - valid_discoveries_found p
  <= sequences_processed p' - sequences_processed p.
Proof.
  cbv zeta. induction k as [|k IH].
  - cbn. lia.
  - rewrite Nat.iter_succ.
    destruct (round_counts (Nat.iter k round st)) as [H | H].
    + apply counters_eq_inv in H as [Hp [Hv Hc]]. lia.
    + unfold counted in H. cbv zeta in H. lia.
Qed.

End LoopAccounting.

(** ** Construction of the engine *)

Section ConstructionMore.

Context {G W : Type} {env : Environment (G := G) W}.

Local Abbreviation St := (State (G := G) (W := W)).

Lemma raised_by_intro {A} (op : W -> (Exn + A) * W) (e : Exn) (w1 w2 : W) :
  op w1 = (inl e, w2) -> raised_by op e.
Proof. intros H. now exists w1, w2. Qed.

(** X7: [__init__] on a configuration that is passed (lines 254 to 317).
    The engine uses Neo4j only if it is enabled, the driver is available,
    the connection was made and the genetics simulator was built on it.
    A connection or a simulator that raises there is caught: the warning
    is logged and the engine falls back to file storage.  On return the
    run flag is up, the counters are zero and the fallback directory is
    assigned exactly in file mode.  An exception that leaves [__init__]
    comes from one of the four components built first, from the genetics
    simulator built on [None], from the installation of a signal handler
    or, in file mode, from the creation of the fallback directory. *)
Theorem init_outcome (cfg : M4Neo4jConfig) (w : W) :
  let r := __init__ (fresh cfg w) in
  let st := snd r in
  let connect := Neo4jDiscoveryEngine (neo4j_uri cfg) (neo4j_user cfg) (neo4j_password cfg) in
  config (self st) = cfg /\
  (use_neo4j (self st) = true ->
   cfg_use_neo4j cfg = true /\ NEO4J_AVAILABLE = true /\
   exists w0 w1 w2,
     components_built (device cfg) w w0 /\
     connect w0 = (inr tt, w1) /\ GeneticsSimulator true w1 = (inr tt, w2)) /\
  (cfg_use_neo4j cfg && NEO4J_AVAILABLE = false -> use_neo4j (self st) = false) /\
  (forall w0 e w1,
     cfg_use_neo4j cfg && NEO4J_AVAILABLE = true ->
     components_built (device cfg) w w0 ->
     connect w0 = (inl e, w1) ->
     use_neo4j (self st) = false /\
     In (EvLog WARNING (MsgNeo4jNotAvailable e)) (events st)) /\
  (forall e,
     In (EvLog WARNING (MsgNeo4jNotAvailable e)) (events st) ->
     use_neo4j (self st) = false /\
     (raised_by connect e \/ raised_by (GeneticsSimulator true) e)) /\
  (fst r = inr tt ->
   running (self st) = true /\
   total_cycles (self st) = 0 /\
   performance_metrics (self st) = zero_metrics /\
   discovery_output_dir (self st)
   = if use_neo4j (self st) then None else Some "m4_continuous_discoveries"%string) /\
  (forall e, fst r = inl e ->
   raised_by ScientificSequenceGenerator e \/
   raised_by DiscoveryQualityValidator e \/
   raised_by (torch_device (device cfg)) e \/
   raised_by GeneticsOntology e \/
   raised_by (GeneticsSimulator false) e \/
   raised_by (signal_signal SIGINT) e \/
   raised_by (signal_signal SIGTERM) e \/
   (use_neo4j (self st) = false /\
    raised_by (path_mkdir "m4_continuous_discoveries") e)).
Proof.
  cbv zeta. unfold components_built.
  destruct (cfg_use_neo4j cfg) eqn:Hc; destruct NEO4J_AVAILABLE eqn:Hn;
    run_init; rewrite ?Hc, ?Hn; cbn; repeat init_step.
  all: repeat match goal with |- _ /\ _ => split end.
  all: try reflexivity; try discriminate.
  all: intros.
  all: repeat match goal with
       | H : exists _, _ |- _ => destruct H
       | H : _ /\ _ |- _ => destruct H
       end.
  all: try discriminate; try congruence.
  all: repeat match goal with
       | H : (_, _) = (_, _) |- _ => inversion H; subst; clear H
       | H1 : ?t = _, H2 : ?t = _ |- _ => rewrite H1 in H2
       end.
  all: repeat match goal with
       | H : In _ _ |- _ => cbn in H
       | H : _ \/ _ |- _ => destruct H
       | H : False |- _ => contradiction
       end.
  all: try discriminate; try congruence.
  all: repeat match goal with
       | H : inl _ = inl _ |- _ => inversion H; subst; clear H
       | H : EvLog _ _ = EvLog _ _ |- _ => inversion H; subst; clear H
       end.
  all: repeat match goal with |- _ /\ _ => split end.
  all: try reflexivity; try discriminate; try congruence.
  all: try solve [cbn; eauto 12 using raised_by_intro].
  all: try solve [repeat first [ reflexivity | eexists | split; [eassumption|] | eassumption ]].
Qed.

End ConstructionMore.

Lemma init_outcome_witness :
  let cfg := host_config true script0 in
  let r := __init__ (env := scripted true) (fresh cfg script0) in
  let connect :=
    Neo4jDiscoveryEngine (Environment := scripted true)
      (neo4j_uri cfg) (neo4j_user cfg) (neo4j_password cfg) in
  use_neo4j (self (snd r)) = true /\
  cfg_use_neo4j cfg = true /\
  NEO4J_AVAILABLE (Environment := scripted true) = true /\
  exists w0 w1 w2,
    components_built (env := scripted true) (device cfg) script0 w0 /\
    connect w0 = (inr tt, w1) /\
    GeneticsSimulator (Environment := scripted true) true w1 = (inr tt, w2).
Proof.
  cbv zeta.
  assert (H : use_neo4j (self (snd (__init__ (env := scripted true)
                                      (fresh (host_config true script0) script0)))) = true)
    by reflexivity.
  exact (conj H
    (proj1 (proj2 (init_outcome (env := scripted true) (host_config true script0) script0))
       H)).
Defined.

(** ** The storage block and the records of a batch *)

Section PersistenceMore.

Context {G W : Type} {env : Environment (G := G) W}.

Local Abbreviation St := (State (G := G) (W := W)).

Ltac after_events :=
  eexists; split; [repeat rewrite <- (app_assoc (events _)); reflexivity|].

(** The outcomes of the storage block, by what was completed. *)
Lemma store_cases (d : Discovery (G := G)) (score : Q) (st : St) :
  exists evs,
    events (snd (store d score st)) = events st ++ evs /\
    self (snd (store d score st)) = self st /\
    match fst (store d score st) with
    | inr d' =>
        (count_stored evs = 1 /\ count_written evs = 0 /\
         exists id, d' = set_neo4j_id id d)%nat \/
        (count_stored evs = 0 /\ count_written evs = 1 /\ d' = d)%nat
    | inl _ => (count_stored evs = 0 /\ count_written evs = 0)%nat
    end.
Proof.
  run_store; after_events; (split; [reflexivity|]);
    first
      [ now split
      | solve [left; split; [reflexivity | split; [reflexivity | eexists; reflexivity]]]
      | solve [right; split; [reflexivity | split; reflexivity]] ].
Qed.

(** X8: A record that comes back from the storage block was completed in
    exactly one backend: in Neo4j, and then it carries the id under
    ['neo4j_id'], or in one file, and then it is unchanged.  A storage
    block that raises has completed nothing. *)
Theorem store_exactly_one_backend (d : Discovery (G := G)) (score : Q) (st : St) :
  exists evs,
    events (snd (store d score st)) = events st ++ evs /\
    match fst (store d score st) with
    | inr d' =>
        (count_stored evs = 1 /\ count_written evs = 0 /\
         exists id, d' = set_neo4j_id id d)%nat \/
        (count_stored evs = 0 /\ count_written evs = 1 /\ d' = d)%nat
    | inl _ => (count_stored evs + count_written evs = 0)%nat
    end.
Proof.
  destruct (store_cases d score st) as [evs [Hev [_ H]]].
  exists evs. split; [exact Hev|].
  destruct (fst (store d score st)) as [e | d']; [|exact H].
  destruct H as [-> ->]. reflexivity.
Qed.

(** X10: In file mode a write that fails after its file was opened is
    tried a second time, under a new timestamp.  If the second write
    succeeds the record is kept, the first failure stays in the log as an
    error and the file of the first attempt stays on disk, opened but
    never written.  If the second write fails too, its exception leaves
    the storage block: both files were opened (created or truncated) and
    neither was written. *)
Theorem file_write_retried_once
    (d : Discovery (G := G)) (score : Q) (st : St) (dir ts1 ts2 : string)
    (e : Exn) (w1 w2 w3 w4 w5 : W) :
  use_neo4j (self st) = false ->
  discovery_output_dir (self st) = Some dir ->
  datetime_now_strftime (world st) = (ts1, w1) ->
  open (discovery_file dir ts1) w1 = (inr tt, w2) ->
  json_dump (discovery_file dir ts1) d w2 = (inl e, w3) ->
  datetime_now_strftime w3 = (ts2, w4) ->
  open (discovery_file dir ts2) w4 = (inr tt, w5) ->
  let attempts :=
    [EvFileOpened (discovery_file dir ts1);
     EvPrint (PrStorageError e); EvLog ERROR (MsgFailedToStore e);
     EvFileOpened (discovery_file dir ts2)] in
  match json_dump (discovery_file dir ts2) d w5 with
  | (inr _, w6) =>
      store d score st =
      (inr d, {| self := self st;
                 events := events st ++ attempts
                           ++ [EvFileWritten (discovery_file dir ts2) d];
                 world := w6 |})
  | (inl e2, w6) =>
      store d score st =
      (inl e2, {| self := self st; events := events st ++ attempts; world := w6 |}) /\
      count_written (attempts : list (Event (G := G))) = 0%nat
  end.
Proof.
  intros Hu Hd Ht1 Ho1 Hj1 Ht2 Ho2. cbv zeta. unfold discovery_file in *.
  unfold store, _save_discovery_to_file, bind, try_except, get_self, call_exn, call,
    print, logger, emit, ret, raise.
  cbn [fst snd self events world]. rewrite Hu.
  cbn [fst snd self events world]. rewrite Ht1.
  cbn [fst snd self events world]. rewrite Hd.
  cbn [fst snd self events world]. rewrite Ho1.
  cbn [fst snd self events world]. rewrite Hj1.
  cbn [fst snd self events world]. rewrite Ht2.
  cbn [fst snd self events world]. rewrite Hd.
  cbn [fst snd self events world]. rewrite Ho2.
  cbn [fst snd self events world].
  destruct (json_dump _ d w5) as [[e2 | []] w6]; cbn [fst snd self events world];
    repeat rewrite <- (app_assoc (events st)); [split|]; reflexivity.
Qed.

Lemma count_stored_app (l1 l2 : list (Event (G := G))) :
  count_stored (l1 ++ l2) = (count_stored l1 + count_stored l2)%nat.
Proof. unfold count_stored. now rewrite filter_app, length_app. Qed.

Lemma count_written_app (l1 l2 : list (Event (G := G))) :
  count_written (l1 ++ l2) = (count_written l1 + count_written l2)%nat.
Proof. unfold count_written. now rewrite filter_app, length_app. Qed.

Lemma int_true_div_pure (a b : Z) (st : St) :
  snd (int_true_div a b st) = st.
Proof. unfold int_true_div. now destruct (b =? 0). Qed.

(** What one iteration of the loop does, with the completed stores. *)
Lemma item_cases (i : nat) (s : string) (mr : MetalResults)
    (acc : list (Discovery (G := G))) (st : St) r st' :
  validate_and_store_item i s mr acc st = (r, st') ->
  exists evs,
    events st' = events st ++ evs /\
    self st' = self st /\
    match r with
    | inr acc' =>
        (acc' = acc /\ count_stored evs = 0 /\ count_written evs = 0)%nat \/
        (exists d,
           acc' = acc ++ [d] /\ sequence d = s /\ carries d (result_for mr i) /\
           ((count_stored evs = 1 /\ count_written evs = 0 /\ neo4j_id d <> None) \/
            (count_stored evs = 0 /\ count_written evs = 1 /\ neo4j_id d = None)))%nat
    | inl _ => (count_stored evs = 0 /\ count_written evs = 0)%nat
    end.
Proof.
  assert (Hnone : forall (r0 : Exn + list (Discovery (G := G))),
            match r0 with
            | inr acc' => acc' = acc
            | inl _ => True
            end ->
            exists evs : list (Event (G := G)),
              events st = events st ++ evs /\ self st = self st /\
              match r0 with
              | inr acc' =>
                  (acc' = acc /\ count_stored evs = 0 /\ count_written evs = 0)%nat \/
                  (exists d,
                     acc' = acc ++ [d] /\ sequence d = s /\ carries d (result_for mr i) /\
                     ((count_stored evs = 1 /\ count_written evs = 0 /\ neo4j_id d <> None) \/
                      (count_stored evs = 0 /\ count_written evs = 1 /\
                       neo4j_id d = None)))%nat
              | inl _ => (count_stored evs = 0 /\ count_written evs = 0)%nat
              end).
  { intros r0 Hr0. exists []. rewrite app_nil_r. split; [reflexivity|].
    split; [reflexivity|]. destruct r0; [now split | left; now repeat split]. }
  unfold validate_and_store_item.
  destruct ((15 <=? _) && (_ <=? 100)).
  2: { intros H. inversion H; subst. exact (Hnone (inr _) eq_refl). }
  intros H. unfold bind in H at 1.
  pose proof (int_true_div_pure (count_in "ALFWMIV" s) (Z.of_nat (String.length s)) st) as P.
  destruct (int_true_div _ _ st) as [[e | hf] st1]; cbn in P; subst st1.
  { inversion H; subst. exact (Hnone (inl e) I). }
  unfold bind in H at 1.
  pose proof (int_true_div_pure (count_in "DEHKR" s) (Z.of_nat (String.length s)) st) as P.
  destruct (int_true_div _ _ st) as [[e | cf] st1]; cbn in P; subst st1.
  { inversion H; subst. exact (Hnone (inl e) I). }
  unfold bind in H at 1.
  pose proof (int_true_div_pure (count_in "NQSTCY" s) (Z.of_nat (String.length s)) st) as P.
  destruct (int_true_div _ _ st) as [[e | pf] st1]; cbn in P; subst st1.
  { inversion H; subst. exact (Hnone (inl e) I). }
  unfold bind in H at 1. unfold call_exn in H at 1.
  destruct (generate_genetics_context _ _ _ (world st)) as [[e | g] w1].
  { inversion H; subst. exists []. cbn. rewrite app_nil_r. now repeat split. }
  unfold bind in H.
  match type of H with context [store ?d ?sc ?s0] =>
    destruct (store_cases d sc s0) as [evs [Hev [Hself Hc]]];
    destruct (store d sc s0) as [[e | d'] st2]
  end; cbn [fst snd] in *; cbn [events self] in Hev, Hself.
  - inversion H; subst. exists evs. now repeat split.
  - unfold ret in H. inversion H; subst. exists evs.
    split; [exact Hev|]. split; [exact Hself|].
    right. exists d'. split; [reflexivity|].
    destruct Hc as [(Hs & Hw & id & ->) | (Hs & Hw & ->)]; cbn;
      (split; [reflexivity|]); (split; [now repeat split|]);
      [left | right]; repeat split; auto; discriminate.
Qed.

Lemma loop_cases (sequences : list string) (mr : MetalResults) :
  forall (i : nat) (acc : list (Discovery (G := G))) (st : St),
  exists ds new evs st',
    validate_and_store_loop i sequences mr acc st = (inr ds, st') /\
    ds = acc ++ new /\
    events st' = events st ++ evs /\
    self st' = self st /\
    (count_stored evs + count_written evs = List.length new)%nat /\
    count_stored evs = List.length (filter has_neo4j_id new) /\
    Forall (fun d => exists j, nth_error sequences j = Some (sequence d) /\
                               carries d (result_for mr (i + j))) new.
Proof.
  induction sequences as [|s rest IH]; intros i acc st; cbn [validate_and_store_loop].
  - exists acc, [], [], st. cbn. rewrite !app_nil_r. repeat split. constructor.
  - unfold bind at 1. unfold try_except at 1.
    destruct (validate_and_store_item i s mr acc st) as [[e | acc1] st1] eqn:Eitem;
      apply item_cases in Eitem as [evs1 [Hev1 [Hself1 Hc1]]].
    + unfold bind, logger, emit, ret. cbn [fst snd self events world].
      match goal with |- context [validate_and_store_loop _ rest mr acc ?s0] =>
        destruct (IH (S i) acc s0)
          as [ds [new [evs [st' [E [-> [Hev [Hself [Hn [Hs Hall]]]]]]]]]]
      end.
      rewrite E. cbn [snd fst events self] in *.
      exists (acc ++ new), new,
             (evs1 ++ [EvLog DEBUG (MsgValidationStorageError i e)] ++ evs), st'.
      split; [reflexivity|]. split; [reflexivity|].
      split; [rewrite Hev, Hev1; now rewrite <- !app_assoc|].
      split; [congruence|].
      destruct Hc1 as [Hs1 Hw1].
      rewrite !count_stored_app, !count_written_app, Hs1, Hw1. cbn.
      split; [exact Hn|]. split; [exact Hs|].
      eapply Forall_impl; [|exact Hall]. cbn. intros d [j [Hj Hcar]].
      exists (S j). split; [exact Hj|]. now rewrite Nat.add_succ_r.
    + destruct (IH (S i) acc1 st1)
        as [ds [new [evs [st' [E [-> [Hev [Hself [Hn [Hs Hall]]]]]]]]]].
      rewrite E.
      assert (Hshift : Forall (fun d => exists j, nth_error (s :: rest) j = Some (sequence d) /\
                                 carries d (result_for mr (i + j))) new).
      { eapply Forall_impl; [|exact Hall]. cbn. intros d [j [Hj Hcar]].
        exists (S j). split; [exact Hj|]. now rewrite Nat.add_succ_r. }
      destruct Hc1 as [(-> & Hs1 & Hw1) | (d & -> & Hseq & Hcar & Hb)].
      * exists (acc ++ new), new, (evs1 ++ evs), st'.
        split; [reflexivity|]. split; [reflexivity|].
        split; [rewrite Hev, Hev1; now rewrite <- !app_assoc|].
        split; [congruence|].
        rewrite !count_stored_app, !count_written_app, Hs1, Hw1. cbn.
        repeat split; assumption.
      * exists ((acc ++ [d]) ++ new), (d :: new), (evs1 ++ evs), st'.
        split; [reflexivity|]. split; [now rewrite <- app_assoc|].
        split; [rewrite Hev, Hev1; now rewrite <- !app_assoc|].
        split; [congruence|].
        rewrite !count_stored_app, !count_written_app. cbn [filter List.length].
        split; [|split].
        -- destruct Hb as [(Hs1 & Hw1 & _) | (Hs1 & Hw1 & _)]; rewrite Hs1, Hw1; lia.
        -- destruct Hb as [(Hs1 & Hw1 & Hid) | (Hs1 & Hw1 & Hid)]; rewrite Hs1.
           ++ unfold has_neo4j_id at 1.
              destruct (neo4j_id d); [cbn; now rewrite Hs | contradiction].
           ++ unfold has_neo4j_id at 1. rewrite Hid. exact Hs.
        -- constructor; [|exact Hshift].
           exists 0%nat. cbn. rewrite Hseq, Nat.add_0_r. now split.
Qed.

(** X11: Every record a batch returns was completed in exactly one backend,
    and nothing else was: the completed primary stores and file writes of
    the step add up to the number of returned records, and the records
    stored in Neo4j are those that carry ['neo4j_id']. *)
Theorem batch_records_match_completed_stores
    (sequences : list string) (metal_results : MetalResults) (st : St) :
  exists ds st' evs,
    _ultra_fast_validate_and_store sequences metal_results st = (inr ds, st') /\
    events st' = events st ++ evs /\
    (count_stored evs + count_written evs = List.length ds)%nat /\
    count_stored evs
    = List.length (filter has_neo4j_id ds).
Proof.
  unfold _ultra_fast_validate_and_store, bind, call, update_metrics, modify_self, ret.
  destruct (time_time (world st)) as [t0 w0]. cbn.
  match goal with |- context [validate_and_store_loop 0 sequences metal_results [] ?s0] =>
    destruct (loop_cases sequences metal_results 0 [] s0)
      as [ds [new [evs [st1 [E [-> [Hev [_ [Hn [Hs _]]]]]]]]]]
  end.
  rewrite E. cbn [snd fst events self world] in *.
  destruct (time_time _) as [t1 w1]. cbn.
  do 2 eexists. exists evs. split; [reflexivity|]. cbn. repeat split; assumption.
Qed.

(** X12: Each returned record carries the score result found at the index of
    its own item (the default past the end of the result list), also
    when earlier items of the batch were dropped. *)
Theorem records_carry_result_of_their_index
    (sequences : list string) (metal_results : MetalResults) (st : St) :
  exists ds st',
    _ultra_fast_validate_and_store sequences metal_results st = (inr ds, st') /\
    Forall (fun d => exists j, nth_error sequences j = Some (sequence d) /\
                               carries d (result_for metal_results j)) ds.
Proof.
  unfold _ultra_fast_validate_and_store, bind, call, update_metrics, modify_self, ret.
  destruct (time_time (world st)) as [t0 w0]. cbn.
  match goal with |- context [validate_and_store_loop 0 sequences metal_results [] ?s0] =>
    destruct (loop_cases sequences metal_results 0 [] s0)
      as [ds [new [evs [st1 [E [-> [_ [_ [_ [_ Hall]]]]]]]]]]
  end.
  rewrite E. cbn [snd fst events self world] in *.
  destruct (time_time _) as [t1 w1]. cbn.
  do 2 eexists. split; [reflexivity|]. exact Hall.
Qed.

(** X13: An item whose genetics context cannot be built is skipped: one DEBUG
    record, no store, and the rest of the batch is processed with its own
    indices. *)
Theorem genetics_fault_skips_item
    (i : nat) (s : string) (rest : list string) (mr : MetalResults)
    (acc : list (Discovery (G := G))) (st : St) (e : Exn) (w1 : W) :
  (15 <= String.length s <= 100)%nat ->
  generate_genetics_context s (quantum_analysis (result_for mr i))
                            (virtue_scores (result_for mr i)) (world st) = (inl e, w1) ->
  validate_and_store_loop i (s :: rest) mr acc st
  = validate_and_store_loop (S i) rest mr acc
      {| self := self st;
         events := events st ++ [EvLog DEBUG (MsgValidationStorageError i e)];
         world := w1 |}.
Proof.
  intros Hlen Hg. cbn [validate_and_store_loop].
  unfold bind at 1. unfold try_except, validate_and_store_item.
  destruct (Z.leb_spec 15 (Z.of_nat (String.length s))); [|lia].
  destruct (Z.leb_spec (Z.of_nat (String.length s)) 100); [|lia].
  cbn [andb]. unfold int_true_div.
  destruct (Z.eqb_spec (Z.of_nat (String.length s)) 0); [lia|].
  unfold bind, ret, call_exn. cbn. rewrite Hg. cbn. reflexivity.
Qed.

End PersistenceMore.

Lemma file_write_retried_once_witness :
  let st := constructed false script0 in
  let d := sample_discovery in
  let dir := "m4_continuous_discoveries"%string in
  let ts1 := "20240101_000000_000001"%string in
  let ts2 := "20240101_000000_000002"%string in
  let e := CollaboratorError "json.dump" in
  let w1 := tick (world st) in
  let w4 := tick w1 in
  let attempts :=
    [EvFileOpened (discovery_file dir ts1);
     EvPrint (PrStorageError e); EvLog ERROR (MsgFailedToStore e);
     EvFileOpened (discovery_file dir ts2)] in
  use_neo4j (self st) = false /\
  discovery_output_dir (self st) = Some dir /\
  datetime_now_strftime (Environment := flaky_disk) (world st) = (ts1, w1) /\
  open (Environment := flaky_disk) (discovery_file dir ts1) w1 = (inr tt, w1) /\
  json_dump (Environment := flaky_disk) (discovery_file dir ts1) d w1 = (inl e, w1) /\
  datetime_now_strftime (Environment := flaky_disk) w1 = (ts2, w4) /\
  open (Environment := flaky_disk) (discovery_file dir ts2) w4 = (inr tt, w4) /\
  match json_dump (Environment := flaky_disk) (discovery_file dir ts2) d w4 with
  | (inr _, w6) =>
      store (env := flaky_disk) d 1 st =
      (inr d, {| self := self st;
                 events := events st ++ attempts
                           ++ [EvFileWritten (discovery_file dir ts2) d];
                 world := w6 |})
  | (inl e2, w6) =>
      store (env := flaky_disk) d 1 st =
      (inl e2, {| self := self st; events := events st ++ attempts; world := w6 |}) /\
      count_written (attempts : list (Event (G := unit))) = 0%nat
  end.
Proof.
  cbv zeta.
  assert (H1 : use_neo4j (self (constructed false script0)) = false) by reflexivity.
  assert (H2 : discovery_output_dir (self (constructed false script0))
               = Some "m4_continuous_discoveries"%string) by reflexivity.
  assert (H3 : datetime_now_strftime (Environment := flaky_disk)
                 (world (constructed false script0))
               = ("20240101_000000_000001"%string, tick (world (constructed false script0))))
    by reflexivity.
  assert (H4 : open (Environment := flaky_disk)
                 (discovery_file "m4_continuous_discoveries" "20240101_000000_000001")
                 (tick (world (constructed false script0)))
               = (inr tt, tick (world (constructed false script0)))) by reflexivity.
  assert (H5 : json_dump (Environment := flaky_disk)
                 (discovery_file "m4_continuous_discoveries" "20240101_000000_000001")
                 sample_discovery (tick (world (constructed false script0)))
               = (inl (CollaboratorError "json.dump"),
                  tick (world (constructed false script0)))) by reflexivity.
  assert (H6 : datetime_now_strftime (Environment := flaky_disk)
                 (tick (world (constructed false script0)))
               = ("20240101_000000_000002"%string,
                  tick (tick (world (constructed false script0))))) by reflexivity.
  assert (H7 : open (Environment := flaky_disk)
                 (discovery_file "m4_continuous_discoveries" "20240101_000000_000002")
                 (tick (tick (world (constructed false script0))))
               = (inr tt, tick (tick (world (constructed false script0))))) by reflexivity.
  exact (conj H1 (conj H2 (conj H3 (conj H4 (conj H5 (conj H6 (conj H7
    (file_write_retried_once (env := flaky_disk) sample_discovery 1
       (constructed false script0) _ _ _ _ _ _ _ _ _ H1 H2 H3 H4 H5 H6 H7)))))))).
Defined.

Lemma genetics_fault_skips_item_witness :
  let st := constructed false script0 in
  let s := "ACDEFGHIKLMNPQRSTVWY"%string in
  let e := CollaboratorError "_generate_genetics_context" in
  (15 <= String.length s <= 100)%nat /\
  generate_genetics_context (Environment := no_genetics) s
    (quantum_analysis (result_for no_results 0))
    (virtue_scores (result_for no_results 0)) (world st) = (inl e, world st) /\
  validate_and_store_loop (env := no_genetics) 0 [s; s] no_results [] st
  = validate_and_store_loop (env := no_genetics) 1 [s] no_results []
      {| self := self st;
         events := events st ++ [EvLog DEBUG (MsgValidationStorageError 0 e)];
         world := world st |}.
Proof.
  cbv zeta.
  assert (H1 : (15 <= String.length "ACDEFGHIKLMNPQRSTVWY" <= 100)%nat) by (cbn; lia).
  assert (H2 : generate_genetics_context (Environment := no_genetics)
                 "ACDEFGHIKLMNPQRSTVWY"
                 (quantum_analysis (result_for no_results 0))
                 (virtue_scores (result_for no_results 0))
                 (world (constructed false script0))
               = (inl (CollaboratorError "_generate_genetics_context"),
                  world (constructed false script0))) by reflexivity.
  exact (conj H1 (conj H2
    (genetics_fault_skips_item (env := no_genetics) 0 _ _ no_results [] _ _ _ H1 H2))).
Defined.

(** ** What a computation may emit *)

Section EmitsRules.

Context {G W : Type} {env : Environment (G := G) W}.

Local Abbreviation St := (State (G := G) (W := W)).
Local Abbreviation Mon := (M (G := G) (W := W)).

Context (P : Event (G := G) -> Prop).

Lemma emits_pure {A} (m : Mon A) :
  (forall st, events (snd (m st)) = events st) -> emits P m.
Proof. intros H st. exists []. rewrite app_nil_r. split; [apply H | constructor]. Qed.

Lemma emits_ret {A} (a : A) : emits P (ret (G := G) (W := W) a).
Proof. apply emits_pure. reflexivity. Qed.

Lemma emits_raise {A} (e : Exn) : emits P (raise (G := G) (W := W) (A := A) e).
Proof. apply emits_pure. reflexivity. Qed.

Lemma emits_get_self : emits P (get_self (G := G) (W := W)).
Proof. apply emits_pure. reflexivity. Qed.

Lemma emits_modify_self (g : Engine -> Engine) : emits P (modify_self (G := G) (W := W) g).
Proof. apply emits_pure. reflexivity. Qed.

Lemma emits_call {A} (op : W -> A * W) : emits P (call (G := G) op).
Proof. apply emits_pure. intros st. unfold call. now destruct (op (world st)). Qed.

Lemma emits_call_exn {A} (op : W -> (Exn + A) * W) : emits P (call_exn (G := G) op).
Proof. apply emits_pure. intros st. unfold call_exn. now destruct (op (world st)). Qed.

Lemma emits_emit (ev : Event (G := G)) : P ev -> emits P (emit (W := W) ev).
Proof. intros H st. exists [ev]. split; [reflexivity | now constructor]. Qed.

Lemma emits_bind {A B} (m : Mon A) (k : A -> Mon B) :
  emits P m -> (forall a, emits P (k a)) -> emits P (bind m k).
Proof.
  intros Hm Hk st. unfold bind. destruct (Hm st) as [evs [E H]].
  destruct (m st) as [[e | a] st1]; cbn [snd] in *; [now exists evs|].
  destruct (Hk a st1) as [evs' [E' H']]. exists (evs ++ evs').
  split; [now rewrite E', E, app_assoc | now apply Forall_app].
Qed.

Lemma emits_try {A} (m : Mon A) (h : Exn -> Mon A) :
  emits P m -> (forall e, emits P (h e)) -> emits P (try_except m h).
Proof.
  intros Hm Hh st. unfold try_except. destruct (Hm st) as [evs [E H]].
  destruct (m st) as [[e | a] st1]; cbn [snd] in *; [|now exists evs].
  destruct (Hh e st1) as [evs' [E' H']]. exists (evs ++ evs').
  split; [now rewrite E', E, app_assoc | now apply Forall_app].
Qed.

Lemma emits_when (c : bool) (m : Mon unit) : emits P m -> emits P (when c m).
Proof. intros Hm. destruct c; [exact Hm | apply emits_ret]. Qed.

Lemma emits_run {A} (m : Mon A) (st st' : St) r :
  emits P m -> m st = (r, st') ->
  exists evs, events st' = events st ++ evs /\ Forall P evs.
Proof. intros Hm E. specialize (Hm st). now rewrite E in Hm. Qed.

End EmitsRules.

Ltac emits_with known :=
  unfold uniform, logger, print, int_true_div, float_div, update_metrics;
  repeat first
    [ known
    | apply emits_ret
    | apply emits_raise
    | apply emits_get_self
    | apply emits_modify_self
    | apply emits_call
    | apply emits_call_exn
    | apply emits_emit; solve [reflexivity | exact I]
    | apply emits_when
    | apply emits_bind; [|intros]
    | apply emits_try; [|intros]
    | match goal with
      | |- emits _ (if ?b then _ else _) => destruct b
      | |- emits _ (match ?x with _ => _ end) => destruct x
      end ].

Ltac emits_tac := emits_with fail.

(** ** The scorer, one sequence at a time *)

Section ScorerMore.

Context {G W : Type} {env : Environment (G := G) W}.

Local Abbreviation St := (State (G := G) (W := W)).
Local Abbreviation Mon := (M (G := G) (W := W)).

Lemma emits_nothing {A} (m : Mon A) (st : St) :
  emits (fun _ => False) m -> events (snd (m st)) = events st.
Proof.
  intros H. destruct (H st) as [evs [E Hall]].
  destruct evs as [|ev evs]; [now rewrite app_nil_r in E|].
  now inversion Hall.
Qed.

Lemma vqbit_state_of_inv (i : nat) (aa : ascii) (st st' : St) s :
  vqbit_state_of i aa st = (inr s, st') ->
  residue_index s = i /\ amino_acid s = aa /\
  (i = 0%nat -> entanglement_with_prev s = 0%Q).
Proof.
  intros H. unfold vqbit_state_of in H.
  repeat (apply bind_inr in H as [? [? [? H]]]).
  apply ret_inr in H. subst s. cbn.
  split; [reflexivity|]. split; [reflexivity|]. intros ->.
  match goal with
  | Hprev : (if (0 <? 0)%nat then _ else _) _ = (inr ?x, _) |- ?x = _ =>
      cbn in Hprev; now apply ret_inr in Hprev
  end.
Qed.

Lemma vqbit_states_loop_inv (residues : list ascii) :
  forall (i : nat) (acc states : list VQbitState) (st st' : St),
  vqbit_states_loop i residues acc st = (inr states, st') ->
  exists new,
    states = acc ++ new /\
    map amino_acid new = residues /\
    map residue_index new = seq i (List.length residues) /\
    Forall (fun s => residue_index s = 0%nat -> entanglement_with_prev s = 0%Q) new.
Proof.
  induction residues as [|aa rest IH]; intros i acc states st st' H;
    cbn [vqbit_states_loop] in H.
  - apply ret_inr in H. subst states. exists []. rewrite app_nil_r.
    repeat split. constructor.
  - apply bind_inr in H as [s [st1 [Hs H]]].
    apply vqbit_state_of_inv in Hs as [Hi [Ha H0]].
    apply IH in H as [new [-> [Hna [Hni Hn0]]]].
    exists (s :: new). rewrite <- app_assoc. cbn [app map List.length seq].
    rewrite Hi, Ha, Hna, Hni. repeat split.
    constructor; [|exact Hn0]. intros Hz. apply H0. congruence.
Qed.

Lemma length_list_ascii (s : string) :
  List.length (list_ascii_of_string s) = String.length s.
Proof. induction s as [|c s IH]; cbn; congruence. Qed.

Lemma generate_states_inv (sequence : string) (st st' : St) states :
  _generate_vqbit_quantum_states sequence st = (inr states, st') ->
  spells states sequence /\
  Forall (fun s => residue_index s = 0%nat -> entanglement_with_prev s = 0%Q) states.
Proof.
  intros H. unfold _generate_vqbit_quantum_states in H.
  apply vqbit_states_loop_inv in H as [new [-> [Ha [Hi H0]]]]. cbn [app].
  rewrite length_list_ascii in Hi. now repeat split.
Qed.

Lemma fraction_bounds (a b : Z) :
  0 <= a <= b -> 0 < b -> (0 <= inject_Z a / inject_Z b)%Q /\ (inject_Z a / inject_Z b <= 1)%Q.
Proof.
  intros [Ha Hab] Hb.
  assert (Hb' : (0 < inject_Z b)%Q) by (unfold Qlt; cbn; lia).
  split.
  - apply Qle_shift_div_l; [exact Hb'|]. rewrite Qmult_0_l.
    unfold Qle; cbn; lia.
  - apply Qle_shift_div_r; [exact Hb'|]. rewrite Qmult_1_l.
    unfold Qle; cbn; lia.
Qed.

Lemma int_true_div_inr (a b : Z) (st st' : St) q :
  int_true_div a b st = (inr q, st') -> b <> 0 /\ q = (inject_Z a / inject_Z b)%Q.
Proof.
  unfold int_true_div. destruct (Z.eqb_spec b 0); unfold raise, ret; intros H.
  - discriminate.
  - split; [assumption | congruence].
Qed.

Lemma analyse_inv (sequence : string) (st st' : St) r :
  analyse_sequence sequence st = (inr r, st') -> fits sequence r.
Proof.
  intros H. unfold analyse_sequence in H.
  apply bind_inr in H as [vq [st1 [Hvq H]]].
  apply generate_states_inv in Hvq as [Hsp _].
  repeat (apply bind_inr in H as [? [? [? H]]]).
  apply ret_inr in H. subst r. unfold fits. cbn.
  match goal with
  | Hd : int_true_div _ _ _ = (inr _, _) |- _ =>
      apply int_true_div_inr in Hd as [Hn ->]
  end.
  split; [exact Hsp|].
  pose proof (filter_length_le collapsed vq) as Hle.
  split.
  - intros ->. destruct Hsp as [Hsp _]. cbn in Hsp.
    apply map_eq_nil in Hsp. subst vq. now apply Hn.
  - apply fraction_bounds; lia.
Qed.

Lemma analysis_loop_inv (sequences : list string) :
  forall (acc results : list ScoreResult) (st st' : St),
  analysis_loop sequences acc st = (inr results, st') ->
  exists new, results = acc ++ new /\ Forall2 fits sequences new.
Proof.
  induction sequences as [|s rest IH]; intros acc results st st' H;
    cbn [analysis_loop] in H.
  - apply ret_inr in H. subst results. exists []. rewrite app_nil_r. now split.
  - apply bind_inr in H as [r [st1 [Hr H]]].
    apply analyse_inv in Hr.
    apply IH in H as [new [-> Hall]].
    exists (r :: new). rewrite <- app_assoc. split; [reflexivity | now constructor].
Qed.

Lemma emits_vqbit_states_loop (residues : list ascii) :
  forall i acc, emits (fun _ => False) (vqbit_states_loop (G := G) (W := W) i residues acc).
Proof.
  induction residues as [|aa rest IH]; intros i acc; cbn [vqbit_states_loop].
  - apply emits_ret.
  - apply emits_bind; [|intros; apply IH].
    unfold vqbit_state_of, draw_projection. emits_tac.
Qed.

Lemma emits_analysis_loop (sequences : list string) :
  forall acc, emits (fun _ => False) (analysis_loop (G := G) (W := W) sequences acc).
Proof.
  induction sequences as [|s rest IH]; intros acc; cbn [analysis_loop].
  - apply emits_ret.
  - apply emits_bind; [|intros; apply IH].
    unfold analyse_sequence, _generate_vqbit_quantum_states, virtue_score.
    emits_with ltac:(apply emits_vqbit_states_loop).
Qed.

Lemma metal_analysis_inv (sequences : list string) (st st' : St) mr :
  massive_batch_analysis sequences st = (inr mr, st') ->
  exists results,
    individual_results mr = Some results /\
    mr_batch_size mr = Z.of_nat (List.length sequences) /\
    Forall2 fits sequences results.
Proof.
  intros H. unfold massive_batch_analysis, _simplified_metal_analysis in H.
  apply bind_inr in H as [results [st1 [Hloop H]]].
  apply bind_inr in H as [s [st2 [_ H]]].
  apply ret_inr in H. subst mr. cbn.
  apply analysis_loop_inv in Hloop as [new [-> Hall]].
  exists new. now repeat split.
Qed.

(** X18: [_generate_vqbit_quantum_states] returns one state per residue, in
    the order of the sequence, each with the residue and its index; the
    state of the first residue has no entanglement with a previous one.
    The only exception it can raise is [ZeroDivisionError], from the
    normalisation of an amplitude of magnitude zero. *)
Theorem states_mirror_sequence (sequence : string) (st : St) :
  match fst (_generate_vqbit_quantum_states sequence st) with
  | inr states =>
      spells states sequence /\
      List.length states = String.length sequence /\
      Forall (fun s => residue_index s = 0%nat -> entanglement_with_prev s = 0%Q) states
  | inl e => e = ZeroDivisionError
  end.
Proof.
  destruct (_generate_vqbit_quantum_states sequence st) as [[e | states] st'] eqn:E;
    cbn [fst].
  - eapply only_zero_division_vqbit_states_loop. exact E.
  - apply generate_states_inv in E as [Hsp H0].
    split; [exact Hsp|]. split; [|exact H0].
    destruct Hsp as [Ha _]. apply (f_equal (@List.length _)) in Ha.
    now rewrite length_map, length_list_ascii in Ha.
Qed.

(** X19: [massive_batch_analysis] changes neither the engine nor the log.
    When it returns, the batch holds one result per sequence, in the
    order of the batch: the states of each result spell its sequence,
    its superposition fidelity lies between 0 and 1, no sequence was
    empty, and ['batch_size'] is the number of sequences.  When it
    raises, the exception is [ZeroDivisionError]. *)
Theorem one_result_per_sequence (sequences : list string) (st : St) :
  self (snd (massive_batch_analysis sequences st)) = self st /\
  events (snd (massive_batch_analysis sequences st)) = events st /\
  match fst (massive_batch_analysis sequences st) with
  | inr mr =>
      exists results,
        individual_results mr = Some results /\
        mr_batch_size mr = Z.of_nat (List.length sequences) /\
        List.length results = List.length sequences /\
        Forall2 (fun sequence r =>
                   spells (vqbit_states r) sequence /\
                   sequence <> ""%string /\
                   (0 <= superposition_fidelity (quantum_analysis r))%Q /\
                   (superposition_fidelity (quantum_analysis r) <= 1)%Q)
                sequences results
  | inl e => e = ZeroDivisionError
  end.
Proof.
  split; [apply (keeps_massive_batch_analysis sequences st)|].
  split.
  - apply emits_nothing.
    unfold massive_batch_analysis, _simplified_metal_analysis.
    emits_with ltac:(apply emits_analysis_loop).
  - destruct (massive_batch_analysis sequences st) as [[e | mr] st'] eqn:E; cbn [fst].
    + unfold massive_batch_analysis, _simplified_metal_analysis in E.
      apply bind_inl in E as [E | [results [st1 [_ E]]]].
      * clear - E. revert E. generalize (@nil ScoreResult). revert st.
        induction sequences as [|s rest IH]; intros st acc E; cbn [analysis_loop] in E.
        -- discriminate.
        -- apply bind_inl in E as [E | [r [st1 [_ E]]]].
           ++ eapply only_zero_division_analyse. exact E.
           ++ eapply IH. exact E.
      * apply bind_inl in E as [E | [s [st2 [_ E]]]]; discriminate.
    + apply metal_analysis_inv in E as [results [Hr [Hb Hall]]].
      exists results. split; [exact Hr|]. split; [exact Hb|].
      split; [symmetry; eapply Forall2_length; exact Hall | exact Hall].
Qed.

End ScorerMore.

(** ** No item of a batch is lost without a trace *)

Section ValidateMore.

Context {G W : Type} {env : Environment (G := G) W}.

Local Abbreviation St := (State (G := G) (W := W)).
Local Abbreviation Mon := (M (G := G) (W := W)).

Lemma count_skipped_app (l1 l2 : list (Event (G := G))) :
  count_skipped (l1 ++ l2) = (count_skipped l1 + count_skipped l2)%nat.
Proof. unfold count_skipped. now rewrite filter_app, length_app. Qed.

Lemma count_skipped_none (l : list (Event (G := G))) :
  Forall (fun ev => is_skipped ev = false) l -> count_skipped l = 0%nat.
Proof.
  unfold count_skipped. induction 1 as [|ev l Hev _ IH]; [reflexivity|].
  cbn [filter]. now rewrite Hev.
Qed.

Lemma emits_item (i : nat) (s : string) (mr : MetalResults)
    (acc : list (Discovery (G := G))) :
  emits (fun ev => is_skipped ev = false) (validate_and_store_item i s mr acc).
Proof.
  unfold validate_and_store_item, store, _save_discovery_to_file. emits_tac.
Qed.

Lemma item_outcome (i : nat) (s : string) (mr : MetalResults)
    (acc : list (Discovery (G := G))) (st st' : St) r :
  validate_and_store_item i s mr acc st = (r, st') ->
  match r with
  | inr acc' => if in_range s then exists d, acc' = acc ++ [d] else acc' = acc
  | inl _ => in_range s = true
  end.
Proof.
  unfold validate_and_store_item, in_range. cbv zeta.
  destruct ((15 <=? _) && (_ <=? 100)).
  - destruct r as [e | acc']; [reflexivity|]. intros H.
    repeat (apply bind_inr in H as [? [? [? H]]]).
    apply ret_inr in H. eauto.
  - intros H. unfold ret in H. inversion H. reflexivity.
Qed.

Lemma loop_account (sequences : list string) (mr : MetalResults) :
  forall (i : nat) (acc : list (Discovery (G := G))) (st : St),
  exists ds new evs st',
    validate_and_store_loop i sequences mr acc st = (inr ds, st') /\
    ds = acc ++ new /\
    events st' = events st ++ evs /\
    (List.length new + count_skipped evs = List.length (filter in_range sequences))%nat.
Proof.
  induction sequences as [|s rest IH]; intros i acc st; cbn [validate_and_store_loop].
  - exists acc, [], [], st. cbn. now rewrite !app_nil_r.
  - unfold bind at 1. unfold try_except at 1.
    destruct (validate_and_store_item i s mr acc st) as [[e | acc1] st1] eqn:Eitem;
      pose proof (item_outcome _ _ _ _ _ _ _ Eitem) as Hout;
      apply (emits_run _ _ _ _ _ (emits_item i s mr acc)) in Eitem as [evs1 [Hev1 Hq1]];
      apply count_skipped_none in Hq1.
    + unfold bind, logger, emit, ret. cbn [fst snd self events world].
      match goal with |- context [validate_and_store_loop _ rest mr acc ?s0] =>
        destruct (IH (S i) acc s0) as [ds [new [evs [st' [E [-> [Hev Hn]]]]]]]
      end.
      rewrite E. cbn [snd fst events self] in *.
      exists (acc ++ new), new,
             (evs1 ++ [EvLog DEBUG (MsgValidationStorageError i e)] ++ evs), st'.
      split; [reflexivity|]. split; [reflexivity|].
      split; [rewrite Hev, Hev1; now rewrite <- !app_assoc|].
      cbn [filter]. rewrite Hout. rewrite !count_skipped_app, Hq1. cbn. lia.
    + destruct (IH (S i) acc1 st1) as [ds [new [evs [st' [E [-> [Hev Hn]]]]]]].
      rewrite E. cbn [filter].
      destruct (in_range s).
      * destruct Hout as [d ->].
        exists ((acc ++ [d]) ++ new), (d :: new), (evs1 ++ evs), st'.
        split; [reflexivity|]. split; [now rewrite <- app_assoc|].
        split; [rewrite Hev, Hev1; now rewrite <- !app_assoc|].
        rewrite count_skipped_app, Hq1. cbn. lia.
      * subst acc1. exists (acc ++ new), new, (evs1 ++ evs), st'.
        split; [reflexivity|]. split; [reflexivity|].
        split; [rewrite Hev, Hev1; now rewrite <- !app_assoc|].
        rewrite count_skipped_app, Hq1. cbn. lia.
Qed.

Lemma Forall2_nth {A B} (R : A -> B -> Prop) (l1 : list A) (l2 : list B) :
  Forall2 R l1 l2 ->
  forall j a, nth_error l1 j = Some a -> exists b, nth_error l2 j = Some b /\ R a b.
Proof.
  induction 1 as [|x y l1 l2 Hxy _ IH]; intros j a Hj.
  - destruct j; discriminate.
  - destruct j as [|j]; cbn in *.
    + inversion Hj; subst. eauto.
    + eauto.
Qed.

(** X14: Every sequence of 15 to 100 residues of a batch is accounted for:
    it comes back as a record, or the log has the DEBUG record of the
    item that was given up.  Sequences outside the range leave neither. *)
Theorem no_item_dropped_silently
    (sequences : list string) (metal_results : MetalResults) (st : St) :
  exists ds st' evs,
    _ultra_fast_validate_and_store sequences metal_results st = (inr ds, st') /\
    events st' = events st ++ evs /\
    (List.length ds + count_skipped evs = List.length (filter in_range sequences))%nat.
Proof.
  unfold _ultra_fast_validate_and_store, bind, call, update_metrics, modify_self, ret.
  destruct (time_time (world st)) as [t0 w0]. cbn.
  match goal with |- context [validate_and_store_loop 0 sequences metal_results [] ?s0] =>
    destruct (loop_account sequences metal_results 0 [] s0)
      as [ds [new [evs [st1 [E [-> [Hev Hn]]]]]]]
  end.
  rewrite E. cbn [snd fst events self world] in *.
  destruct (time_time _) as [t1 w1]. cbn.
  do 2 eexists. exists evs. split; [reflexivity|]. cbn. now split.
Qed.

(** X20: The scorer and the validate-and-store step composed: when the
    analysis of a batch returns, every record of the batch carries the
    states of its own sequence (one state per residue, in order) and a
    superposition fidelity between 0 and 1. *)
Theorem records_spell_their_sequence
    (sequences : list string) (st st1 : St) (metal_results : MetalResults) :
  massive_batch_analysis sequences st = (inr metal_results, st1) ->
  exists ds st2,
    _ultra_fast_validate_and_store sequences metal_results st1 = (inr ds, st2) /\
    Forall (fun d => spells (d_vqbit_states d) (sequence d) /\
                     (0 <= superposition_fidelity (d_quantum_analysis d))%Q /\
                     (superposition_fidelity (d_quantum_analysis d) <= 1)%Q) ds.
Proof.
  intros Hm. apply metal_analysis_inv in Hm as [results [Hr [_ Hall]]].
  unfold _ultra_fast_validate_and_store, bind, call, update_metrics, modify_self, ret.
  destruct (time_time (world st1)) as [t0 w0]. cbn.
  match goal with |- context [validate_and_store_loop 0 sequences metal_results [] ?s0] =>
    destruct (loop_cases sequences metal_results 0 [] s0)
      as [ds [new [evs [st2 [E [-> [_ [_ [_ [_ Hcar]]]]]]]]]]
  end.
  rewrite E. cbn [snd fst events self world] in *.
  destruct (time_time _) as [t1 w1]. cbn.
  do 2 eexists. split; [reflexivity|].
  eapply Forall_impl; [|exact Hcar]. cbn. intros d [j [Hj [_ [Hst Hqa]]]].
  destruct (Forall2_nth _ _ _ Hall j _ Hj) as [r [Hrj [Hsp [_ [Hlo Hhi]]]]].
  unfold result_for, get_individual_results in Hst, Hqa.
  rewrite Hr, Hrj in Hst, Hqa. rewrite Hst, Hqa.
  split; [exact Hsp | split; assumption].
Qed.

(** X21: The two reports cannot fail and cannot change the engine: a failure
    of [get_discovery_statistics] is caught, and all they emit are log
    records at INFO or DEBUG.  On an engine with the file backend the
    graph database is not queried. *)
Theorem reports_never_fail (st : St) :
  (fst (_log_progress_update st) = inr tt /\
   self (snd (_log_progress_update st)) = self st /\
   (exists evs, events (snd (_log_progress_update st)) = events st ++ evs /\
                Forall routine evs) /\
   if use_neo4j (self st) then True
   else world (snd (_log_progress_update st)) = snd (time_time (world st))) /\
  (fst (_generate_shutdown_report st) = inr tt /\
   self (snd (_generate_shutdown_report st)) = self st /\
   (exists evs, events (snd (_generate_shutdown_report st)) = events st ++ evs /\
                Forall routine evs) /\
   if use_neo4j (self st) then True
   else world (snd (_generate_shutdown_report st)) = snd (time_time (world st))).
Proof.
  split.
  - split.
    { destruct (never_raises_log_progress_update st) as [[] E]. exact E. }
    split; [apply (keeps_log_progress_update st)|].
    split.
    { assert (H : emits routine (_log_progress_update (G := G) (W := W)))
        by (unfold _log_progress_update; emits_tac).
      apply H. }
    unfold _log_progress_update, bind, call, get_self, logger, emit, when.
    destruct (time_time (world st)) as [t w]. cbn.
    destruct (use_neo4j (self st)); [exact I | reflexivity].
  - split.
    { assert (H : never_raises (_generate_shutdown_report (G := G) (W := W)))
        by (unfold _generate_shutdown_report; never_raises_tac).
      destruct (H st) as [[] E]. exact E. }
    split.
    { assert (H : keeps (fun e => e) (_generate_shutdown_report (G := G) (W := W)))
        by (unfold _generate_shutdown_report; keeps_tac).
      apply H. }
    split.
    { assert (H : emits routine (_generate_shutdown_report (G := G) (W := W)))
        by (unfold _generate_shutdown_report; emits_tac).
      apply H. }
    unfold _generate_shutdown_report, bind, call, get_self, logger, emit, when.
    destruct (time_time (world st)) as [t w]. cbn.
    destruct (use_neo4j (self st)); [exact I | reflexivity].
Qed.

Lemma item_score (i : nat) (s : string) (mr : MetalResults)
    (acc acc' : list (Discovery (G := G))) (st st' : St) :
  validate_and_store_item i s mr acc st = (inr acc', st') ->
  acc' = acc \/
  exists d, acc' = acc ++ [d] /\ sequence d = s /\ validation_score d = sequence_score s.
Proof.
  unfold validate_and_store_item.
  destruct ((15 <=? _) && (_ <=? 100));
    [|intros H; apply ret_inr in H; now left].
  intros H.
  apply bind_inr in H as [hf [? [Hh H]]].
  apply bind_inr in H as [cf [? [Hc H]]].
  apply bind_inr in H as [pf [? [Hp H]]].
  apply bind_inr in H as [g [? [_ H]]].
  apply bind_inr in H as [d [? [Hs H]]].
  apply ret_inr in H. right. exists d. split; [exact H|].
  apply store_keeps in Hs as [Hseq Hscore]. cbn [sequence validation_score] in Hseq, Hscore.
  split; [exact Hseq|]. rewrite Hscore.
  apply int_true_div_inr in Hh as [_ ->], Hc as [_ ->], Hp as [_ ->].
  reflexivity.
Qed.

Lemma loop_score (sequences : list string) (mr : MetalResults) :
  forall (i : nat) (acc ds : list (Discovery (G := G))) (st st' : St),
  validate_and_store_loop i sequences mr acc st = (inr ds, st') ->
  exists new, ds = acc ++ new /\
              Forall (fun d => validation_score d = sequence_score (sequence d)) new.
Proof.
  induction sequences as [|s rest IH]; intros i acc ds st st' H;
    cbn [validate_and_store_loop] in H.
  - apply ret_inr in H. subst ds. exists []. rewrite app_nil_r. now split.
  - apply bind_inr in H as [acc1 [st1 [Hitem H]]].
    apply IH in H as [new1 [-> Hall]].
    assert (Hacc1 : acc1 = acc \/
                    exists d, acc1 = acc ++ [d] /\ sequence d = s /\
                              validation_score d = sequence_score s).
    { unfold try_except in Hitem.
      destruct (validate_and_store_item i s mr acc st) as [[e | a] st2] eqn:E.
      - apply bind_inr in Hitem as [? [? [_ Hitem]]]. apply ret_inr in Hitem. now left.
      - inversion Hitem; subst a st2. eapply item_score; eassumption. }
    destruct Hacc1 as [-> | [d [-> [Hseq Hd]]]].
    + exists new1. now split.
    + exists (d :: new1). rewrite <- app_assoc. split; [reflexivity|].
      constructor; [now rewrite Hseq | exact Hall].
Qed.

(** X27: The validation score of a record is a function of its sequence
    alone: whatever the score results, the genetics context and the
    backend, every returned record has the quality score of its own
    residue fractions. *)
Theorem score_depends_only_on_sequence
    (sequences : list string) (metal_results : MetalResults) (st : St) :
  exists ds st',
    _ultra_fast_validate_and_store sequences metal_results st = (inr ds, st') /\
    Forall (fun d => validation_score d = sequence_score (sequence d)) ds.
Proof.
  destruct (never_raises_run (_ultra_fast_validate_and_store sequences metal_results) st
              (never_raises_validate_and_store sequences metal_results)) as [ds E].
  exists ds, (snd (_ultra_fast_validate_and_store sequences metal_results st)).
  split; [exact E|].
  unfold _ultra_fast_validate_and_store in E at 1.
  apply bind_inr in E as [t0 [st1 [_ E]]].
  apply bind_inr in E as [ds1 [st2 [Hloop E]]].
  repeat (apply bind_inr in E as [? [? [_ E]]]).
  apply ret_inr in E. subst ds1.
  apply loop_score in Hloop as [new [-> Hall]]. exact Hall.
Qed.

End ValidateMore.

Lemma records_spell_their_sequence_witness :
  let sequences := ["ACDEFGHIKLMNPQRSTVWY"; "ACD"]%string in
  let st := constructed false script0 in
  let r := massive_batch_analysis (env := scripted false) sequences st in
  let metal_results :=
    match fst r with
    | inr metal_results => metal_results
    | inl _ => no_results
    end in
  massive_batch_analysis (env := scripted false) sequences st = (inr metal_results, snd r) /\
  exists ds st2,
    _ultra_fast_validate_and_store (env := scripted false) sequences metal_results (snd r)
    = (inr ds, st2) /\
    Forall (fun d => spells (d_vqbit_states d) (sequence d) /\
                     (0 <= superposition_fidelity (d_quantum_analysis d))%Q /\
                     (superposition_fidelity (d_quantum_analysis d) <= 1)%Q) ds.
Proof.
  cbv zeta.
  set (sequences := ["ACDEFGHIKLMNPQRSTVWY"; "ACD"]%string).
  set (st := constructed false script0).
  assert (H : massive_batch_analysis (env := scripted false) sequences st
              = (inr match fst (massive_batch_analysis (env := scripted false) sequences st) with
                     | inr metal_results => metal_results
                     | inl _ => no_results
                     end,
                 snd (massive_batch_analysis (env := scripted false) sequences st)))
    by (vm_compute; reflexivity).
  pose proof (records_spell_their_sequence (env := scripted false) sequences st
           (snd (massive_batch_analysis (env := scripted false) sequences st))
           match fst (massive_batch_analysis (env := scripted false) sequences st) with
           | inr metal_results => metal_results
           | inl _ => no_results
           end H) as K.
  split; [exact H | exact K].
Defined.

(** ** Items past the end of the result list *)

Section ShortResultList.

Context {G W : Type} {env : Environment (G := G) W}.

Local Abbreviation St := (State (G := G) (W := W)).







End ShortResultList.


(** ** The configuration hook *)

Lemma py_int_lower (q : Q) (k : Z) :
  0 <= k -> (inject_Z k <= q)%Q -> k <= py_int q.
Proof.
  intros Hk Hq. unfold py_int. unfold Qle in Hq. cbn [Qnum Qden inject_Z] in Hq.
  rewrite Z.quot_div_nonneg by nia.
  apply Z.div_le_lower_bound; nia.
Qed.

(** X22: The configuration can be built exactly when Metal is available and
    no memory limit was passed.  Without Metal the hook raises
    [RuntimeError] before it logs anything.  With an explicit
    [memory_limit_gb] the detection is skipped, the local
    [total_memory_gb] stays unbound and the hook raises
    [UnboundLocalError] after its first four records. *)
Theorem post_init_outcome (mps_is_available neo4j_available : bool)
    (memory_info : MemoryInfo) (c : M4Neo4jConfig) :
  let r := __post_init__ mps_is_available neo4j_available memory_info c in
  match fst r with
  | inl (RuntimeError _) => mps_is_available = false /\ snd r = []
  | inl (UnboundLocalError name) =>
      mps_is_available = true /\ memory_limit_gb c <> None /\
      name = "total_memory_gb"%string /\
      snd r = [CfgInitialized; CfgMpsAvailable true;
               CfgNeo4jEnabled (cfg_use_neo4j c && neo4j_available);
               CfgMemoryLimit (memory_limit_gb c)]
  | inr c' =>
      mps_is_available = true /\ memory_limit_gb c = None /\ memory_limit_gb c' <> None
  end.
Proof.
  cbv zeta. unfold __post_init__, detect_resources.
  destruct mps_is_available; cbn [negb]; [|now split].
  destruct (memory_limit_gb c) as [l |] eqn:Hl.
  - cbn [fst snd]. rewrite Hl. repeat split. discriminate.
  - destruct (aggressive_scaling c && Qle_bool 100 (total_memory_gb memory_info));
      destruct (Qle_bool 100 (total_memory_gb memory_info)); cbn;
      repeat split; discriminate.
Qed.

(** X23: A configuration that is built: the hook has set the memory limit and
    nothing else, except for [batch_size] under aggressive scaling on a
    host of 100 GB or more, where it is capped to [max_batch_size] (and
    equal to it when that is at most 800).  With a safety margin between
    0 and 1 the limit lies between 0 and the total memory. *)
Theorem post_init_settings (neo4j_available : bool) (memory_info : MemoryInfo)
    (c c' : M4Neo4jConfig) :
  fst (__post_init__ true neo4j_available memory_info c) = inr c' ->
  (0 <= safety_memory_margin c)%Q -> (safety_memory_margin c <= 1)%Q ->
  0 <= total memory_info ->
  set_memory_limit_gb None (set_batch_size 0 c')
  = set_memory_limit_gb None (set_batch_size 0 c) /\
  (if aggressive_scaling c && Qle_bool 100 (total_memory_gb memory_info)
   then batch_size c' <= max_batch_size c /\
        (max_batch_size c <= 800 -> batch_size c' = max_batch_size c)
   else batch_size c' = batch_size c) /\
  exists limit,
    memory_limit_gb c' = Some limit /\
    (0 <= limit)%Q /\ (limit <= total_memory_gb memory_info)%Q.
Proof.
  intros H Hm0 Hm1 Ht.
  assert (Htot : (0 <= total_memory_gb memory_info)%Q).
  { unfold total_memory_gb. apply Qle_shift_div_l; [reflexivity|].
    rewrite Qmult_0_l. unfold Qle. cbn. lia. }
  unfold __post_init__, detect_resources in H. cbn [negb] in H.
  destruct (memory_limit_gb c) as [l |] eqn:Hl; [discriminate|].
  pose proof (Qleb_spec 100 (total_memory_gb memory_info)) as Hbig.
  destruct (Qle_bool 100 (total_memory_gb memory_info)) eqn:E;
    inversion Hbig as [Hb | Hb];
    destruct (aggressive_scaling c) eqn:Ha; cbn [andb] in *;
    cbn in H; rewrite ?E in H; cbn in H; injection H as <-; cbn;
    (split; [reflexivity|]).
  - split.
    + split; [lia|]. intros Hcap.
      pose proof (py_int_lower (total_memory_gb memory_info * 8) 800 ltac:(lia)
                    ltac:(change (inject_Z 800) with (800 # 1)%Q; lra)).
      lia.
    + eexists. split; [reflexivity|]. split; lra.
  - split; [reflexivity|]. eexists. split; [reflexivity|]. split; nra.
  - split; [reflexivity|]. eexists. split; [reflexivity|]. split; nra.
  - split; [reflexivity|]. eexists. split; [reflexivity|]. split; nra.
Qed.

Lemma post_init_settings_witness :
  let c' := set_memory_limit_gb (Some (total_memory_gb (mac_pro 64 50) * (1 - (1 # 10)))%Q)
              default_config in
  fst (__post_init__ true true (mac_pro 64 50) default_config) = inr c' /\
  (0 <= safety_memory_margin default_config)%Q /\
  (safety_memory_margin default_config <= 1)%Q /\
  0 <= total (mac_pro 64 50) /\
  set_memory_limit_gb None (set_batch_size 0 c')
  = set_memory_limit_gb None (set_batch_size 0 default_config) /\
  (if aggressive_scaling default_config
      && Qle_bool 100 (total_memory_gb (mac_pro 64 50))
   then batch_size c' <= max_batch_size default_config /\
        (max_batch_size default_config <= 800 -> batch_size c' = max_batch_size default_config)
   else batch_size c' = batch_size default_config) /\
  exists limit,
    memory_limit_gb c' = Some limit /\
    (0 <= limit)%Q /\ (limit <= total_memory_gb (mac_pro 64 50))%Q.
Proof.
  cbv zeta.
  assert (H : fst (__post_init__ true true (mac_pro 64 50) default_config)
              = inr (set_memory_limit_gb
                       (Some (total_memory_gb (mac_pro 64 50) * (1 - (1 # 10)))%Q)
                       default_config)) by reflexivity.
  assert (H0 : (0 <= safety_memory_margin default_config)%Q) by (vm_compute; discriminate).
  assert (H1 : (safety_memory_margin default_config <= 1)%Q) by (vm_compute; discriminate).
  assert (H2 : 0 <= total (mac_pro 64 50)) by (vm_compute; discriminate).
  exact (conj H (conj H0 (conj H1 (conj H2
           (post_init_settings true (mac_pro 64 50) default_config _ H H0 H1 H2))))).
Defined.

(** ** The genetics virtue scores *)

Lemma clamp_bounds (x : Q) :
  (0 <= py_max 0 (py_min 1 x))%Q /\ (py_max 0 (py_min 1 x) <= 1)%Q.
Proof.
  unfold py_max, py_min.
  destruct (Qltb_spec x 1);
    match goal with |- context [Qltb 0 ?a] => destruct (Qltb_spec 0 a) end; split; lra.
Qed.

Lemma clamp_monotone (x y : Q) :
  (x <= y)%Q -> (py_max 0 (py_min 1 x) <= py_max 0 (py_min 1 y))%Q.
Proof.
  intros H. unfold py_max, py_min.
  destruct (Qltb_spec x 1); destruct (Qltb_spec y 1);
    repeat match goal with
    | |- context [Qltb 0 ?a] => destruct (Qltb_spec 0 a)
    end; lra.
Qed.

Lemma impact_bounds (variants : list Variant) :
  Forall moderate variants ->
  forall a, (0 <= a)%Q ->
  (0 <= fold_left impact_step variants a)%Q /\ (fold_left impact_step variants a <= a)%Q.
Proof.
  induction 1 as [|v l Hv _ IH]; intros a Ha; cbn [fold_left].
  - split; lra.
  - assert (Hstep : (0 <= impact_step a v)%Q /\ (impact_step a v <= a)%Q).
    { destruct v as [fi | ei]; cbn in *; [|split; lra]. destruct Hv. split; nra. }
    destruct Hstep as [H0 H1]. destruct (IH _ H0). split; lra.
Qed.

Lemma impact_ignores_regulatory (variants : list Variant) :
  forall a, fold_left impact_step (filter is_coding variants) a
            = fold_left impact_step variants a.
Proof.
  induction variants as [|v l IH]; intros a; [reflexivity|].
  destruct v; cbn [filter is_coding fold_left impact_step]; apply IH.
Qed.

Section GeneticsScores.

Context {G W : Type} {env : Environment (G := G) W}.

(** X24: The five genetics virtue scores lie between 0 and 1, whatever the
    inputs and whatever [np.mean] returns. *)
Theorem genetics_virtue_scores_in_unit_interval (sequence : string)
    (quantum_analysis : QuantumAnalysis) (virtue_scores : VirtueDict)
    (genetics_context : GeneticsContext) :
  let s := _calculate_genetics_virtue_scores sequence quantum_analysis virtue_scores
             genetics_context in
  ((0 <= fidelity s)%Q /\ (fidelity s <= 1)%Q) /\
  ((0 <= robustness s)%Q /\ (robustness s <= 1)%Q) /\
  ((0 <= efficiency s)%Q /\ (efficiency s <= 1)%Q) /\
  ((0 <= resilience s)%Q /\ (resilience s <= 1)%Q) /\
  ((0 <= parsimony s)%Q /\ (parsimony s <= 1)%Q).
Proof.
  cbv zeta. unfold _calculate_genetics_virtue_scores.
  cbn [fidelity robustness efficiency resilience parsimony].
  repeat split; apply clamp_bounds.
Qed.

Lemma raw_parsimony_eq (n : nat) :
  (raw_parsimony n == 5 / (5 + inject_Z (Z.of_nat n)))%Q.
Proof.
  unfold raw_parsimony.
  assert (H : (0 <= inject_Z (Z.of_nat n))%Q) by (unfold Qle; cbn; lia).
  field. lra.
Qed.

Lemma raw_parsimony_bounds (n : nat) :
  (0 < raw_parsimony n)%Q /\ (raw_parsimony n <= 1)%Q.
Proof.
  rewrite raw_parsimony_eq.
  assert (H : (0 <= inject_Z (Z.of_nat n))%Q) by (unfold Qle; cbn; lia).
  split.
  - apply Qlt_shift_div_l; lra.
  - apply Qle_shift_div_r; lra.
Qed.

Lemma clamp_fraction (x : Q) :
  (0 < x)%Q -> (x <= 1)%Q -> (py_max 0 (py_min 1 x) == x)%Q.
Proof.
  intros H0 H1. unfold py_max, py_min.
  destruct (Qltb_spec x 1);
    match goal with |- context [Qltb 0 ?a] => destruct (Qltb_spec 0 a) end; lra.
Qed.

(** X25: Parsimony depends on the number of regulatory elements only: it is
    5 / (5 + n), the clamp to the unit interval never applies, it is 1
    exactly when there is no regulator, and a context with at least as
    many regulators has at most the same parsimony. *)
Theorem parsimony_of_regulators (sequence sequence' : string)
    (quantum_analysis quantum_analysis' : QuantumAnalysis)
    (virtue_scores virtue_scores' : VirtueDict)
    (genetics_context genetics_context' : GeneticsContext) :
  let n := List.length (get_or [] (regulatory_elements genetics_context)) in
  let n' := List.length (get_or [] (regulatory_elements genetics_context')) in
  let s := _calculate_genetics_virtue_scores sequence quantum_analysis virtue_scores
             genetics_context in
  let s' := _calculate_genetics_virtue_scores sequence' quantum_analysis' virtue_scores'
              genetics_context' in
  (n <= n')%nat ->
  (parsimony s == 5 / (5 + inject_Z (Z.of_nat n)))%Q /\
  (parsimony s' <= parsimony s)%Q /\
  ((parsimony s == 1)%Q <-> n = 0%nat).
Proof.
  cbv zeta. intros Hn. unfold _calculate_genetics_virtue_scores. cbn [parsimony].
  set (n := List.length (get_or [] (regulatory_elements genetics_context))) in *.
  set (n' := List.length (get_or [] (regulatory_elements genetics_context'))) in *.
  destruct (raw_parsimony_bounds n) as [Hp0 Hp1].
  destruct (raw_parsimony_bounds n') as [Hq0 Hq1].
  rewrite !clamp_fraction by assumption.
  assert (Hz : (0 <= inject_Z (Z.of_nat n))%Q) by (unfold Qle; cbn; lia).
  assert (Hz' : (inject_Z (Z.of_nat n) <= inject_Z (Z.of_nat n'))%Q)
    by (unfold Qle; cbn; lia).
  split; [apply raw_parsimony_eq|]. split.
  - rewrite !raw_parsimony_eq.
    apply Qle_shift_div_l; [lra|].
    assert (E : (5 / (5 + inject_Z (Z.of_nat n')) * (5 + inject_Z (Z.of_nat n))
                 == 5 * ((5 + inject_Z (Z.of_nat n)) / (5 + inject_Z (Z.of_nat n'))))%Q)
      by (field; lra).
    rewrite E.
    assert (Hr : ((5 + inject_Z (Z.of_nat n)) / (5 + inject_Z (Z.of_nat n')) <= 1)%Q)
      by (apply Qle_shift_div_r; lra).
    lra.
  - rewrite raw_parsimony_eq. split.
    + intros E. destruct n as [|n0]; [reflexivity|]. exfalso.
      assert (Hpos : (1 <= inject_Z (Z.of_nat (S n0)))%Q) by (unfold Qle; cbn; lia).
      assert (E' : (5 == 1 * (5 + inject_Z (Z.of_nat (S n0))))%Q).
      { rewrite <- E. field. lra. }
      lra.
    + intros ->. reflexivity.
Qed.

(** X26: Fidelity and the variants: regulatory variants do not count, and
    with a justice score that is not negative, coding variants of impact
    between 0 and 1 cannot raise the fidelity above that of the same
    context without variants. *)
Theorem coding_variants_lower_fidelity (sequence : string)
    (quantum_analysis : QuantumAnalysis) (virtue_scores : VirtueDict)
    (genetics_context : GeneticsContext) (variants : list Variant) :
  let score variants :=
    fidelity (_calculate_genetics_virtue_scores sequence quantum_analysis virtue_scores
                (with_variants variants genetics_context)) in
  Forall moderate variants ->
  (0 <= get_or (1 # 2) (vd_justice virtue_scores))%Q ->
  score (Some (filter is_coding variants)) = score (Some variants) /\
  (score (Some variants) <= score None)%Q /\
  score (Some []) = score None.
Proof.
  cbv zeta. intros Hall Hj. unfold _calculate_genetics_virtue_scores.
  cbn [fidelity with_variants genetic_variants get_or].
  unfold variant_impact.
  split; [now rewrite impact_ignores_regulatory|].
  split; [|reflexivity].
  apply clamp_monotone. cbn [fold_left].
  destruct (impact_bounds variants Hall 1 ltac:(lra)) as [H0 H1]. nra.
Qed.

End GeneticsScores.

Lemma parsimony_of_regulators_witness :
  let qa := quantum_analysis default_score_result in
  let n := List.length (get_or [] (regulatory_elements empty_context)) in
  let n' := List.length (get_or [] (regulatory_elements sample_context)) in
  let s := _calculate_genetics_virtue_scores (env := scripted true) "ACDEFGHIKLMNPQRSTVWY" qa
             sample_virtues empty_context in
  let s' := _calculate_genetics_virtue_scores (env := scripted true) "ACDEFGHIKLMNPQRSTVWY" qa
              sample_virtues sample_context in
  (n <= n')%nat /\
  (parsimony s == 5 / (5 + inject_Z (Z.of_nat n)))%Q /\
  (parsimony s' <= parsimony s)%Q /\
  ((parsimony s == 1)%Q <-> n = 0%nat).
Proof.
  cbv zeta.
  assert (H : (List.length (get_or [] (regulatory_elements empty_context))
               <= List.length (get_or [] (regulatory_elements sample_context)))%nat)
    by (cbn; lia).
  exact (conj H
    (parsimony_of_regulators (env := scripted true)
       "ACDEFGHIKLMNPQRSTVWY" "ACDEFGHIKLMNPQRSTVWY"
       (quantum_analysis default_score_result) (quantum_analysis default_score_result)
       sample_virtues sample_virtues empty_context sample_context H)).
Defined.

Lemma coding_variants_lower_fidelity_witness :
  let qa := quantum_analysis default_score_result in
  let score variants :=
    fidelity (_calculate_genetics_virtue_scores (env := scripted true)
                "ACDEFGHIKLMNPQRSTVWY" qa sample_virtues
                (with_variants variants sample_context)) in
  Forall moderate sample_variants /\
  (0 <= get_or (1 # 2) (vd_justice sample_virtues))%Q /\
  score (Some (filter is_coding sample_variants)) = score (Some sample_variants) /\
  (score (Some sample_variants) <= score None)%Q /\
  score (Some []) = score None.
Proof.
  cbv zeta.
  assert (H1 : Forall moderate sample_variants).
  { repeat constructor; cbn; discriminate. }
  assert (H2 : (0 <= get_or (1 # 2) (vd_justice sample_virtues))%Q)
    by (cbn; discriminate).
  exact (conj H1 (conj H2
    (coding_variants_lower_fidelity (env := scripted true) "ACDEFGHIKLMNPQRSTVWY"
       (quantum_analysis default_score_result) sample_virtues sample_context
       sample_variants H1 H2))).
Defined.
